(** * pscbfm: the parallel bond-fluctuation-model updater

    A shallow embedding of [src/pscbfm/UpdaterGPUScBFM_AB_Type.cu]: the
    device helpers ([hash], [linearizeBoxVectorIndex], [checkFront],
    [linearizeBondVectorIndex]), the three kernels of a substep, and the
    host-side staging calls, [initialize], [runSimulationOnGPU],
    [checkSystem], [populateLattice], [destruct] and [cleanup].

    Conventions.  A [uint32_t] is a [Z] in [0, 2^32) with the wrap-around
    written out by [u32]; an [intCUDA] is a [Z] wrapped by [toIntCUDA].
    Monomer counts and indices, [uint32_t] in the source, are natural
    numbers: the product that sizes [mPolymerSystem] is wrapped, and index
    arithmetic such as [4*i+k] is exact, which is the source's value for
    every index inside an array of fewer than [2^32] entries.
    Device and host arrays are lists read with [fetch]-style helpers and
    written with stdpp's [<[i:=v]>].  An access outside an array is
    undefined in the source; here a read yields the default and a write
    does nothing, and [linearize_lt] shows that lattice accesses stay in
    range for a box accepted by [setLatticeSize].  Memory the source
    allocates without initialising it reads as zero.  The blocks guarded by
    the "Stats" and "Benchmark" log levels only count and print; they are
    left out.  The file is modelled as compiled with [NDEBUG], without
    [NOMAGIC] and without [USEZCURVE]. *)

From Stdlib Require Import ZArith Lia Bool List.
From stdpp Require Import base list.

Local Open Scope Z_scope.

(** ** Machine integers *)

(** Conversion to [uint32_t], also the wrap-around of unsigned arithmetic. *)
Definition u32 (v : Z) : Z := v mod 2 ^ 32.

(** Modelled from the spec: [T_Flags] is a type of the class declared in a
    header that is not among the sources; the data model calls the flags
    a byte per monomer.  Conversion to [T_Flags]. *)
Definition toFlags (v : Z) : Z := v mod 2 ^ 8.

(** Modelled from the spec: [intCUDA] and [uintCUDA] are typedefs of a
    header that is not among the sources; the position element is either
    the 16-bit or the 32-bit integer type. *)
Inductive IntWidth := Int16 | Int32.

Definition bits (w : IntWidth) : Z :=
  match w with Int16 => 16 | Int32 => 32 end.

Definition wrapSigned (n v : Z) : Z :=
  (v + 2 ^ (n - 1)) mod 2 ^ n - 2 ^ (n - 1).

(** ** Device helpers that do not depend on the configuration *)

(** [__device__ uint32_t hash( uint32_t a )] *)
Definition hash (a : Z) : Z :=
  let a := u32 (u32 (a + 0x7ed55d16) + u32 (Z.shiftl a 12)) in
  let a := Z.lxor (Z.lxor a 0xc761c23c) (Z.shiftr a 19) in
  let a := u32 (u32 (a + 0x165667b1) + u32 (Z.shiftl a 5)) in
  let a := Z.lxor (u32 (a + 0xd3a2646c)) (u32 (Z.shiftl a 9)) in
  let a := u32 (u32 (a + 0xfd7046c5) + u32 (Z.shiftl a 3)) in
  let a := Z.lxor (Z.lxor a 0xb55a4f09) (Z.shiftr a 16) in
  a.

(** [isPowerOfTwo( x )] on an unsigned 32-bit argument. *)
Definition isPowerOfTwo (x : Z) : bool :=
  negb (x =? 0) && (Z.land x (u32 (x - 1)) =? 0).

(** The direction tables as [initialize] uploads them. *)
Definition DXTable_d : list Z := [-1; 1; 0; 0; 0; 0].
Definition DYTable_d : list Z := [0; 0; -1; 1; 0; 0].
Definition DZTable_d : list Z := [0; 0; 0; 0; -1; 1].

(** Reading an integer array; the index is an unsigned machine integer. *)
Definition fetch (l : list Z) (i : Z) : Z := default 0 (l !! Z.to_nat i).

(** Writing an integer array. *)
Definition store (l : list Z) (i : Z) (v : Z) : list Z := <[Z.to_nat i := v]> l.

(** The constants [dcBoxXM1 .. dcBoxXYLog2] of device constant memory. *)
Record Box := mkBox {
  dcBoxXM1 : Z;
  dcBoxYM1 : Z;
  dcBoxZM1 : Z;
  dcBoxXLog2 : Z;
  dcBoxXYLog2 : Z
}.

(** Left shift of a [uint32_t]. *)
Definition shl32 (a s : Z) : Z := u32 (Z.shiftl a s).

(** [__device__ linearizeBoxVectorIndex( ix, iy, iz )]; the arguments are
    already [uint32_t], callers convert with [u32]. *)
Definition linearizeBoxVectorIndex (b : Box) (ix iy iz : Z) : Z :=
  u32 (u32 (Z.land ix (dcBoxXM1 b)
            + shl32 (Z.land iy (dcBoxYM1 b)) (dcBoxXLog2 b))
       + shl32 (Z.land iz (dcBoxZM1 b)) (dcBoxXYLog2 b)).

(** [tex1Dfetch< uint8_t >( texLattice, i )]: a fetch outside the bound
    linear memory yields zero. *)
Definition tex1Dfetch (texLattice : list Z) (i : Z) : Z := fetch texLattice i.

(** Conversion of the OR-reduced bytes to [bool]. *)
Definition toBool (v : Z) : bool := negb (v =? 0).

(** [__device__ bool checkFront( texLattice, x0, y0, z0, axis )], the
    branch that is compiled ([#else]). *)
Definition checkFront (b : Box) (texLattice : list Z) (x0 y0 z0 axis : Z) : bool :=
  let x0Abs := Z.land (u32 x0) (dcBoxXM1 b) in
  let x0PDX := Z.land (u32 (x0 + 1)) (dcBoxXM1 b) in
  let x0MDX := Z.land (u32 (x0 - 1)) (dcBoxXM1 b) in
  let y0Abs := shl32 (Z.land (u32 y0) (dcBoxYM1 b)) (dcBoxXLog2 b) in
  let y0PDY := shl32 (Z.land (u32 (y0 + 1)) (dcBoxYM1 b)) (dcBoxXLog2 b) in
  let y0MDY := shl32 (Z.land (u32 (y0 - 1)) (dcBoxYM1 b)) (dcBoxXLog2 b) in
  let z0Abs := shl32 (Z.land (u32 z0) (dcBoxZM1 b)) (dcBoxXYLog2 b) in
  let z0PDZ := shl32 (Z.land (u32 (z0 + 1)) (dcBoxZM1 b)) (dcBoxXYLog2 b) in
  let z0MDZ := shl32 (Z.land (u32 (z0 - 1)) (dcBoxZM1 b)) (dcBoxXYLog2 b) in
  let dx := fetch DXTable_d axis in
  let dy := fetch DYTable_d axis in
  let dz := fetch DZTable_d axis in
  let f i j k := tex1Dfetch texLattice (u32 (u32 (i + j) + k)) in
  let or9 a1 a2 a3 a4 a5 a6 a7 a8 a9 :=
    Z.lor (Z.lor (Z.lor (Z.lor (Z.lor (Z.lor (Z.lor (Z.lor a1 a2) a3) a4) a5) a6) a7) a8) a9 in
  match Z.shiftr axis 1 with
  | 0 =>
      let x1 := Z.land (u32 (x0 + 2 * dx)) (dcBoxXM1 b) in
      toBool (or9 (f x1 y0MDY z0Abs) (f x1 y0Abs z0Abs) (f x1 y0PDY z0Abs)
                  (f x1 y0MDY z0MDZ) (f x1 y0Abs z0MDZ) (f x1 y0PDY z0MDZ)
                  (f x1 y0MDY z0PDZ) (f x1 y0Abs z0PDZ) (f x1 y0PDY z0PDZ))
  | 1 =>
      let y1 := shl32 (Z.land (u32 (y0 + 2 * dy)) (dcBoxYM1 b)) (dcBoxXLog2 b) in
      toBool (or9 (f x0MDX y1 z0MDZ) (f x0Abs y1 z0MDZ) (f x0PDX y1 z0MDZ)
                  (f x0MDX y1 z0Abs) (f x0Abs y1 z0Abs) (f x0PDX y1 z0Abs)
                  (f x0MDX y1 z0PDZ) (f x0Abs y1 z0PDZ) (f x0PDX y1 z0PDZ))
  | 2 =>
      let z1 := shl32 (Z.land (u32 (z0 + 2 * dz)) (dcBoxZM1 b)) (dcBoxXYLog2 b) in
      toBool (or9 (f x0MDX y0MDY z1) (f x0Abs y0MDY z1) (f x0PDX y0MDY z1)
                  (f x0MDX y0Abs z1) (f x0Abs y0Abs z1) (f x0PDX y0Abs z1)
                  (f x0MDX y0PDY z1) (f x0Abs y0PDY z1) (f x0PDX y0PDY z1))
  | _ => false
  end.


(** ** Device memory *)

(** [intCUDAVec< intCUDA >::value_type], a [short4] or [int4]: the position
    in [x, y, z] and the property tag in [w]. *)
Record vec4 := mkVec4 { vx : Z; vy : Z; vz : Z; vw : Z }.

Definition fetchVec (l : list vec4) (i : nat) : vec4 :=
  default (mkVec4 0 0 0 0) (l !! i).

(** The global-memory arrays the kernels work on, named after the host
    mirrors whose [gpu] pointer is passed at launch.  Indices stored in
    [mNeighborsSorted_gpu] are kept as [nat]. *)
Record Device := mkDevice {
  mPolymerSystemSorted_gpu : list vec4;
  mPolymerFlags_gpu : list Z;
  mLatticeOut_gpu : list Z;
  mLatticeTmp_gpu : list Z;
  mNeighborsSorted_gpu : list nat
}.

Definition setPolymerSystem (d : Device) (l : list vec4) : Device :=
  mkDevice l (mPolymerFlags_gpu d) (mLatticeOut_gpu d) (mLatticeTmp_gpu d)
           (mNeighborsSorted_gpu d).
Definition setPolymerFlags (d : Device) (l : list Z) : Device :=
  mkDevice (mPolymerSystemSorted_gpu d) l (mLatticeOut_gpu d) (mLatticeTmp_gpu d)
           (mNeighborsSorted_gpu d).
Definition setLatticeOut (d : Device) (l : list Z) : Device :=
  mkDevice (mPolymerSystemSorted_gpu d) (mPolymerFlags_gpu d) l (mLatticeTmp_gpu d)
           (mNeighborsSorted_gpu d).
Definition setLatticeTmp (d : Device) (l : list Z) : Device :=
  mkDevice (mPolymerSystemSorted_gpu d) (mPolymerFlags_gpu d) (mLatticeOut_gpu d) l
           (mNeighborsSorted_gpu d).

(** Device constant memory: [dpForbiddenBonds] and the box constants. *)
Record Constants := mkConstants {
  dpForbiddenBonds : list bool;
  dcBox : Box
}.

(** ** The kernels *)

Section Kernels.

(** The header's choice of [intCUDA] and the [NONPERIODICITY] macro. *)
Variable intCUDA : IntWidth.
Variable NONPERIODICITY : bool.

(** Conversion to [intCUDA] and to [uintCUDA]. *)
Definition toIntCUDA (v : Z) : Z := wrapSigned (bits intCUDA) v.
Definition toUintCUDA (v : Z) : Z := v mod 2 ^ bits intCUDA.

(** [linearizeBondVectorIndex( x, y, z )]; the parameters are [intCUDA],
    the result is [uintCUDA]. *)
Definition linearizeBondVectorIndex (x y z : Z) : Z :=
  let x := toIntCUDA x in
  let y := toIntCUDA y in
  let z := toIntCUDA z in
  toUintCUDA (Z.land x 7 + Z.shiftl (Z.land y 7) 3 + Z.shiftl (Z.land z 7) 6).

(** The bond test of the check kernel: the loop over the [nNeighbors]
    stored neighbours returns at the first forbidden bond. *)
Definition anyForbiddenBond (c : Constants) (d : Device)
    (nbOffset rNeighborsPitchElements iMonomer : nat)
    (x0 y0 z0 dx dy dz nNeighbors : Z) : bool :=
  existsb (fun iNeighbor =>
    let iGlobalNeighbor :=
      default 0%nat (mNeighborsSorted_gpu d
                       !! (nbOffset + iNeighbor * rNeighborsPitchElements + iMonomer)%nat) in
    let data2 := fetchVec (mPolymerSystemSorted_gpu d) iGlobalNeighbor in
    default false
      (dpForbiddenBonds c
         !! Z.to_nat (linearizeBondVectorIndex (vx data2 - x0 - dx)
                                               (vy data2 - y0 - dy)
                                               (vz data2 - z0 - dz))))
    (seq 0 (Z.to_nat nNeighbors)).

(** The boundary test compiled under [NONPERIODICITY]: [0 <= x0 + dx] is a
    signed comparison, [x0 + dx < dcBoxXM1] an unsigned one. *)
Definition insideBox (b : Box) (x y z : Z) : bool :=
  (0 <=? x) && (u32 x <? dcBoxXM1 b) &&
  (0 <=? y) && (u32 y <? dcBoxYM1 b) &&
  (0 <=? z) && (u32 z <? dcBoxZM1 b).

(** The direction drawn by thread [iMonomer] under seed [rSeed]. *)
Definition drawDirection (iMonomer : nat) (rSeed : Z) : Z :=
  toUintCUDA (hash (Z.lxor (hash (u32 (Z.of_nat iMonomer))) rSeed) mod 6).

(** One thread of [kernelSimulationScBFMCheckSpecies].  [nbOffset] is the
    offset added to [mNeighborsSorted->gpu] at the launch; the texture
    [texLatticeRefOut] is bound to [mLatticeOut]. *)
Definition kernelSimulationScBFMCheckSpecies (c : Constants)
    (iOffset nbOffset rNeighborsPitchElements nMonomers : nat) (rSeed : Z)
    (iMonomer : nat) (d : Device) : Device :=
  if (nMonomers <=? iMonomer)%nat then d else
  let data := fetchVec (mPolymerSystemSorted_gpu d) (iOffset + iMonomer) in
  let x0 := vx data in
  let y0 := vy data in
  let z0 := vz data in
  let direction := drawDirection iMonomer rSeed in
  let dx := fetch DXTable_d direction in
  let dy := fetch DYTable_d direction in
  let dz := fetch DZTable_d direction in
  let d := setPolymerFlags d (<[(iMonomer + iOffset)%nat := 0]> (mPolymerFlags_gpu d)) in
  if NONPERIODICITY && negb (insideBox (dcBox c) (x0 + dx) (y0 + dy) (z0 + dz)) then d else
  let nNeighbors := Z.land (Z.shiftr (vw data) 5) 7 in
  if anyForbiddenBond c d nbOffset rNeighborsPitchElements iMonomer
       x0 y0 z0 dx dy dz nNeighbors then d else
  if checkFront (dcBox c) (mLatticeOut_gpu d) x0 y0 z0 direction then d else
  let d := setPolymerFlags d
             (<[(iMonomer + iOffset)%nat := toFlags (Z.shiftl direction 2 + 1)]>
                (mPolymerFlags_gpu d)) in
  setLatticeTmp d
    (store (mLatticeTmp_gpu d)
       (linearizeBoxVectorIndex (dcBox c) (u32 (x0 + dx)) (u32 (y0 + dy)) (u32 (z0 + dz)))
       1).

(** One thread of [kernelSimulationScBFMPerformSpecies].  The launch passes
    the arrays advanced by [iOffset]; the texture [texLatticeTmp] is bound
    to [mLatticeTmp]. *)
Definition kernelSimulationScBFMPerformSpecies (c : Constants)
    (iOffset nMonomers : nat) (iMonomer : nat) (d : Device) : Device :=
  if (nMonomers <=? iMonomer)%nat then d else
  let data := fetchVec (mPolymerSystemSorted_gpu d) (iOffset + iMonomer) in
  let x0 := vx data in
  let y0 := vy data in
  let z0 := vz data in
  let properties := default 0 (mPolymerFlags_gpu d !! (iOffset + iMonomer)%nat) in
  if Z.land properties 1 =? 0 then d else
  let direction := toUintCUDA (Z.land (Z.shiftr properties 2) 7) in
  let dx := fetch DXTable_d direction in
  let dy := fetch DYTable_d direction in
  let dz := fetch DZTable_d direction in
  if checkFront (dcBox c) (mLatticeTmp_gpu d) x0 y0 z0 direction then d else
  let d := setPolymerFlags d
             (<[(iOffset + iMonomer)%nat := toFlags (Z.lor properties 2)]> (mPolymerFlags_gpu d)) in
  let d := setLatticeOut d
             (store (mLatticeOut_gpu d)
                (linearizeBoxVectorIndex (dcBox c)
                   (u32 (x0 + dx)) (u32 (y0 + dy)) (u32 (z0 + dz))) 1) in
  setLatticeOut d
    (store (mLatticeOut_gpu d)
       (linearizeBoxVectorIndex (dcBox c) (u32 x0) (u32 y0) (u32 z0)) 0).

(** One thread of [kernelSimulationScBFMZeroArraySpecies]. *)
Definition kernelSimulationScBFMZeroArraySpecies (c : Constants)
    (iOffset nMonomers : nat) (iMonomer : nat) (d : Device) : Device :=
  if (nMonomers <=? iMonomer)%nat then d else
  let data := fetchVec (mPolymerSystemSorted_gpu d) (iOffset + iMonomer) in
  let x0 := vx data in
  let y0 := vy data in
  let z0 := vz data in
  let properties := default 0 (mPolymerFlags_gpu d !! (iOffset + iMonomer)%nat) in
  if Z.land properties 3 =? 0 then d else
  let direction := toUintCUDA (Z.land (Z.shiftr properties 2) 7) in
  let dx := fetch DXTable_d direction in
  let dy := fetch DYTable_d direction in
  let dz := fetch DZTable_d direction in
  let d := setLatticeTmp d
             (store (mLatticeTmp_gpu d)
                (linearizeBoxVectorIndex (dcBox c)
                   (u32 (x0 + dx)) (u32 (y0 + dy)) (u32 (z0 + dz))) 0) in
  let data :=
    if Z.land properties 3 =? 3
    then mkVec4 (toIntCUDA (x0 + dx)) (toIntCUDA (y0 + dy)) (toIntCUDA (z0 + dz)) (vw data)
    else data in
  setPolymerSystem d (<[(iOffset + iMonomer)%nat := data]> (mPolymerSystemSorted_gpu d)).

(** A kernel launch runs its threads in an order the source does not fix;
    [threads] is that order. *)
Definition launch (threads : list nat) (thread : nat -> Device -> Device)
    (d : Device) : Device :=
  foldl (fun d iMonomer => thread iMonomer d) d threads.

(** The three launches of one substep of [runSimulationOnGPU], on the
    species at [iOffset] with [nMonomers] members; the stream orders the
    launches, so each kernel completes before the next starts. *)
Definition substep (c : Constants)
    (iOffset nbOffset rNeighborsPitchElements nMonomers : nat) (rSeed : Z)
    (tCheck tPerform tZero : list nat) (d : Device) : Device :=
  let d := launch tCheck
             (kernelSimulationScBFMCheckSpecies c iOffset nbOffset
                rNeighborsPitchElements nMonomers rSeed) d in
  let d := launch tPerform (kernelSimulationScBFMPerformSpecies c iOffset nMonomers) d in
  launch tZero (kernelSimulationScBFMZeroArraySpecies c iOffset nMonomers) d.

End Kernels.

(** ** Host side: the updater object *)

(** Modelled from the spec: [MAX_CONNECTIVITY] is a constant of a header
    that is not among the sources; its value is 7. *)
Definition MAX_CONNECTIVITY : nat := 7.

(** [struct MonomerEdges]: the number of stored neighbours and their ids. *)
Record MonomerEdges := mkMonomerEdges {
  size : nat;
  neighborIds : list nat
}.

(** The box members [mBoxX .. mBoxXYLog2]. *)
Record BoxSize := mkBoxSize {
  mBoxX : Z;
  mBoxY : Z;
  mBoxZ : Z;
  mBoxXM1 : Z;
  mBoxYM1 : Z;
  mBoxZM1 : Z;
  mBoxXLog2 : Z;
  mBoxXYLog2 : Z
}.

(** The members filled by the grouping part of [initialize].  Entry [c] of
    [mNeighborsSortedInfo] is the offset and the pitch, in elements, of the
    neighbour matrix of species [c]; [iNewToi] holds [UINT32_MAX] in padding
    slots. *)
Record Layout := mkLayout {
  mGroupIds : list nat;
  mnElementsInGroup : list nat;
  iSubGroupOffset : list nat;
  iToiNew : list Z;
  iNewToi : list Z;
  mNeighborsSortedInfo : list (nat * nat)
}.

(** The host sides of the mirrored arrays; [None] is the [NULL] pointer of
    a mirror that is not allocated.  The device sides are in [Device]. *)
Record HostMirrors := mkHostMirrors {
  mLatticeOut : option (list Z);
  mLatticeTmp : option (list Z);
  mPolymerSystemSorted : option (list vec4);
  mPolymerFlags : option (list Z);
  mNeighborsSorted : option (list nat)
}.

(** [class UpdaterGPUScBFM_AB_Type].  [mLogCheck] is the state of the
    "Check" level of [mLog]; [randomNumbers] counts the draws taken from the
    random number source. *)
Record Engine := mkEngine {
  mBox : BoxSize;
  mLattice : option (list Z);
  nAllMonomers : nat;
  mAttributeSystem : option (list Z);
  mPolymerSystem : list Z;
  mNeighbors : list MonomerEdges;
  mForbiddenBonds : list bool;
  groups : Layout;
  host : HostMirrors;
  gpu : Device;
  constantMemory : Constants;
  mLogCheck : bool;
  randomNumbers : nat
}.

Definition set_mBox (e : Engine) (v : BoxSize) : Engine :=
  mkEngine v (mLattice e) (nAllMonomers e) (mAttributeSystem e) (mPolymerSystem e) (mNeighbors e) (mForbiddenBonds e) (groups e) (host e) (gpu e) (constantMemory e) (mLogCheck e) (randomNumbers e).
Definition set_mLattice (e : Engine) (v : option (list Z)) : Engine :=
  mkEngine (mBox e) v (nAllMonomers e) (mAttributeSystem e) (mPolymerSystem e) (mNeighbors e) (mForbiddenBonds e) (groups e) (host e) (gpu e) (constantMemory e) (mLogCheck e) (randomNumbers e).
Definition set_nAllMonomers (e : Engine) (v : nat) : Engine :=
  mkEngine (mBox e) (mLattice e) v (mAttributeSystem e) (mPolymerSystem e) (mNeighbors e) (mForbiddenBonds e) (groups e) (host e) (gpu e) (constantMemory e) (mLogCheck e) (randomNumbers e).
Definition set_mAttributeSystem (e : Engine) (v : option (list Z)) : Engine :=
  mkEngine (mBox e) (mLattice e) (nAllMonomers e) v (mPolymerSystem e) (mNeighbors e) (mForbiddenBonds e) (groups e) (host e) (gpu e) (constantMemory e) (mLogCheck e) (randomNumbers e).
Definition set_mPolymerSystem (e : Engine) (v : list Z) : Engine :=
  mkEngine (mBox e) (mLattice e) (nAllMonomers e) (mAttributeSystem e) v (mNeighbors e) (mForbiddenBonds e) (groups e) (host e) (gpu e) (constantMemory e) (mLogCheck e) (randomNumbers e).
Definition set_mNeighbors (e : Engine) (v : list MonomerEdges) : Engine :=
  mkEngine (mBox e) (mLattice e) (nAllMonomers e) (mAttributeSystem e) (mPolymerSystem e) v (mForbiddenBonds e) (groups e) (host e) (gpu e) (constantMemory e) (mLogCheck e) (randomNumbers e).
Definition set_mForbiddenBonds (e : Engine) (v : list bool) : Engine :=
  mkEngine (mBox e) (mLattice e) (nAllMonomers e) (mAttributeSystem e) (mPolymerSystem e) (mNeighbors e) v (groups e) (host e) (gpu e) (constantMemory e) (mLogCheck e) (randomNumbers e).
Definition set_groups (e : Engine) (v : Layout) : Engine :=
  mkEngine (mBox e) (mLattice e) (nAllMonomers e) (mAttributeSystem e) (mPolymerSystem e) (mNeighbors e) (mForbiddenBonds e) v (host e) (gpu e) (constantMemory e) (mLogCheck e) (randomNumbers e).
Definition set_host (e : Engine) (v : HostMirrors) : Engine :=
  mkEngine (mBox e) (mLattice e) (nAllMonomers e) (mAttributeSystem e) (mPolymerSystem e) (mNeighbors e) (mForbiddenBonds e) (groups e) v (gpu e) (constantMemory e) (mLogCheck e) (randomNumbers e).
Definition set_gpu (e : Engine) (v : Device) : Engine :=
  mkEngine (mBox e) (mLattice e) (nAllMonomers e) (mAttributeSystem e) (mPolymerSystem e) (mNeighbors e) (mForbiddenBonds e) (groups e) (host e) v (constantMemory e) (mLogCheck e) (randomNumbers e).
Definition set_constantMemory (e : Engine) (v : Constants) : Engine :=
  mkEngine (mBox e) (mLattice e) (nAllMonomers e) (mAttributeSystem e) (mPolymerSystem e) (mNeighbors e) (mForbiddenBonds e) (groups e) (host e) (gpu e) v (mLogCheck e) (randomNumbers e).
Definition set_mLogCheck (e : Engine) (v : bool) : Engine :=
  mkEngine (mBox e) (mLattice e) (nAllMonomers e) (mAttributeSystem e) (mPolymerSystem e) (mNeighbors e) (mForbiddenBonds e) (groups e) (host e) (gpu e) (constantMemory e) v (randomNumbers e).
Definition set_randomNumbers (e : Engine) (v : nat) : Engine :=
  mkEngine (mBox e) (mLattice e) (nAllMonomers e) (mAttributeSystem e) (mPolymerSystem e) (mNeighbors e) (mForbiddenBonds e) (groups e) (host e) (gpu e) (constantMemory e) (mLogCheck e) v.

(** The exceptions thrown by the member functions, one constructor per
    [throw] of the source. *)
Inductive Error :=
  | InitializeAlreadyCalled
  | WrongBondSet (nAllowedBonds : nat)
  | ColoringMismatch
  | TooManyNeighbors (iMonomer : nat)
  | MonomersAlreadySet
  | PeriodicityMismatch
  | CoordinateTooLarge
  | MaxConnectivityExceeded
  | BoxTooLarge
  | BoxNotPowerOfTwo
  | LatticeNotAllocated
  | WrongOccupation (nOccupied : nat)
  | InvalidBond (iMonomer : nat)
  | LatticeTmpOccupied (nOccupied : nat)
  | VectorOutOfRange.

(** The class of the exception object. *)
Inductive ExceptionClass := invalid_argument | runtime_error | out_of_range.

Definition exceptionClass (err : Error) : ExceptionClass :=
  match err with
  | InitializeAlreadyCalled => runtime_error
  | WrongBondSet _ => runtime_error
  | ColoringMismatch => runtime_error
  | TooManyNeighbors _ => invalid_argument
  | MonomersAlreadySet => runtime_error
  | PeriodicityMismatch => invalid_argument
  | CoordinateTooLarge => invalid_argument
  | MaxConnectivityExceeded => invalid_argument
  | BoxTooLarge => invalid_argument
  | BoxNotPowerOfTwo => runtime_error
  | LatticeNotAllocated => invalid_argument
  | WrongOccupation _ => runtime_error
  | InvalidBond _ => runtime_error
  | LatticeTmpOccupied _ => runtime_error
  | VectorOutOfRange => out_of_range
  end.

(** A member function leaves the object in some state and either returns
    or throws; the state at the [throw] is part of the result because the
    object outlives the exception. *)
Definition Outcome : Type := Engine * option Error.

Definition returns (e : Engine) : Outcome := (e, None).
Definition throws (e : Engine) (err : Error) : Outcome := (e, Some err).

(** Sequencing: an exception of the first call propagates, the second call
    is not made. *)
Definition andThen (r : Outcome) (f : Engine -> Outcome) : Outcome :=
  match r with
  | (e, None) => f e
  | (e, Some err) => (e, Some err)
  end.

(** The constructor.  It does not initialise the member array
    [mForbiddenBonds], whose indeterminate content is the argument. *)
Definition UpdaterGPUScBFM_AB_Type (forbiddenBonds0 : list bool) : Engine :=
  mkEngine (mkBoxSize 0 0 0 0 0 0 0 0) None 0 None [] [] forbiddenBonds0
           (mkLayout [] [] [] [] [] [])
           (mkHostMirrors None None None None None)
           (mkDevice [] [] [] [] [])
           (mkConstants [] (mkBox 0 0 0 0 0))
           false 0.

(** The box constants as the host member [linearizeBoxVectorIndex] uses
    them (its mask variant) and as [initialize] uploads them. *)
Definition hostBox (e : Engine) : Box :=
  mkBox (mBoxXM1 (mBox e)) (mBoxYM1 (mBox e)) (mBoxZM1 (mBox e))
        (mBoxXLog2 (mBox e)) (mBoxXYLog2 (mBox e)).

(** [while ( dummy >>= 1 ) ++log2;] on a [uint32_t]. *)
Fixpoint log2Loop (fuel : nat) (dummy acc : Z) : Z :=
  match fuel with
  | O => acc
  | S fuel =>
      let dummy := Z.shiftr dummy 1 in
      if dummy =? 0 then acc else log2Loop fuel dummy (acc + 1)
  end.

(** Modelled from the spec: [ceilDiv] is declared in a header that is not
    among the sources; the layout planner's offsets use the rounded-up
    quotient. *)
Definition ceilDiv (a b : nat) : nat := ((a + b - 1) / b)%nat.

(** [std::vector::resize( n, v )]. *)
Definition resize {A} (l : list A) (n : nat) (v : A) : list A :=
  take n l ++ replicate (n - length l) v.

(** The test [p != NULL] of a pointer member. *)
Definition isAllocated {A} (p : option A) : bool :=
  match p with Some _ => true | None => false end.

(** [UINT32_MAX], the filler of the index maps. *)
Definition UINT32_MAX : Z := 2 ^ 32 - 1.

Section Host.

Variable intCUDA : IntWidth.
Variable NONPERIODICITY : bool.

(** [graphColoring] of [graphColoring.tpp], which is not among the sources:
    the species of every monomer, from the adjacency and the
    uniform-colours flag. *)
Variable graphColoring : list MonomerEdges -> bool -> list nat.

(** [nElementsAlignment] of the header: the alignment of a species' region
    in elements. *)
Variable nElementsAlignment : nat.

(** The alignment of the neighbour matrices in [uint32_t] elements, from
    the header's [nBytesAlignment]. *)
Variable nNeighborsAlignment : nat.

(** [randomNumbers.r250_rand32()] of the random number source, which is
    not among the sources: the n-th number drawn. *)
Variable r250_rand32 : nat -> Z.

(** Modelled from the spec: [inRange< T >] is declared in a header that is
    not among the sources; a value is in range when [T] represents it, as
    the error messages of its callers print. *)
Definition inRange (v : Z) : bool :=
  (- 2 ^ (bits intCUDA - 1) <=? v) && (v <=? 2 ^ (bits intCUDA - 1) - 1).

(** [setLatticeSize( boxX, boxY, boxZ )]; the arguments are [uint32_t]. *)
Definition setLatticeSize (e : Engine) (boxX boxY boxZ : Z) : Outcome :=
  if (mBoxX (mBox e) =? boxX) && (mBoxY (mBox e) =? boxY) && (mBoxZ (mBox e) =? boxZ)
  then returns e else
  if negb (inRange boxX && inRange boxY && inRange boxZ)
  then throws e BoxTooLarge else
  let xLog2 := log2Loop 32 boxX 0 in
  let xyLog2 := log2Loop 32 (u32 (boxX * boxY)) 0 in
  let e := set_mBox e (mkBoxSize boxX boxY boxZ
                         (u32 (boxX - 1)) (u32 (boxY - 1)) (u32 (boxZ - 1))
                         xLog2 xyLog2) in
  if negb (boxX =? shl32 1 xLog2) || negb (u32 (boxX * boxY) =? shl32 1 xyLog2)
  then throws e BoxNotPowerOfTwo else
  returns (set_mLattice e
             (Some (replicate (Z.to_nat (u32 (u32 (boxX * boxY) * boxZ))) 0))).

(** [setNrOfAllMonomers( rnAllMonomers )]; the argument is a [uint32_t],
    and so is the product [nAllMonomers*4] that sizes [mPolymerSystem]. *)
Definition setNrOfAllMonomers (e : Engine) (rnAllMonomers : nat) : Outcome :=
  if negb (nAllMonomers e =? 0)%nat
     || isAllocated (mAttributeSystem e)
     || isAllocated (mPolymerSystemSorted (host e))
     || isAllocated (mNeighborsSorted (host e))
  then throws e MonomersAlreadySet else
  let e := set_nAllMonomers e rnAllMonomers in
  let e := set_mAttributeSystem e (Some (replicate rnAllMonomers 0)) in
  let e := set_mPolymerSystem e
             (resize (mPolymerSystem e) (Z.to_nat (u32 (Z.of_nat rnAllMonomers * 4))) 0) in
  returns (set_mNeighbors e
             (replicate rnAllMonomers (mkMonomerEdges 0 (replicate MAX_CONNECTIVITY 0%nat)))).

(** [setPeriodicity( isPeriodicX, isPeriodicY, isPeriodicZ )]. *)
Definition setPeriodicity (e : Engine) (isPeriodicX isPeriodicY isPeriodicZ : bool) : Outcome :=
  if (if NONPERIODICITY
      then isPeriodicX || isPeriodicY || isPeriodicZ
      else negb isPeriodicX || negb isPeriodicY || negb isPeriodicZ)
  then throws e PeriodicityMismatch
  else returns e.

(** [setAttribute( i, attribute )], as compiled with [NDEBUG]. *)
Definition setAttribute (e : Engine) (i : nat) (attribute : Z) : Outcome :=
  returns (set_mAttributeSystem e (fmap (fun l => <[i := attribute]> l) (mAttributeSystem e))).

(** [mPolymerSystem.at( i ) = v]. *)
Definition polymerSystemAtPut (e : Engine) (i : nat) (v : Z) : Outcome :=
  if (i <? length (mPolymerSystem e))%nat
  then returns (set_mPolymerSystem e (<[i := toIntCUDA intCUDA v]> (mPolymerSystem e)))
  else throws e VectorOutOfRange.

(** [setMonomerCoordinates( i, x, y, z )].  The source computes the
    indices [4*i+k] in [uint32_t]; here they are natural numbers, which is
    the same index as long as [4 * i + 2 < 2^32], as for every index inside
    an array that [setNrOfAllMonomers] can size. *)
Definition setMonomerCoordinates (e : Engine) (i : nat) (x y z : Z) : Outcome :=
  if negb (inRange x) || negb (inRange y) || negb (inRange z)
  then throws e CoordinateTooLarge else
  andThen (polymerSystemAtPut e (4 * i + 0) x) (fun e =>
  andThen (polymerSystemAtPut e (4 * i + 1) y) (fun e =>
  polymerSystemAtPut e (4 * i + 2) z)).

Definition getMonomerPositionInX (e : Engine) (i : nat) : Z :=
  default 0 (mPolymerSystem e !! (4 * i + 0)%nat).
Definition getMonomerPositionInY (e : Engine) (i : nat) : Z :=
  default 0 (mPolymerSystem e !! (4 * i + 1)%nat).
Definition getMonomerPositionInZ (e : Engine) (i : nat) : Z :=
  default 0 (mPolymerSystem e !! (4 * i + 2)%nat).

(** [setConnectivity( iMonomer1, iMonomer2 )]: the post-increment of
    [size] precedes the test. *)
Definition setConnectivity (e : Engine) (iMonomer1 iMonomer2 : nat) : Outcome :=
  let edges := default (mkMonomerEdges 0 []) (mNeighbors e !! iMonomer1) in
  let iNew := size edges in
  let edges := mkMonomerEdges (iNew + 1) (neighborIds edges) in
  let e := set_mNeighbors e (<[iMonomer1 := edges]> (mNeighbors e)) in
  if (MAX_CONNECTIVITY - 1 <? iNew)%nat
  then throws e MaxConnectivityExceeded else
  let edges := mkMonomerEdges (size edges) (<[iNew := iMonomer2]> (neighborIds edges)) in
  returns (set_mNeighbors e (<[iMonomer1 := edges]> (mNeighbors e))).

(** [copyBondSet( dx, dy, dz, bondForbidden )]. *)
Definition copyBondSet (e : Engine) (dx dy dz : Z) (bondForbidden : bool) : Outcome :=
  returns (set_mForbiddenBonds e
             (<[Z.to_nat (linearizeBondVectorIndex intCUDA dx dy dz) := bondForbidden]>
                (mForbiddenBonds e))).

(** The eight cells of the cube of a monomer at [(x, y, z)], in the order
    [checkSystem] marks them. *)
Definition cubeCells (b : Box) (x y z : Z) : list Z :=
  [ linearizeBoxVectorIndex b (u32 x) (u32 y) (u32 z);
    linearizeBoxVectorIndex b (u32 (x + 1)) (u32 y) (u32 z);
    linearizeBoxVectorIndex b (u32 x) (u32 (y + 1)) (u32 z);
    linearizeBoxVectorIndex b (u32 (x + 1)) (u32 (y + 1)) (u32 z);
    linearizeBoxVectorIndex b (u32 x) (u32 y) (u32 (z + 1));
    linearizeBoxVectorIndex b (u32 (x + 1)) (u32 y) (u32 (z + 1));
    linearizeBoxVectorIndex b (u32 x) (u32 (y + 1)) (u32 (z + 1));
    linearizeBoxVectorIndex b (u32 (x + 1)) (u32 (y + 1)) (u32 (z + 1)) ].

(** The number of cells [mBoxX * mBoxY * mBoxZ], a [uint32_t] product. *)
Definition nCells (e : Engine) : nat :=
  Z.to_nat (u32 (u32 (mBoxX (mBox e) * mBoxY (mBox e)) * mBoxZ (mBox e))).

(** [std::memset( p, 0, n )] on the first [n] bytes of a byte array. *)
Definition memsetZero (l : list Z) (n : nat) : list Z :=
  replicate (min n (length l)) 0 ++ drop n l.

(** The bond test of [checkSystem] for neighbour slot [iNeighbor] of
    monomer [i]: [true] when the source throws. *)
Definition bondIsInvalid (e : Engine) (i iNeighbor : nat) : bool :=
  let edges := default (mkMonomerEdges 0 []) (mNeighbors e !! i) in
  let j := default 0%nat (neighborIds edges !! iNeighbor) in
  let at_ k := default 0 (mPolymerSystem e !! k) in
  let dx := at_ (4 * j + 0)%nat - at_ (4 * i + 0)%nat in
  let dy := at_ (4 * j + 1)%nat - at_ (4 * i + 1)%nat in
  let dz := at_ (4 * j + 2)%nat - at_ (4 * i + 2)%nat in
  let erroneousAxis := -1 in
  let erroneousAxis := if negb ((-3 <=? dx) && (dx <=? 3)) then 0 else erroneousAxis in
  let erroneousAxis := if negb ((-3 <=? dy) && (dy <=? 3)) then 1 else erroneousAxis in
  let erroneousAxis := if negb ((-3 <=? dz) && (dz <=? 3)) then 2 else erroneousAxis in
  (0 <=? erroneousAxis)
  || default false (mForbiddenBonds e
                      !! Z.to_nat (linearizeBondVectorIndex intCUDA dx dy dz)).

(** [checkSystem()]: it returns at once unless the "Check" level is
    active, and otherwise overwrites [mLattice]. *)
Definition checkSystem (e : Engine) : Outcome :=
  if negb (mLogCheck e) then returns e else
  match mLattice e with
  | None => throws e LatticeNotAllocated
  | Some lattice =>
      let lattice := memsetZero lattice (nCells e) in
      let lattice :=
        foldl (fun lattice i =>
                 let at_ k := default 0 (mPolymerSystem e !! k) in
                 foldl (fun lattice cell => store lattice cell 1) lattice
                       (cubeCells (hostBox e)
                          (at_ (4 * i)%nat) (at_ (4 * i + 1)%nat) (at_ (4 * i + 2)%nat)))
              lattice (seq 0 (nAllMonomers e)) in
      let e := set_mLattice e (Some lattice) in
      let nOccupied :=
        length (filter (fun v => v <> 0) (take (nCells e) lattice)) in
      if negb (nOccupied =? nAllMonomers e * 8)%nat
      then throws e (WrongOccupation nOccupied) else
      match
        find (fun i =>
                existsb (bondIsInvalid e i)
                  (seq 0 (size (default (mkMonomerEdges 0 []) (mNeighbors e !! i)))))
             (seq 0 (nAllMonomers e))
      with
      | Some i => throws e (InvalidBond i)
      | None => returns e
      end
  end.

(** *** [initialize] *)

(** The loop that copies [mForbiddenBonds] into [tmpForbiddenBonds]. *)
Definition tmpForbiddenBonds (e : Engine) : list bool :=
  map (fun i => default false (mForbiddenBonds e !! i)) (seq 0 512).

(** The counter [nAllowedBonds] of that loop. *)
Definition nAllowedBonds (e : Engine) : nat :=
  length (filter (fun b => b = false) (tmpForbiddenBonds e)).

(** The loop that counts the monomers of every species. *)
Definition countElementsInGroup (groupIds : list nat) : list nat :=
  foldl (fun n g =>
           let n := if (length n <=? g)%nat then resize n (g + 1) 0%nat else n in
           <[g := S (default 0%nat (n !! g))]> n)
        [] groupIds.

(** The loop that fills [iSubGroupOffset] from index 1 on. *)
Definition subGroupOffsets (nElements : list nat) (offsets : list nat) : list nat :=
  foldl (fun offsets i =>
           <[i := (default 0 (offsets !! (i - 1))
                   + ceilDiv (default 0 (nElements !! (i - 1))) nElementsAlignment
                     * nElementsAlignment)%nat]> offsets)
        offsets (seq 1 (length nElements - 1)).

(** The loop that assigns the sorted index of every monomer; the state is
    [iSubGroup], [iToiNew] and [iNewToi]. *)
Definition assignSortedIndices (nAll : nat) (groupIds : list nat)
    (iSubGroup : list nat) (toNew fromNew : list Z)
    : list nat * list Z * list Z :=
  foldl (fun '(iSubGroup, toNew, fromNew) i =>
           let g := default 0%nat (groupIds !! i) in
           let iNew := default 0%nat (iSubGroup !! g) in
           (<[g := S iNew]> iSubGroup,
            <[i := Z.of_nat iNew]> toNew,
            <[iNew := Z.of_nat i]> fromNew))
        (iSubGroup, toNew, fromNew) (seq 0 nAll).

(** Modelled from the spec: [mNeighborsSortedInfo] is an object of a class
    declared in a header that is not among the sources.  Each call
    [newMatrix( MAX_CONNECTIVITY, n )] appends a matrix stored column-major
    with [MAX_CONNECTIVITY] slots of [pitch] elements, the pitch being [n]
    padded to the alignment; the result lists offset and pitch. *)
Definition newMatrices (nElements : list nat) : list (nat * nat) :=
  (foldl (fun '(info, offset) n =>
            let pitch := (ceilDiv n nNeighborsAlignment * nNeighborsAlignment)%nat in
            (info ++ [(offset, pitch)], (offset + MAX_CONNECTIVITY * pitch)%nat))
         ([], 0%nat) nElements).1.

(** [mNeighborsSortedInfo.getRequiredElements()] after those calls. *)
Definition getRequiredElements (nElements : list nat) : nat :=
  (foldl (fun offset n =>
            offset + MAX_CONNECTIVITY * (ceilDiv n nNeighborsAlignment * nNeighborsAlignment))
         0 nElements)%nat.

(** The loop that writes the neighbour ids in the sorted numbering into
    [mNeighborsSorted->host]; the state is [iSpecies] and the array. *)
Definition sortNeighbors (e : Engine) (l : Layout) (neighborsSorted : list nat) : list nat :=
  (foldl (fun '(iSpecies, neighborsSorted) i =>
            let iSpecies :=
              if (iSpecies + 1 <? length (iSubGroupOffset l))%nat
                 && (default 0 (iSubGroupOffset l !! (iSpecies + 1)) <=? i)%nat
              then (iSpecies + 1)%nat else iSpecies in
            let iOld := default 0 (iNewToi l !! i) in
            if Z.of_nat (nAllMonomers e) <=? iOld then (iSpecies, neighborsSorted) else
            let '(offset, pitch) := default (0, 0)%nat (mNeighborsSortedInfo l !! iSpecies) in
            let edges := default (mkMonomerEdges 0 []) (mNeighbors e !! Z.to_nat iOld) in
            (iSpecies,
             foldl (fun neighborsSorted j =>
                      <[(offset + j * pitch
                         + (i - default 0 (iSubGroupOffset l !! iSpecies)))%nat
                        := Z.to_nat (default 0
                                       (iToiNew l !! default 0%nat (neighborIds edges !! j)))]>
                        neighborsSorted)
                   neighborsSorted (seq 0 (size edges))))
         (0%nat, neighborsSorted) (seq 0 (length (iNewToi l)))).2.

(** The four entries of monomer [i] in [mPolymerSystem]. *)
Definition polymerSystemEntry (e : Engine) (i : nat) : vec4 :=
  let at_ k := default 0 (mPolymerSystem e !! k) in
  mkVec4 (at_ (4 * i + 0)%nat) (at_ (4 * i + 1)%nat) (at_ (4 * i + 2)%nat) (at_ (4 * i + 3)%nat).

(** The last part of [initialize], "creating lattice": the box constants
    are uploaded, both lattices are allocated, the scratch lattice is
    zeroed on the device and the committed lattice is populated from
    [mPolymerSystem] and pushed. *)
Definition initialize_lattice (e : Engine) : Outcome :=
  let e := set_constantMemory e
             (mkConstants (dpForbiddenBonds (constantMemory e)) (hostBox e)) in
  let latticeOut :=
    foldl (fun lattice t =>
             let p := polymerSystemEntry e t in
             store lattice
               (linearizeBoxVectorIndex (hostBox e) (u32 (vx p)) (u32 (vy p)) (u32 (vz p))) 1)
          (replicate (nCells e) 0) (seq 0 (nAllMonomers e)) in
  let latticeTmp := replicate (nCells e) 0 in
  let e := set_host e
             (mkHostMirrors (Some latticeOut) (Some latticeTmp)
                (mPolymerSystemSorted (host e)) (mPolymerFlags (host e))
                (mNeighborsSorted (host e))) in
  returns (set_gpu e (setLatticeTmp (setLatticeOut (gpu e) latticeOut) latticeTmp)).

(** The colouring and, under "Check", its comparison with the attributes
    read from the file; [mGroupIds.at( iMonomer )] throws beyond the end. *)
Definition initialize_coloring (e : Engine) : Outcome :=
  let groupIds := graphColoring (mNeighbors e) true in
  let e := set_groups e
             (mkLayout groupIds (mnElementsInGroup (groups e)) (iSubGroupOffset (groups e))
                (iToiNew (groups e)) (iNewToi (groups e)) (mNeighborsSortedInfo (groups e))) in
  let checked := seq 0 (max 20 (nAllMonomers e)) in
  if mLogCheck e && existsb (fun i => (length groupIds <=? i)%nat) checked
  then throws e VectorOutOfRange else
  if mLogCheck e
     && existsb (fun i =>
                   negb (Z.of_nat (default 0%nat (groupIds !! i)) + 1
                         =? default 0 (default [] (mAttributeSystem e) !! i)))
                checked
  then throws e ColoringMismatch else
  returns e.

(** The number of padded monomers, [nMonomersPadded]. *)
Definition nMonomersPadded (e : Engine) (nElements : list nat) : nat :=
  (nAllMonomers e + (nElementsAlignment - 1) * length nElements)%nat.

(** The count per species, the allocation of [mPolymerFlags] and
    [mPolymerSystemSorted], and the offsets; [iSubGroupOffset.at( 0 )]
    throws when there is no species. *)
Definition initialize_offsets (e : Engine) : Outcome :=
  let groupIds := mGroupIds (groups e) in
  let nElements := countElementsInGroup groupIds in
  let flags := replicate (nMonomersPadded e nElements) 0 in
  let sorted := replicate (nMonomersPadded e nElements) (mkVec4 0 0 0 0) in
  let offsets := resize (iSubGroupOffset (groups e)) (length nElements) 0%nat in
  let e := set_groups e
             (mkLayout groupIds nElements offsets
                (iToiNew (groups e)) (iNewToi (groups e)) (mNeighborsSortedInfo (groups e))) in
  let e := set_host e
             (mkHostMirrors (mLatticeOut (host e)) (mLatticeTmp (host e))
                (Some sorted) (Some flags) (mNeighborsSorted (host e))) in
  let e := set_gpu e (setPolymerFlags (setPolymerSystem (gpu e) sorted) flags) in
  if (length offsets =? 0)%nat then throws e VectorOutOfRange else
  returns (set_groups e
             (mkLayout groupIds nElements
                (subGroupOffsets nElements (<[0%nat := 0%nat]> offsets))
                (iToiNew (groups e)) (iNewToi (groups e)) (mNeighborsSortedInfo (groups e)))).

(** The index maps and the sorted neighbour matrices, pushed to the
    device. *)
Definition initialize_indices (e : Engine) : Engine :=
  let l := groups e in
  let '(_, toNew, fromNew) :=
    assignSortedIndices (nAllMonomers e) (mGroupIds l) (iSubGroupOffset l)
      (resize (iToiNew l) (nAllMonomers e) UINT32_MAX)
      (resize (iNewToi l) (nMonomersPadded e (mnElementsInGroup l)) UINT32_MAX) in
  let l := mkLayout (mGroupIds l) (mnElementsInGroup l) (iSubGroupOffset l) toNew fromNew
             (newMatrices (mnElementsInGroup l)) in
  let e := set_groups e l in
  let neighborsSorted :=
    sortNeighbors e l (replicate (getRequiredElements (mnElementsInGroup l)) 0%nat) in
  let e := set_host e
             (mkHostMirrors (mLatticeOut (host e)) (mLatticeTmp (host e))
                (mPolymerSystemSorted (host e)) (mPolymerFlags (host e))
                (Some neighborsSorted)) in
  set_gpu e
    (mkDevice (mPolymerSystemSorted_gpu (gpu e)) (mPolymerFlags_gpu (gpu e))
       (mLatticeOut_gpu (gpu e)) (mLatticeTmp_gpu (gpu e)) neighborsSorted).

(** Under "Check", the test that no monomer has more than
    [MAX_CONNECTIVITY] neighbours. *)
Definition initialize_neighborCheck (e : Engine) : Outcome :=
  match
    (if mLogCheck e
     then find (fun i =>
                  (MAX_CONNECTIVITY
                   <? size (default (mkMonomerEdges 0 []) (mNeighbors e !! i)))%nat)
               (seq 0 (nAllMonomers e))
     else None)
  with
  | Some i => throws e (TooManyNeighbors i)
  | None => returns e
  end.

(** The loop that ORs the number of neighbours into the property tags. *)
Definition tagNeighborCounts (e : Engine) : list Z :=
  foldl (fun system i =>
           let n := size (default (mkMonomerEdges 0 []) (mNeighbors e !! i)) in
           <[(4 * i + 3)%nat :=
               toIntCUDA intCUDA
                 (Z.lor (default 0 (system !! (4 * i + 3)%nat))
                    (Z.shiftl (toIntCUDA intCUDA (Z.of_nat n)) 5))]> system)
        (mPolymerSystem e) (seq 0 (nAllMonomers e)).

(** The loop that copies [mPolymerSystem] into the sorted host array. *)
Definition sortPolymerSystem (e : Engine) (sorted : list vec4) : list vec4 :=
  foldl (fun sorted i =>
           <[Z.to_nat (default 0 (iToiNew (groups e) !! i)) := polymerSystemEntry e i]>
             sorted)
        sorted (seq 0 (nAllMonomers e)).

(** The property tags and the sorted copy of [mPolymerSystem], pushed to
    the device. *)
Definition initialize_sort (e : Engine) : Engine :=
  let e := set_mPolymerSystem e (tagNeighborCounts e) in
  let sorted := sortPolymerSystem e (default [] (mPolymerSystemSorted (host e))) in
  let e := set_host e
             (mkHostMirrors (mLatticeOut (host e)) (mLatticeTmp (host e))
                (fmap (fun _ => sorted) (mPolymerSystemSorted (host e)))
                (mPolymerFlags (host e)) (mNeighborsSorted (host e))) in
  set_gpu e (setPolymerSystem (gpu e) sorted).

(** The middle part of [initialize], from the colouring to the call of
    [checkSystem]. *)
Definition initialize_grouping (e : Engine) : Outcome :=
  andThen (initialize_coloring e) (fun e =>
  andThen (initialize_offsets e) (fun e =>
  andThen (initialize_neighborCheck (initialize_indices e)) (fun e =>
  andThen (checkSystem (initialize_sort e)) initialize_lattice))).

(** The copy of [tmpForbiddenBonds] to [dpForbiddenBonds]. *)
Definition uploadBondTable (e : Engine) : Engine :=
  set_constantMemory e (mkConstants (tmpForbiddenBonds e) (dcBox (constantMemory e))).

(** [initialize()]: the test for a repeated call, the bond table with its
    count of allowed bonds, then the rest. *)
Definition initialize (e : Engine) : Outcome :=
  if isAllocated (mLatticeOut (host e)) || isAllocated (mLatticeTmp (host e))
  then throws e InitializeAlreadyCalled else
  if negb (nAllowedBonds e =? 108)%nat
  then throws e (WrongBondSet (nAllowedBonds e)) else
  initialize_grouping (uploadBondTable e).

(** *** [runSimulationOnGPU] *)

(** One pass of the inner loop: a species and a seed are drawn and the
    three kernels are launched with [nBlocks] blocks of 256 threads. *)
Definition runSubStep (e : Engine) : Engine :=
  let l := groups e in
  let iSpecies :=
    Z.to_nat (u32 (r250_rand32 (randomNumbers e))
              mod Z.of_nat (length (mnElementsInGroup l))) in
  let seed := u32 (r250_rand32 (S (randomNumbers e))) in
  let nMonomers := default 0%nat (mnElementsInGroup l !! iSpecies) in
  let nBlocks := ceilDiv nMonomers 256 in
  let threads := seq 0 (nBlocks * 256) in
  let '(offset, pitch) := default (0, 0)%nat (mNeighborsSortedInfo l !! iSpecies) in
  let iOffset := default 0%nat (iSubGroupOffset l !! iSpecies) in
  set_randomNumbers
    (set_gpu e
       (substep intCUDA NONPERIODICITY (constantMemory e)
          iOffset offset pitch nMonomers seed threads threads threads (gpu e)))
    (S (S (randomNumbers e))).

(** The loop that copies the sorted host array back into [mPolymerSystem]. *)
Definition untangle (e : Engine) (sorted : list vec4) : list Z :=
  foldl (fun system i =>
           let p := fetchVec sorted (Z.to_nat (default 0 (iToiNew (groups e) !! i))) in
           <[(4 * i + 3)%nat := vw p]>
             (<[(4 * i + 2)%nat := vz p]>
                (<[(4 * i + 1)%nat := vy p]>
                   (<[(4 * i + 0)%nat := vx p]> system))))
        (mPolymerSystem e) (seq 0 (nAllMonomers e)).

(** The block run under "Check" after the loop: [mLatticeTmp] is copied
    back from the device and must be empty. *)
Definition checkLatticeTmp (e : Engine) : Outcome :=
  if negb (mLogCheck e) then returns e else
  let e := set_host e
             (mkHostMirrors (mLatticeOut (host e))
                (fmap (fun _ => mLatticeTmp_gpu (gpu e)) (mLatticeTmp (host e)))
                (mPolymerSystemSorted (host e)) (mPolymerFlags (host e))
                (mNeighborsSorted (host e))) in
  let nOccupied :=
    length (filter (fun v => v <> 0)
              (take (nCells e) (default [] (mLatticeTmp (host e))))) in
  if negb (nOccupied =? 0)%nat
  then throws e (LatticeTmpOccupied nOccupied)
  else returns e.

(** [mPolymerSystemSorted->pop()] and the loop that untangles the sorted
    array into [mPolymerSystem]. *)
Definition copyBack (e : Engine) : Engine :=
  let sorted := mPolymerSystemSorted_gpu (gpu e) in
  let e := set_host e
             (mkHostMirrors (mLatticeOut (host e)) (mLatticeTmp (host e))
                (fmap (fun _ => sorted) (mPolymerSystemSorted (host e)))
                (mPolymerFlags (host e)) (mNeighborsSorted (host e))) in
  set_mPolymerSystem e (untangle e sorted).

(** [runSimulationOnGPU( nMonteCarloSteps )]: [nMonteCarloSteps] steps of
    as many substeps as there are species, then the copy back and
    [checkSystem]. *)
Definition runSimulationOnGPU (e : Engine) (nMonteCarloSteps : Z) : Outcome :=
  let e :=
    Nat.iter (Z.to_nat nMonteCarloSteps)
      (fun e => Nat.iter (length (mnElementsInGroup (groups e))) runSubStep e) e in
  andThen (checkLatticeTmp e) (fun e => checkSystem (copyBack e)).

End Host.

(** *** [destruct], [cleanup] and [populateLattice] *)

(** [destruct()]: every array that is allocated is deleted and its pointer
    set to [NULL]; the device side of a mirror is released with the
    mirror. *)
Definition destruct (e : Engine) : Engine :=
  let e := set_mLattice e None in
  let e := set_host e (mkHostMirrors None None None None None) in
  let e := set_gpu e (mkDevice [] [] [] [] []) in
  set_mAttributeSystem e None.

(** The exception of [cleanup], a [std::runtime_error]. *)
Inductive CleanupError := ConnectivitiesDiffer (iMonomer : nat).

(** The number of neighbours [cleanup] reads from the property tag of
    monomer [i]: [( mPolymerSystem[ 4*i+3 ] & 224 ) >> 5]. *)
Definition taggedNeighbors (e : Engine) (i : nat) : Z :=
  Z.shiftr (Z.land (default 0 (mPolymerSystem e !! (4 * i + 3)%nat)) 224) 5.

(** [cleanup()]: the test that the neighbour counts in the property tags
    still are those of [mNeighbors], then [destruct]. *)
Definition cleanup (e : Engine) : Engine * option CleanupError :=
  match
    find (fun i =>
            negb (taggedNeighbors e i
                  =? Z.of_nat (size (default (mkMonomerEdges 0 []) (mNeighbors e !! i)))))
         (seq 0 (nAllMonomers e))
  with
  | Some i => (e, Some (ConnectivitiesDiffer i))
  | None => (destruct e, None)
  end.

(** [populateLattice()]: [mLattice] is zeroed and the cell of every monomer
    is set.  On an [mLattice] that is not allocated the source is undefined;
    here nothing happens. *)
Definition populateLattice (e : Engine) : Engine :=
  set_mLattice e
    (fmap (fun lattice =>
             foldl (fun lattice i =>
                      let p := polymerSystemEntry e i in
                      store lattice
                        (linearizeBoxVectorIndex (hostBox e)
                           (u32 (vx p)) (u32 (vy p)) (u32 (vz p))) 1)
                   (memsetZero lattice (nCells e)) (seq 0 (nAllMonomers e)))
          (mLattice e)).

(** ** The vocabulary of the specification *)

(** The function the specification calls [wang32], "the canonical 32-bit
    Wang integer hash".  The specification names it without a formula; this
    is Thomas Wang's 32-bit mix function in its version with six magic
    numbers, each of its six steps written in arithmetic modulo [2^32]: a
    left shift by [k] is a multiplication by [2^k], a right shift a
    division.  [hash_wang32] compares it with the [hash] of the source. *)
Definition wang32 (a : Z) : Z :=
  let a := (a + 0x7ed55d16 + a * 2 ^ 12) mod 2 ^ 32 in
  let a := Z.lxor (Z.lxor a 0xc761c23c) (a / 2 ^ 19) in
  let a := (a + 0x165667b1 + a * 2 ^ 5) mod 2 ^ 32 in
  let a := Z.lxor ((a + 0xd3a2646c) mod 2 ^ 32) ((a * 2 ^ 9) mod 2 ^ 32) in
  let a := (a + 0xfd7046c5 + a * 2 ^ 3) mod 2 ^ 32 in
  Z.lxor (Z.lxor a 0xb55a4f09) (a / 2 ^ 16).

(** The three offsets swept along an axis that is not the axis of motion. *)
Definition offsets3 : list Z := [-1; 0; 1].

(** The face test as the specification words it: with axis [a = d >> 1] and
    sign [s = (d & 1) ? +1 : -1], the nine cells whose coordinate along [a]
    is [coord[a] + 2 s] while the two other coordinates sweep
    [-1, 0, +1] around the origin. *)
Definition frontPlaneCells (x y z d : Z) : list (Z * Z * Z) :=
  let a := Z.shiftr d 1 in
  let s := if Z.land d 1 =? 0 then -1 else 1 in
  flat_map (fun u => map (fun v =>
      if a =? 0 then (x + 2 * s, y + u, z + v)
      else if a =? 1 then (x + u, y + 2 * s, z + v)
      else (x + u, y + v, z + 2 * s)) offsets3) offsets3.

(** The lattice cell of a coordinate triple: its linear index, every
    coordinate masked with the box edge minus one. *)
Definition cellIndex (b : Box) (cell : Z * Z * Z) : Z :=
  linearizeBoxVectorIndex b (u32 cell.1.1) (u32 cell.1.2) (u32 cell.2).

(** The box constants of a lattice with edges [2^lx], [2^ly], [2^lz], as
    [setLatticeSize] derives them, for a lattice whose [2^(lx+ly+lz)] cells
    the 32-bit linear index can address. *)
Record BoxOK (b : Box) (lx ly lz : Z) : Prop := mkBoxOK {
  box_lx : 0 <= lx;
  box_ly : 0 <= ly;
  box_lz : 0 <= lz;
  box_fits : lx + ly + lz <= 32;
  box_xm1 : dcBoxXM1 b = 2 ^ lx - 1;
  box_ym1 : dcBoxYM1 b = 2 ^ ly - 1;
  box_zm1 : dcBoxZM1 b = 2 ^ lz - 1;
  box_xlog2 : dcBoxXLog2 b = lx;
  box_xylog2 : dcBoxXYLog2 b = lx + ly
}.

(** The position a monomer at [(x, y, z)] proposes under direction [d]. *)
Definition destinationCell (x y z d : Z) : Z * Z * Z :=
  (x + fetch DXTable_d d, y + fetch DYTable_d d, z + fetch DZTable_d d).

(** The scratch cell the check kernel marks and the zero kernel clears for
    a monomer stored as [p]. *)
Definition proposedCell (c : Constants) (p : vec4) (direction : Z) : Z :=
  cellIndex (dcBox c) (destinationCell (vx p) (vy p) (vz p) direction).

(** The three tests of the check kernel for thread [iMonomer], read off the
    device state [d]: the proposal survives the boundary, bond and
    excluded-volume tests. *)
Definition checkAccepts (w : IntWidth) (np : bool) (c : Constants) (d : Device)
    (iOffset nbOffset rNeighborsPitchElements : nat) (rSeed : Z) (iMonomer : nat) : bool :=
  let data := fetchVec (mPolymerSystemSorted_gpu d) (iOffset + iMonomer) in
  let direction := drawDirection w iMonomer rSeed in
  let dx := fetch DXTable_d direction in
  let dy := fetch DYTable_d direction in
  let dz := fetch DZTable_d direction in
  negb (np && negb (insideBox (dcBox c) (vx data + dx) (vy data + dy) (vz data + dz)))
  && negb (anyForbiddenBond w c d nbOffset rNeighborsPitchElements iMonomer
             (vx data) (vy data) (vz data) dx dy dz (Z.land (Z.shiftr (vw data) 5) 7))
  && negb (checkFront (dcBox c) (mLatticeOut_gpu d) (vx data) (vy data) (vz data) direction).

(** The flag byte the check kernel stores on acceptance. *)
Definition acceptedFlag (w : IntWidth) (iMonomer : nat) (rSeed : Z) : Z :=
  toFlags (Z.shiftl (drawDirection w iMonomer rSeed) 2 + 1).

(** The direction the perform and zero kernels decode from a flag byte. *)
Definition flagDirection (w : IntWidth) (properties : Z) : Z :=
  toUintCUDA w (Z.land (Z.shiftr properties 2) 7).

(** The stored position after [x0 += dx; y0 += dy; z0 += dz] in [intCUDA]
    arithmetic, and the same sum in the integers. *)
Definition moveBy (w : IntWidth) (p : vec4) (direction : Z) : vec4 :=
  mkVec4 (toIntCUDA w (vx p + fetch DXTable_d direction))
         (toIntCUDA w (vy p + fetch DYTable_d direction))
         (toIntCUDA w (vz p + fetch DZTable_d direction)) (vw p).

Definition plainMove (p : vec4) (direction : Z) : vec4 :=
  mkVec4 (vx p + fetch DXTable_d direction) (vy p + fetch DYTable_d direction)
         (vz p + fetch DZTable_d direction) (vw p).

(** [initialize] raises the wrong-bond-set error. *)
Definition raisesWrongBondSet (r : Outcome) : Prop :=
  exists n, r.2 = Some (WrongBondSet n).

(** The bond-table validation of [init] on the engine [e]: the
    wrong-bond-set error is raised exactly when the number of allowed
    entries is not 108, and with 108 entries [init] continues with [rest]
    on the engine whose table is uploaded. *)
Definition bondTableValidation (init rest : Engine -> Outcome) (e : Engine) : Prop :=
  (raisesWrongBondSet (init e) <-> nAllowedBonds e <> 108%nat)
  /\ (nAllowedBonds e = 108%nat -> init e = rest (uploadBondTable e)).

(** The state [initialize] leaves and every [runSimulationOnGPU] restores:
    the sorted device array holds at [iToiNew[i]] the entry of monomer [i]
    of [mPolymerSystem]. *)
Definition mirrorsInSync (e : Engine) : Prop :=
  forall i, (i < nAllMonomers e)%nat ->
    fetchVec (mPolymerSystemSorted_gpu (gpu e))
             (Z.to_nat (default 0 (iToiNew (groups e) !! i)))
    = polymerSystemEntry e i.

(** ** Further vocabulary: layouts, frames and counts *)

(** The number of occurrences of species [g] in a list of species. *)
Definition occurrences (g : nat) (groupIds : list nat) : nat :=
  length (filter (fun x => x = g) groupIds).

(** The invariant part of the device state: the array lengths, the
    neighbour table and the property tags. *)
Definition sameShape (d d' : Device) : Prop :=
  length (mPolymerSystemSorted_gpu d') = length (mPolymerSystemSorted_gpu d)
  /\ length (mPolymerFlags_gpu d') = length (mPolymerFlags_gpu d)
  /\ length (mLatticeOut_gpu d') = length (mLatticeOut_gpu d)
  /\ length (mLatticeTmp_gpu d') = length (mLatticeTmp_gpu d)
  /\ mNeighborsSorted_gpu d' = mNeighborsSorted_gpu d
  /\ forall j, vw (fetchVec (mPolymerSystemSorted_gpu d') j)
               = vw (fetchVec (mPolymerSystemSorted_gpu d) j).

(** What a thread leaves alone outside the species at [iOffset] with
    [nMonomers] monomers. *)
Definition sameOutside (iOffset nMonomers : nat) (d d' : Device) : Prop :=
  forall i, (i < iOffset \/ iOffset + nMonomers <= i)%nat ->
    mPolymerSystemSorted_gpu d' !! i = mPolymerSystemSorted_gpu d !! i
    /\ mPolymerFlags_gpu d' !! i = mPolymerFlags_gpu d !! i.

(** The members a run leaves alone. *)
Definition sameStaging (e e' : Engine) : Prop :=
  groups e' = groups e /\ nAllMonomers e' = nAllMonomers e
  /\ mNeighbors e' = mNeighbors e /\ mBox e' = mBox e
  /\ constantMemory e' = constantMemory e /\ mForbiddenBonds e' = mForbiddenBonds e
  /\ mAttributeSystem e' = mAttributeSystem e /\ mLogCheck e' = mLogCheck e.

(** Every species region lies inside the flag array of the device. *)
Definition regionsInFlags (e : Engine) : Prop :=
  forall s n, mnElementsInGroup (groups e) !! s = Some n ->
    (default 0 (iSubGroupOffset (groups e) !! s) + n
     <= length (mPolymerFlags_gpu (gpu e)))%nat.

(** What any number of substeps keeps. *)
Definition runKeeps (e e' : Engine) : Prop :=
  sameStaging e e' /\ sameShape (gpu e) (gpu e')
  /\ mPolymerSystem e' = mPolymerSystem e /\ host e' = host e /\ mLattice e' = mLattice e
  /\ (regionsInFlags e -> Forall (fun v => v = 0) (mLatticeTmp_gpu (gpu e)) ->
      Forall (fun v => v = 0) (mLatticeTmp_gpu (gpu e'))).



(** ** Example configurations *)

(** The standard bond set of the model: the 108 vectors of squared length
    4, 5, 6, 9 or 10. *)
Definition bfmBondAllowed (dx dy dz : Z) : bool :=
  let n := dx * dx + dy * dy + dz * dz in
  (n =? 4) || (n =? 5) || (n =? 6) || (n =? 9) || (n =? 10).

Definition bondRange : list Z := [-4; -3; -2; -1; 0; 1; 2; 3; 4].

(** The caller's loop over all bond vectors, one [copyBondSet] each. *)
Definition stageBondSet (w : IntWidth) (e : Engine) : Engine :=
  foldl (fun e dx =>
    foldl (fun e dy =>
      foldl (fun e dz => (copyBondSet w e dx dy dz (negb (bfmBondAllowed dx dy dz))).1)
            e bondRange) e bondRange) e bondRange.

(** A colouring for chains: the species alternate along the index. *)
Definition alternatingColoring (neighbors : list MonomerEdges) (uniform : bool) : list nat :=
  imap (fun i _ => (i mod 2)%nat) neighbors.

(** The isolated dimer of the end-to-end scenarios: an 8 x 8 x 8 box, two
    bonded monomers at (2,2,2) and (4,2,2), 16-bit positions. *)
Definition dimerStaged : Outcome :=
  let e := stageBondSet Int16 (UpdaterGPUScBFM_AB_Type (replicate 512 true)) in
  andThen (setLatticeSize Int16 e 8 8 8) (fun e =>
  andThen (setNrOfAllMonomers e 2) (fun e =>
  andThen (setMonomerCoordinates Int16 e 0 2 2 2) (fun e =>
  andThen (setMonomerCoordinates Int16 e 1 4 2 2) (fun e =>
  andThen (setConnectivity e 0 1) (fun e =>
  setConnectivity e 1 0))))).

Definition dimerInitialized : Outcome :=
  andThen dimerStaged (initialize Int16 alternatingColoring 32 32).

Definition dimerEngine : Engine := Eval vm_compute in dimerInitialized.1.

(** The dimer after a further [copyBondSet( 0, 0, 0, false )]: 109 allowed
    entries on an initialized engine. *)
Definition dimerRestaged : Engine :=
  Eval vm_compute in (copyBondSet Int16 dimerEngine 0 0 0 false).1.

(** One monomer at the origin of a 4 x 4 x 4 box, for the non-periodic
    boundary test. *)
Definition cornerConstants : Constants :=
  mkConstants (replicate 512 false) (mkBox 3 3 3 2 4).

Definition cornerDevice : Device :=
  mkDevice [mkVec4 0 0 0 0] [0] (<[0%nat := 1]> (replicate 64 0)) (replicate 64 0) [].

(** Nine monomers, the first bonded to seven of the others. *)
Definition crowdedEngine : Engine :=
  Eval vm_compute in
    foldl (fun e j => (setConnectivity e 0 j).1)
          (setNrOfAllMonomers (UpdaterGPUScBFM_AB_Type (replicate 512 true)) 9).1
          (seq 1 7).

Definition dimerDevice : Device := Eval vm_compute in gpu dimerEngine.

Definition dimerConstants : Constants := Eval vm_compute in constantMemory dimerEngine.

(** * Properties *)

Ltac eval_closed t :=
  let v := eval vm_compute in t in change t with v.

Ltac eval_direction d :=
  eval_closed (Z.shiftr d 1); eval_closed (Z.land d 1);
  eval_closed (fetch DXTable_d d); eval_closed (fetch DYTable_d d);
  eval_closed (fetch DZTable_d d).

Ltac case_split :=
  match goal with
  | |- context [match ?x with _ => _ end] => destruct x eqn:?
  end.


(** ** Machine arithmetic and the linear index *)

Lemma u32_range v : 0 <= u32 v < 2 ^ 32.
Proof. unfold u32. apply Z.mod_pos_bound. lia. Qed.

Lemma u32_small v : 0 <= v < 2 ^ 32 -> u32 v = v.
Proof. intros. unfold u32. apply Z.mod_small. lia. Qed.

Lemma pow2_pos l : 0 <= l -> 0 < 2 ^ l.
Proof. intros. apply Z.pow_pos_nonneg; lia. Qed.

Lemma pow2_le l m : 0 <= l <= m -> 2 ^ l <= 2 ^ m.
Proof. intros. apply Z.pow_le_mono_r; lia. Qed.

Lemma land_u32_mask v l : 0 <= l <= 32 -> Z.land (u32 v) (2 ^ l - 1) = v mod 2 ^ l.
Proof.
  intros Hl. replace (2 ^ l - 1) with (Z.ones l) by (rewrite Z.ones_equiv; lia).
  rewrite Z.land_ones by lia. unfold u32.
  replace 32 with (l + (32 - l)) by lia.
  rewrite Z.pow_add_r by lia.
  rewrite Z.rem_mul_r by (pose proof (pow2_pos l); pose proof (pow2_pos (32 - l)); lia).
  rewrite Z.mul_comm, Z.mod_add by (pose proof (pow2_pos l); lia).
  apply Z.mod_mod. pose proof (pow2_pos l); lia.
Qed.

Lemma shl32_small a s : 0 <= s -> 0 <= a -> a * 2 ^ s < 2 ^ 32 -> shl32 a s = a * 2 ^ s.
Proof.
  intros. unfold shl32. rewrite Z.shiftl_mul_pow2 by lia.
  apply u32_small. pose proof (pow2_pos s). nia.
Qed.

Lemma linearize_spec b lx ly lz x y z :
  BoxOK b lx ly lz ->
  cellIndex b (x, y, z)
  = x mod 2 ^ lx + (y mod 2 ^ ly) * 2 ^ lx + (z mod 2 ^ lz) * 2 ^ (lx + ly).
Proof.
  intros [Hx Hy Hz Hf Hxm Hym Hzm Hxl Hxyl].
  unfold cellIndex, linearizeBoxVectorIndex. simpl.
  rewrite Hxm, Hym, Hzm, Hxl, Hxyl.
  rewrite !land_u32_mask by lia.
  pose proof (pow2_pos lx Hx) as Px. pose proof (pow2_pos ly Hy) as Py.
  pose proof (pow2_pos lz Hz) as Pz.
  pose proof (Z.mod_pos_bound x (2 ^ lx) Px) as Bx.
  pose proof (Z.mod_pos_bound y (2 ^ ly) Py) as By.
  pose proof (Z.mod_pos_bound z (2 ^ lz) Pz) as Bz.
  assert (Hxy : 2 ^ (lx + ly) = 2 ^ lx * 2 ^ ly) by (apply Z.pow_add_r; lia).
  assert (Hxyz : 2 ^ lx * 2 ^ ly * 2 ^ lz <= 2 ^ 32).
  { rewrite <- !Z.pow_add_r by lia. apply pow2_le. lia. }
  rewrite (shl32_small (y mod 2 ^ ly) lx) by nia.
  rewrite (shl32_small (z mod 2 ^ lz) (lx + ly)) by nia.
  set (a := x mod 2 ^ lx) in *. set (c := y mod 2 ^ ly) in *.
  set (e := z mod 2 ^ lz) in *.
  set (X := 2 ^ lx) in *. set (Y := 2 ^ ly) in *. set (Z_ := 2 ^ lz) in *.
  assert (B1 : 0 <= a + c * X <= X * Y - 1) by nia.
  assert (B2 : 0 <= e * (X * Y) <= (Z_ - 1) * (X * Y)) by nia.
  rewrite Hxy. rewrite (u32_small (a + c * X)) by nia.
  apply u32_small. nia.
Qed.

Lemma linearize_lt b lx ly lz x y z :
  BoxOK b lx ly lz -> 0 <= cellIndex b (x, y, z) < 2 ^ (lx + ly + lz).
Proof.
  intros H. rewrite (linearize_spec b lx ly lz) by done.
  destruct H as [Hx Hy Hz Hf _ _ _ _ _].
  pose proof (pow2_pos lx Hx) as Px. pose proof (pow2_pos ly Hy) as Py.
  pose proof (pow2_pos lz Hz) as Pz.
  pose proof (Z.mod_pos_bound x (2 ^ lx) Px) as Bx.
  pose proof (Z.mod_pos_bound y (2 ^ ly) Py) as By.
  pose proof (Z.mod_pos_bound z (2 ^ lz) Pz) as Bz.
  rewrite !Z.pow_add_r by lia.
  set (a := x mod 2 ^ lx) in *. set (c := y mod 2 ^ ly) in *.
  set (e := z mod 2 ^ lz) in *.
  set (X := 2 ^ lx) in *. set (Y := 2 ^ ly) in *. set (Z_ := 2 ^ lz) in *.
  assert (B1 : 0 <= a + c * X <= X * Y - 1) by nia.
  assert (B2 : 0 <= e * (X * Y) <= (Z_ - 1) * (X * Y)) by nia.
  nia.
Qed.

Lemma linearize_inj b lx ly lz x y z x' y' z' :
  BoxOK b lx ly lz ->
  cellIndex b (x, y, z) = cellIndex b (x', y', z') ->
  x mod 2 ^ lx = x' mod 2 ^ lx /\ y mod 2 ^ ly = y' mod 2 ^ ly
  /\ z mod 2 ^ lz = z' mod 2 ^ lz.
Proof.
  intros H. rewrite !(linearize_spec b lx ly lz) by done.
  destruct H as [Hx Hy Hz Hf _ _ _ _ _].
  pose proof (pow2_pos lx Hx) as Px. pose proof (pow2_pos ly Hy) as Py.
  pose proof (pow2_pos lz Hz) as Pz.
  pose proof (Z.mod_pos_bound x (2 ^ lx) Px) as Bx.
  pose proof (Z.mod_pos_bound y (2 ^ ly) Py) as By.
  pose proof (Z.mod_pos_bound z (2 ^ lz) Pz) as Bz.
  pose proof (Z.mod_pos_bound x' (2 ^ lx) Px) as Bx'.
  pose proof (Z.mod_pos_bound y' (2 ^ ly) Py) as By'.
  pose proof (Z.mod_pos_bound z' (2 ^ lz) Pz) as Bz'.
  rewrite !Z.pow_add_r by lia.
  generalize dependent (x mod 2 ^ lx). generalize dependent (x' mod 2 ^ lx).
  generalize dependent (y mod 2 ^ ly). generalize dependent (y' mod 2 ^ ly).
  generalize dependent (z mod 2 ^ lz). generalize dependent (z' mod 2 ^ lz).
  generalize dependent (2 ^ lx). generalize dependent (2 ^ ly). generalize dependent (2 ^ lz).
  intros Z_ _ Y _ X _ c' Hc' c Hc b' Hb' b0 Hb a' Ha' a Ha E.
  assert (E1 : X * (b0 + c * Y) + a = X * (b' + c' * Y) + a') by lia.
  apply Z.div_mod_unique in E1; [| lia | lia]. destruct E1 as [E1 ->].
  assert (E2 : Y * c + b0 = Y * c' + b') by lia.
  apply Z.div_mod_unique in E2; [| lia | lia]. destruct E2 as [-> ->]. done.
Qed.

Lemma mod_shift_ne x x' l :
  0 <= l -> 0 < Z.abs (x - x') < 2 ^ l -> x mod 2 ^ l <> x' mod 2 ^ l.
Proof.
  intros Hl Hk E. pose proof (pow2_pos l Hl) as P.
  pose proof (Z.div_mod x (2 ^ l) ltac:(lia)) as D1.
  pose proof (Z.div_mod x' (2 ^ l) ltac:(lia)) as D2.
  assert (Hq : x - x' = 2 ^ l * (x / 2 ^ l - x' / 2 ^ l)) by lia.
  set (q := x / 2 ^ l - x' / 2 ^ l) in *. set (P2 := 2 ^ l) in *.
  assert (Hc : q = 0 \/ 1 <= q \/ q <= -1) by lia.
  destruct Hc as [Hc | [Hc | Hc]]; nia.
Qed.

Lemma toBool_lor a b : toBool (Z.lor a b) = toBool a || toBool b.
Proof.
  unfold toBool. destruct (Z.eqb_spec (Z.lor a b) 0) as [E | E].
  - apply Z.lor_eq_0_iff in E as [-> ->]. done.
  - destruct (Z.eqb_spec a 0) as [-> | Ha]; [| done].
    destruct (Z.eqb_spec b 0) as [-> | Hb]; [| done].
    by rewrite Z.lor_0_l in E.
Qed.

Lemma toBool_true v : toBool v = true <-> v <> 0.
Proof. unfold toBool. destruct (Z.eqb_spec v 0); naive_solver. Qed.

Lemma exists_elem_of_9 {A} (P : A -> Prop) c1 c2 c3 c4 c5 c6 c7 c8 c9 :
  (exists c, c ∈ [c1; c2; c3; c4; c5; c6; c7; c8; c9] /\ P c)
  <-> P c1 \/ P c2 \/ P c3 \/ P c4 \/ P c5 \/ P c6 \/ P c7 \/ P c8 \/ P c9.
Proof.
  split.
  - intros (c & Hin & HP).
    repeat (apply elem_of_cons in Hin as [-> | Hin]; [tauto |]).
    by apply elem_of_nil in Hin.
  - intros H. decompose [or] H; eexists; (split; [| eassumption]); rewrite !elem_of_cons; tauto.
Qed.

Lemma direction_cases d : 0 <= d <= 5 -> d = 0 \/ d = 1 \/ d = 2 \/ d = 3 \/ d = 4 \/ d = 5.
Proof. lia. Qed.


(** ** The face test *)

Lemma checkFront_spec b texLattice x y z d :
  0 <= d <= 5 ->
  checkFront b texLattice x y z d = true
  <-> exists cell, cell ∈ frontPlaneCells x y z d
                   /\ tex1Dfetch texLattice (cellIndex b cell) <> 0.
Proof.
  intros Hd. apply direction_cases in Hd.
  decompose [or] Hd; subst d;
    unfold frontPlaneCells, offsets3, checkFront;
    match goal with |- context [Z.shiftr ?d 1] => eval_direction d end;
    cbn [flat_map map app Z.eqb Pos.eqb];
    rewrite exists_elem_of_9;
    unfold cellIndex, linearizeBoxVectorIndex; cbn [fst snd];
    cbv iota beta zeta;
    rewrite !toBool_lor, !orb_true_iff, !toBool_true;
    rewrite ?Z.add_0_r;
    change (2 * 1) with 2; change (2 * -1) with (-2); tauto.
Qed.

Lemma cellIndex_nonneg b cell : 0 <= cellIndex b cell.
Proof. unfold cellIndex, linearizeBoxVectorIndex. apply u32_range. Qed.

Lemma cellIndex_ne b lx ly lz c c' :
  BoxOK b lx ly lz -> 2 <= lx -> 2 <= ly -> 2 <= lz ->
  0 < Z.abs (c.1.1 - c'.1.1) < 4 \/ 0 < Z.abs (c.1.2 - c'.1.2) < 4
  \/ 0 < Z.abs (c.2 - c'.2) < 4 ->
  cellIndex b c <> cellIndex b c'.
Proof.
  intros Hb Hx Hy Hz Hd E. destruct c as [[x y] z], c' as [[x' y'] z'].
  apply (linearize_inj b lx ly lz) in E as (Ex & Ey & Ez); [| done].
  simpl in Hd.
  assert (P : forall l, 2 <= l -> 4 <= 2 ^ l).
  { intros l Hl. change 4 with (2 ^ 2). apply pow2_le. lia. }
  pose proof (P lx Hx). pose proof (P ly Hy). pose proof (P lz Hz).
  destruct Hd as [Hd | [Hd | Hd]].
  - revert Ex. apply mod_shift_ne; lia.
  - revert Ey. apply mod_shift_ne; lia.
  - revert Ez. apply mod_shift_ne; lia.
Qed.



Lemma fetch_store_ne l i j v :
  0 <= i -> 0 <= j -> i <> j -> fetch (store l i v) j = fetch l j.
Proof.
  intros Hi Hj Hne. unfold fetch, store.
  rewrite list_lookup_insert_ne; [done | lia].
Qed.

Lemma front_misses_dest b lx ly lz x y z d cell :
  BoxOK b lx ly lz -> 2 <= lx -> 2 <= ly -> 2 <= lz -> 0 <= d <= 5 ->
  cell ∈ frontPlaneCells x y z d ->
  cellIndex b cell <> cellIndex b (destinationCell x y z d).
Proof.
  intros Hb Hx Hy Hz Hd Hin. apply direction_cases in Hd.
  decompose [or] Hd; subst d;
    revert Hin; unfold frontPlaneCells, offsets3, destinationCell;
    match goal with |- context [Z.shiftr ?d 1] => eval_direction d end;
    cbn [flat_map map app Z.eqb Pos.eqb];
    rewrite !elem_of_cons, elem_of_nil; intros Hin;
    decompose [or] Hin; try done; subst cell;
    apply (cellIndex_ne b lx ly lz); try done; cbn [fst snd]; lia.
Qed.

Lemma front_misses_cube b lx ly lz x y z d cell :
  BoxOK b lx ly lz -> 2 <= lx -> 2 <= ly -> 2 <= lz -> 0 <= d <= 5 ->
  cell ∈ frontPlaneCells x y z d ->
  cellIndex b cell ∉ cubeCells b x y z.
Proof.
  intros Hb Hx Hy Hz Hd Hin. apply direction_cases in Hd.
  unfold cubeCells.
  repeat match goal with
  | |- context [linearizeBoxVectorIndex b (u32 ?a) (u32 ?b') (u32 ?c)] =>
      change (linearizeBoxVectorIndex b (u32 a) (u32 b') (u32 c))
        with (cellIndex b (a, b', c))
  end.
  rewrite !elem_of_cons, elem_of_nil.
  decompose [or] Hd; subst d;
    revert Hin; unfold frontPlaneCells, offsets3;
    match goal with |- context [Z.shiftr ?d 1] => eval_closed (Z.shiftr d 1); eval_closed (Z.land d 1) end;
    cbn [flat_map map app Z.eqb Pos.eqb];
    rewrite !elem_of_cons, elem_of_nil; intros Hin;
    decompose [or] Hin; try done; subst cell;
    intros HE; decompose [or] HE; try done;
    match goal with E : cellIndex _ _ = cellIndex _ _ |- _ =>
      revert E; apply (cellIndex_ne b lx ly lz); try done; cbn [fst snd]; lia end.
Qed.

(** C10.  In a box whose edges are powers of two and at least 4, for every
    origin and direction, none of the nine cells the face test inspects is
    the mover's own destination cell or one of the eight cells of its
    current cube; hence the mark a monomer writes to the scratch lattice in
    the check phase does not change the outcome of its own face test in the
    perform phase. *)
Theorem own_mark_not_in_front b lx ly lz x y z d :
  BoxOK b lx ly lz -> 2 <= lx -> 2 <= ly -> 2 <= lz -> 0 <= d <= 5 ->
  (forall cell, cell ∈ frontPlaneCells x y z d ->
     cellIndex b cell <> cellIndex b (destinationCell x y z d)
     /\ cellIndex b cell ∉ cubeCells b x y z)
  /\ (forall latticeTmp,
        checkFront b (store latticeTmp (cellIndex b (destinationCell x y z d)) 1) x y z d
        = checkFront b latticeTmp x y z d).
Proof.
  intros Hb Hx Hy Hz Hd. split.
  - intros cell Hin. split.
    + by apply (front_misses_dest b lx ly lz).
    + by apply (front_misses_cube b lx ly lz x y z d).
  - intros latticeTmp. apply eq_iff_eq_true.
    rewrite !checkFront_spec by done.
    split; intros (cell & Hin & Hne); exists cell; (split; [done |]);
      revert Hne; unfold tex1Dfetch;
      rewrite fetch_store_ne; auto using cellIndex_nonneg;
      apply not_eq_sym; by apply (front_misses_dest b lx ly lz).
Qed.


(** ** The kernels of a substep *)

Section KernelFacts.

Variable w : IntWidth.
Variable np : bool.
Variable c : Constants.
Variables iOffset nbOffset pitch nMonomers : nat.
Variable rSeed : Z.

Local Abbreviation checkThread :=
  (kernelSimulationScBFMCheckSpecies w np c iOffset nbOffset pitch nMonomers rSeed)
  (only parsing).
Local Abbreviation performThread :=
  (kernelSimulationScBFMPerformSpecies w c iOffset nMonomers) (only parsing).
Local Abbreviation zeroThread :=
  (kernelSimulationScBFMZeroArraySpecies w c iOffset nMonomers) (only parsing).
Local Abbreviation accepts d :=
  (checkAccepts w np c d iOffset nbOffset pitch rSeed) (only parsing).

Lemma check_thread_eq m d :
  checkThread m d =
  if (nMonomers <=? m)%nat then d
  else if accepts d m
       then setLatticeTmp
              (setPolymerFlags d (<[(m + iOffset)%nat := acceptedFlag w m rSeed]>
                                    (mPolymerFlags_gpu d)))
              (store (mLatticeTmp_gpu d)
                 (proposedCell c (fetchVec (mPolymerSystemSorted_gpu d) (iOffset + m))
                    (drawDirection w m rSeed)) 1)
       else setPolymerFlags d (<[(m + iOffset)%nat := 0]> (mPolymerFlags_gpu d)).
Proof.
  unfold kernelSimulationScBFMCheckSpecies, checkAccepts.
  destruct (nMonomers <=? m)%nat; [done |].
  cbn [mPolymerSystemSorted_gpu setPolymerFlags mLatticeOut_gpu mLatticeTmp_gpu
       mPolymerFlags_gpu].
  destruct (np && negb (insideBox _ _ _ _)); [done |].
  change (anyForbiddenBond w c (setPolymerFlags d ?l)) with (anyForbiddenBond w c d).
  destruct (anyForbiddenBond _ _ _ _ _ _ _ _ _ _ _ _ _); [done |].
  destruct (checkFront _ _ _ _ _ _); [done |].
  cbn [negb andb]. unfold setLatticeTmp, setPolymerFlags, acceptedFlag, proposedCell.
  cbn [mPolymerSystemSorted_gpu mLatticeOut_gpu mLatticeTmp_gpu mPolymerFlags_gpu
       mNeighborsSorted_gpu].
  by rewrite list_insert_insert_eq.
Qed.


Lemma launch_cons t ts (f : nat -> Device -> Device) d :
  launch (t :: ts) f d = launch ts f (f t d).
Proof. done. Qed.

Lemma launch_nil (f : nat -> Device -> Device) d : launch [] f d = d.
Proof. done. Qed.

Lemma accepts_frame d d' m :
  mPolymerSystemSorted_gpu d' = mPolymerSystemSorted_gpu d ->
  mLatticeOut_gpu d' = mLatticeOut_gpu d ->
  mNeighborsSorted_gpu d' = mNeighborsSorted_gpu d ->
  accepts d' m = accepts d m.
Proof.
  intros Hs Hl Hn. unfold checkAccepts, anyForbiddenBond. by rewrite Hs, Hl, Hn.
Qed.

(** *** The check kernel *)

Lemma check_thread_frame m d :
  mPolymerSystemSorted_gpu (checkThread m d) = mPolymerSystemSorted_gpu d
  /\ mLatticeOut_gpu (checkThread m d) = mLatticeOut_gpu d
  /\ mNeighborsSorted_gpu (checkThread m d) = mNeighborsSorted_gpu d
  /\ length (mPolymerFlags_gpu (checkThread m d)) = length (mPolymerFlags_gpu d).
Proof.
  rewrite check_thread_eq.
  destruct (nMonomers <=? m)%nat; [done |].
  destruct (accepts d m); cbn; by rewrite length_insert.
Qed.

Lemma check_thread_flags_other m d i :
  (m + iOffset)%nat <> i ->
  mPolymerFlags_gpu (checkThread m d) !! i = mPolymerFlags_gpu d !! i.
Proof.
  intros Hne. rewrite check_thread_eq.
  destruct (nMonomers <=? m)%nat; [done |].
  destruct (accepts d m); cbn; by rewrite list_lookup_insert_ne.
Qed.

Lemma check_thread_flags m d :
  (m < nMonomers)%nat -> (iOffset + m < length (mPolymerFlags_gpu d))%nat ->
  mPolymerFlags_gpu (checkThread m d) !! (iOffset + m)%nat
  = Some (if accepts d m then acceptedFlag w m rSeed else 0).
Proof.
  intros Hm Hlen. rewrite check_thread_eq.
  destruct (Nat.leb_spec nMonomers m); [lia |].
  replace (m + iOffset)%nat with (iOffset + m)%nat by lia.
  destruct (accepts d m); cbn; by rewrite list_lookup_insert_eq.
Qed.

Lemma check_thread_tmp m d :
  mLatticeTmp_gpu (checkThread m d) = mLatticeTmp_gpu d
  \/ ((m < nMonomers)%nat /\ accepts d m = true
      /\ mLatticeTmp_gpu (checkThread m d)
         = store (mLatticeTmp_gpu d)
             (proposedCell c (fetchVec (mPolymerSystemSorted_gpu d) (iOffset + m))
                (drawDirection w m rSeed)) 1).
Proof.
  rewrite check_thread_eq.
  destruct (Nat.leb_spec nMonomers m); [by left |].
  destruct (accepts d m); cbn; [right | left]; done.
Qed.

Lemma check_launch_frame ts d :
  mPolymerSystemSorted_gpu (launch ts checkThread d) = mPolymerSystemSorted_gpu d
  /\ mLatticeOut_gpu (launch ts checkThread d) = mLatticeOut_gpu d
  /\ mNeighborsSorted_gpu (launch ts checkThread d) = mNeighborsSorted_gpu d
  /\ length (mPolymerFlags_gpu (launch ts checkThread d)) = length (mPolymerFlags_gpu d).
Proof.
  revert d. induction ts as [| t ts IH]; intros d; [done |].
  rewrite launch_cons.
  destruct (IH (checkThread t d)) as (-> & -> & -> & ->).
  apply check_thread_frame.
Qed.

Lemma check_launch_flags_other ts d i :
  (forall t, t ∈ ts -> (t + iOffset)%nat <> i) ->
  mPolymerFlags_gpu (launch ts checkThread d) !! i = mPolymerFlags_gpu d !! i.
Proof.
  revert d. induction ts as [| t ts IH]; intros d Hts; [done |].
  rewrite launch_cons, IH by (intros; apply Hts; by right).
  apply check_thread_flags_other, Hts. by left.
Qed.

Lemma check_launch_flags ts d m :
  m ∈ ts -> (m < nMonomers)%nat -> (iOffset + m < length (mPolymerFlags_gpu d))%nat ->
  mPolymerFlags_gpu (launch ts checkThread d) !! (iOffset + m)%nat
  = Some (if accepts d m then acceptedFlag w m rSeed else 0).
Proof.
  revert d. induction ts as [| t ts IH]; intros d Hin Hm Hlen.
  { by apply elem_of_nil in Hin. }
  rewrite launch_cons.
  destruct (check_thread_frame t d) as (Hs & Hl & Hn & Hf).
  destruct (decide (m ∈ ts)) as [Hin' | Hnin].
  - rewrite IH by (try done; lia). by rewrite (accepts_frame d).
  - apply elem_of_cons in Hin as [<- | Hin]; [| done].
    rewrite check_launch_flags_other.
    + by apply check_thread_flags.
    + intros t Ht E. assert (t = m) by lia. by subst.
Qed.

Lemma check_launch_tmp ts d i v :
  mLatticeTmp_gpu (launch ts checkThread d) !! i = Some v ->
  mLatticeTmp_gpu d !! i = Some v
  \/ (v = 1 /\ exists m, m ∈ ts /\ (m < nMonomers)%nat /\ accepts d m = true
               /\ Z.to_nat (proposedCell c
                              (fetchVec (mPolymerSystemSorted_gpu d) (iOffset + m))
                              (drawDirection w m rSeed)) = i).
Proof.
  revert d. induction ts as [| t ts IH]; intros d Hv; [by left |].
  rewrite launch_cons in Hv.
  destruct (check_thread_frame t d) as (Hs & Hl & Hn & Hf).
  apply IH in Hv as [Hv | (-> & m & Hin & Hm & Hacc & Hcell)].
  - destruct (check_thread_tmp t d) as [E | (Ht & Hacc & E)]; rewrite E in Hv.
    + by left.
    + unfold store in Hv. apply list_lookup_insert_Some in Hv as [(<- & <- & _) | (_ & Hv)].
      * right. split; [done |]. exists t. split; [by left | done].
      * by left.
  - right. split; [done |]. exists m. split; [by right |].
    rewrite (accepts_frame d) in Hacc by done. by rewrite Hs in Hcell.
Qed.

(** *** The perform kernel *)

Lemma perform_thread_frame m d :
  mPolymerSystemSorted_gpu (performThread m d) = mPolymerSystemSorted_gpu d
  /\ mLatticeTmp_gpu (performThread m d) = mLatticeTmp_gpu d
  /\ mNeighborsSorted_gpu (performThread m d) = mNeighborsSorted_gpu d.
Proof.
  unfold kernelSimulationScBFMPerformSpecies.
  destruct (nMonomers <=? m)%nat; [done |].
  destruct (Z.land _ 1 =? 0); [done |].
  by destruct (checkFront _ _ _ _ _ _).
Qed.

Lemma perform_thread_flags m d i :
  mPolymerFlags_gpu (performThread m d) !! i = mPolymerFlags_gpu d !! i
  \/ (i = (iOffset + m)%nat
      /\ exists p, mPolymerFlags_gpu d !! i = Some p /\ Z.land p 1 <> 0
                   /\ mPolymerFlags_gpu (performThread m d) !! i = Some (toFlags (Z.lor p 2))).
Proof.
  unfold kernelSimulationScBFMPerformSpecies.
  destruct (nMonomers <=? m)%nat; [by left |].
  destruct (Z.eqb_spec (Z.land (default 0 (mPolymerFlags_gpu d !! (iOffset + m)%nat)) 1) 0)
    as [| Hbit]; [by left |].
  destruct (checkFront _ _ _ _ _ _); [by left |].
  cbn. destruct (decide (i = (iOffset + m)%nat)) as [-> | Hne].
  - destruct (mPolymerFlags_gpu d !! (iOffset + m)%nat) as [p |] eqn:Hp.
    + right. split; [done |]. exists p. split; [done |]. split; [done |].
      apply list_lookup_insert_eq. by apply lookup_lt_Some in Hp.
    + left. rewrite list_insert_ge; [done |]. by apply lookup_ge_None.
  - left. by rewrite list_lookup_insert_ne.
Qed.

Lemma perform_launch_frame ts d :
  mPolymerSystemSorted_gpu (launch ts performThread d) = mPolymerSystemSorted_gpu d
  /\ mLatticeTmp_gpu (launch ts performThread d) = mLatticeTmp_gpu d
  /\ mNeighborsSorted_gpu (launch ts performThread d) = mNeighborsSorted_gpu d.
Proof.
  revert d. induction ts as [| t ts IH]; intros d; [done |].
  rewrite launch_cons.
  destruct (IH (performThread t d)) as (-> & -> & ->).
  apply perform_thread_frame.
Qed.

Lemma perform_launch_flags_other ts d i :
  (forall t, t ∈ ts -> (iOffset + t)%nat <> i) ->
  mPolymerFlags_gpu (launch ts performThread d) !! i = mPolymerFlags_gpu d !! i.
Proof.
  revert d. induction ts as [| t ts IH]; intros d Hts; [done |].
  rewrite launch_cons, IH by (intros; apply Hts; by right).
  destruct (perform_thread_flags t d i) as [E | (-> & _)]; [done |].
  exfalso. by apply (Hts t); [left |].
Qed.

Lemma perform_launch_flags ts d i :
  NoDup ts ->
  mPolymerFlags_gpu (launch ts performThread d) !! i = mPolymerFlags_gpu d !! i
  \/ (exists p, mPolymerFlags_gpu d !! i = Some p /\ Z.land p 1 <> 0
                /\ mPolymerFlags_gpu (launch ts performThread d) !! i
                   = Some (toFlags (Z.lor p 2))).
Proof.
  revert d. induction ts as [| t ts IH]; intros d Hnd; [by left |].
  apply NoDup_cons in Hnd as [Hnin Hnd].
  rewrite launch_cons.
  destruct (perform_thread_flags t d i) as [E | (-> & p & Hp & Hbit & E)].
  - rewrite <- E. by apply IH.
  - right. exists p. split; [done |]. split; [done |].
    rewrite perform_launch_flags_other; [done |].
    intros t' Ht' E'. assert (t' = t) by lia. by subst.
Qed.

(** *** The zero kernel *)

Lemma zero_thread_eq m d :
  zeroThread m d =
  if (nMonomers <=? m)%nat then d else
  let data := fetchVec (mPolymerSystemSorted_gpu d) (iOffset + m) in
  let p := default 0 (mPolymerFlags_gpu d !! (iOffset + m)%nat) in
  if Z.land p 3 =? 0 then d else
  mkDevice
    (<[(iOffset + m)%nat :=
         if Z.land p 3 =? 3 then moveBy w data (flagDirection w p) else data]>
       (mPolymerSystemSorted_gpu d))
    (mPolymerFlags_gpu d) (mLatticeOut_gpu d)
    (store (mLatticeTmp_gpu d) (proposedCell c data (flagDirection w p)) 0)
    (mNeighborsSorted_gpu d).
Proof.
  unfold kernelSimulationScBFMZeroArraySpecies.
  destruct (nMonomers <=? m)%nat; [done |].
  cbv zeta. destruct (Z.land _ 3 =? 0); [done |].
  unfold setPolymerSystem, setLatticeTmp, moveBy, flagDirection, proposedCell.
  cbn [mPolymerSystemSorted_gpu mLatticeOut_gpu mLatticeTmp_gpu mPolymerFlags_gpu
       mNeighborsSorted_gpu].
  by destruct (Z.land _ 3 =? 3).
Qed.

Lemma zero_thread_frame m d :
  mPolymerFlags_gpu (zeroThread m d) = mPolymerFlags_gpu d
  /\ mLatticeOut_gpu (zeroThread m d) = mLatticeOut_gpu d
  /\ mNeighborsSorted_gpu (zeroThread m d) = mNeighborsSorted_gpu d.
Proof.
  rewrite zero_thread_eq.
  destruct (nMonomers <=? m)%nat; [done |].
  cbv zeta. by destruct (Z.land _ 3 =? 0).
Qed.

Lemma zero_thread_system_other m d i :
  (iOffset + m)%nat <> i ->
  mPolymerSystemSorted_gpu (zeroThread m d) !! i = mPolymerSystemSorted_gpu d !! i.
Proof.
  intros Hne. rewrite zero_thread_eq.
  destruct (nMonomers <=? m)%nat; [done |].
  cbv zeta. destruct (Z.land _ 3 =? 0); [done |].
  cbn. by rewrite list_lookup_insert_ne.
Qed.

Lemma zero_thread_tmp m d i v :
  mLatticeTmp_gpu (zeroThread m d) !! i = Some v ->
  v = 0 \/ mLatticeTmp_gpu d !! i = Some v.
Proof.
  rewrite zero_thread_eq.
  destruct (nMonomers <=? m)%nat; [by right |].
  cbv zeta. destruct (Z.land _ 3 =? 0); [by right |].
  cbn. unfold store. intros Hv.
  apply list_lookup_insert_Some in Hv as [(_ & <- & _) | (_ & Hv)]; [by left | by right].
Qed.

Lemma zero_launch_frame ts d :
  mPolymerFlags_gpu (launch ts zeroThread d) = mPolymerFlags_gpu d
  /\ mLatticeOut_gpu (launch ts zeroThread d) = mLatticeOut_gpu d
  /\ mNeighborsSorted_gpu (launch ts zeroThread d) = mNeighborsSorted_gpu d.
Proof.
  revert d. induction ts as [| t ts IH]; intros d; [done |].
  rewrite launch_cons.
  destruct (IH (zeroThread t d)) as (-> & -> & ->).
  apply zero_thread_frame.
Qed.

Lemma zero_launch_system_other ts d i :
  (forall t, t ∈ ts -> (iOffset + t)%nat <> i) ->
  mPolymerSystemSorted_gpu (launch ts zeroThread d) !! i = mPolymerSystemSorted_gpu d !! i.
Proof.
  revert d. induction ts as [| t ts IH]; intros d Hts; [done |].
  rewrite launch_cons, IH by (intros; apply Hts; by right).
  apply zero_thread_system_other, Hts. by left.
Qed.

Lemma zero_launch_tmp ts d i v :
  mLatticeTmp_gpu (launch ts zeroThread d) !! i = Some v ->
  v = 0 \/ mLatticeTmp_gpu d !! i = Some v.
Proof.
  revert d. induction ts as [| t ts IH]; intros d Hv; [by right |].
  rewrite launch_cons in Hv.
  apply IH in Hv as [-> | Hv]; [by left |].
  by apply zero_thread_tmp in Hv.
Qed.

Lemma zero_launch_clears ts d m v :
  NoDup ts -> m ∈ ts -> (m < nMonomers)%nat ->
  let p := default 0 (mPolymerFlags_gpu d !! (iOffset + m)%nat) in
  Z.land p 3 <> 0 ->
  mLatticeTmp_gpu (launch ts zeroThread d)
    !! Z.to_nat (proposedCell c (fetchVec (mPolymerSystemSorted_gpu d) (iOffset + m))
                   (flagDirection w p)) = Some v ->
  v = 0.
Proof.
  revert d. induction ts as [| t ts IH]; intros d Hnd Hin Hm p Hp Hv.
  { by apply elem_of_nil in Hin. }
  apply NoDup_cons in Hnd as [Hnin Hnd].
  rewrite launch_cons in Hv.
  destruct (zero_thread_frame t d) as (Hf & _ & _).
  apply elem_of_cons in Hin as [-> | Hin].
  - apply zero_launch_tmp in Hv as [-> | Hv]; [done |].
    revert Hv. rewrite zero_thread_eq.
    destruct (Nat.leb_spec nMonomers t); [lia |].
    cbv zeta. fold p. destruct (Z.eqb_spec (Z.land p 3) 0); [done |].
    cbn. unfold store. intros Hv.
    apply list_lookup_insert_Some in Hv as [(_ & <- & _) | (Hne & _)]; done.
  - assert (t <> m) by (intros ->; done).
    apply (IH (zeroThread t d)); try done.
    + by rewrite Hf.
    + rewrite Hf. unfold fetchVec in *.
      rewrite zero_thread_system_other by lia. done.
Qed.

Lemma zero_launch_position ts d m :
  NoDup ts -> m ∈ ts -> (m < nMonomers)%nat ->
  (iOffset + m < length (mPolymerSystemSorted_gpu d))%nat ->
  let p := default 0 (mPolymerFlags_gpu d !! (iOffset + m)%nat) in
  let data := fetchVec (mPolymerSystemSorted_gpu d) (iOffset + m) in
  fetchVec (mPolymerSystemSorted_gpu (launch ts zeroThread d)) (iOffset + m)
  = if Z.land p 3 =? 3 then moveBy w data (flagDirection w p) else data.
Proof.
  revert d. induction ts as [| t ts IH]; intros d Hnd Hin Hm Hlen p data.
  { by apply elem_of_nil in Hin. }
  apply NoDup_cons in Hnd as [Hnin Hnd].
  rewrite launch_cons.
  destruct (zero_thread_frame t d) as (Hf & _ & _).
  apply elem_of_cons in Hin as [-> | Hin].
  - unfold fetchVec at 1. rewrite zero_launch_system_other.
    2:{ intros t' Ht' E. assert (t' = t) by lia. by subst. }
    rewrite zero_thread_eq.
    destruct (Nat.leb_spec nMonomers t); [lia |].
    cbv zeta. fold p data.
    destruct (Z.eqb_spec (Z.land p 3) 0) as [E0 | E0].
    + rewrite E0. done.
    + cbn. by rewrite list_lookup_insert_eq.
  - assert (t <> m) by (intros ->; done).
    rewrite IH; try done.
    + rewrite Hf. unfold fetchVec. rewrite zero_thread_system_other by lia. done.
    + rewrite zero_thread_eq.
      destruct (nMonomers <=? t)%nat; [done |]. cbv zeta.
      destruct (Z.land _ 3 =? 0); [done |]. cbn. by rewrite length_insert.
Qed.

Lemma zero_launch_length ts d :
  length (mPolymerSystemSorted_gpu (launch ts zeroThread d))
  = length (mPolymerSystemSorted_gpu d).
Proof.
  revert d. induction ts as [| t ts IH]; intros d; [done |].
  rewrite launch_cons, IH, zero_thread_eq.
  destruct (nMonomers <=? t)%nat; [done |]. cbv zeta.
  destruct (Z.land _ 3 =? 0); [done |]. cbn. by rewrite length_insert.
Qed.

End KernelFacts.

Lemma drawDirection_eq w m rSeed :
  drawDirection w m rSeed = hash (Z.lxor (hash (u32 (Z.of_nat m))) rSeed) mod 6
  /\ 0 <= drawDirection w m rSeed <= 5.
Proof.
  unfold drawDirection, toUintCUDA.
  pose proof (Z.mod_pos_bound (hash (Z.lxor (hash (u32 (Z.of_nat m))) rSeed)) 6 ltac:(lia)).
  rewrite Z.mod_small; [lia |].
  destruct w; cbn [bits]; lia.
Qed.

Lemma flag_bits w D :
  0 <= D <= 5 ->
  let f := toFlags (Z.shiftl D 2 + 1) in
  let g := toFlags (Z.lor f 2) in
  f = 4 * D + 1 /\ g = 4 * D + 3
  /\ Z.land f 1 = 1 /\ Z.land f 3 = 1 /\ flagDirection w f = D
  /\ Z.land g 1 = 1 /\ Z.land g 3 = 3 /\ flagDirection w g = D.
Proof.
  intros HD. apply direction_cases in HD.
  destruct w; decompose [or] HD; subst D; vm_compute; done.
Qed.

Lemma perm_seq_facts (ts : list nat) T :
  ts ≡ₚ seq 0 T -> NoDup ts /\ forall m, (m < T)%nat -> m ∈ ts.
Proof.
  intros Hp. split.
  - rewrite Hp. apply NoDup_seq.
  - intros m Hm. rewrite Hp. apply elem_of_seq. lia.
Qed.



Lemma acceptedFlag_bits w m rSeed :
  acceptedFlag w m rSeed = 4 * drawDirection w m rSeed + 1
  /\ toFlags (Z.lor (acceptedFlag w m rSeed) 2) = 4 * drawDirection w m rSeed + 3
  /\ Z.land (acceptedFlag w m rSeed) 1 = 1
  /\ Z.land (acceptedFlag w m rSeed) 3 = 1
  /\ flagDirection w (acceptedFlag w m rSeed) = drawDirection w m rSeed
  /\ Z.land (toFlags (Z.lor (acceptedFlag w m rSeed) 2)) 1 = 1
  /\ Z.land (toFlags (Z.lor (acceptedFlag w m rSeed) 2)) 3 = 3
  /\ flagDirection w (toFlags (Z.lor (acceptedFlag w m rSeed) 2)) = drawDirection w m rSeed.
Proof.
  destruct (drawDirection_eq w m rSeed) as [_ HD].
  exact (flag_bits w _ HD).
Qed.


Lemma toIntCUDA_inRange w v : inRange w v = true -> toIntCUDA w v = v.
Proof.
  unfold inRange, toIntCUDA, wrapSigned. intros H.
  apply andb_true_iff in H as [H1 H2]. apply Z.leb_le in H1, H2.
  destruct w; cbn [bits] in *; rewrite Z.mod_small; lia.
Qed.

Lemma toIntCUDA_step_ne w x k : k = 1 \/ k = -1 -> toIntCUDA w (x + k) <> x.
Proof.
  intros Hk E. unfold toIntCUDA, wrapSigned in E.
  destruct w; cbn [bits] in E.
  - change (2 ^ (16 - 1)) with 32768 in E. change (2 ^ 16) with 65536 in E.
    pose proof (Z.mod_pos_bound (x + k + 32768) 65536 ltac:(lia)).
    pose proof (Z.div_mod (x + k + 32768) 65536 ltac:(lia)). lia.
  - change (2 ^ (32 - 1)) with 2147483648 in E. change (2 ^ 32) with 4294967296 in E.
    pose proof (Z.mod_pos_bound (x + k + 2147483648) 4294967296 ltac:(lia)).
    pose proof (Z.div_mod (x + k + 2147483648) 4294967296 ltac:(lia)). lia.
Qed.

Lemma moveBy_ne w p D : 0 <= D <= 5 -> moveBy w p D <> p.
Proof.
  intros HD%direction_cases E. destruct p as [x y z t]. unfold moveBy in E.
  cbn [vx vy vz vw] in E.
  decompose [or] HD; subst D;
    match type of E with
    | context [fetch DXTable_d ?d] =>
        let vx' := eval vm_compute in (fetch DXTable_d d) in
        let vy' := eval vm_compute in (fetch DYTable_d d) in
        let vz' := eval vm_compute in (fetch DZTable_d d) in
        change (fetch DXTable_d d) with vx' in E;
        change (fetch DYTable_d d) with vy' in E;
        change (fetch DZTable_d d) with vz' in E
    end;
    injection E as Ex Ey Ez;
    match goal with
    | H : toIntCUDA w (?a + 1) = ?a |- _ =>
        exact (toIntCUDA_step_ne w a 1 (or_introl eq_refl) H)
    | H : toIntCUDA w (?a + -1) = ?a |- _ =>
        exact (toIntCUDA_step_ne w a (-1) (or_intror eq_refl) H)
    end.
Qed.

Lemma both_bits_direction w np c iOffset nbOffset pitch nMonomers rSeed
    nThreads tCheck tPerform d m :
  tCheck ≡ₚ seq 0 nThreads -> tPerform ≡ₚ seq 0 nThreads ->
  (nMonomers <= nThreads)%nat ->
  (m < nMonomers)%nat ->
  forall properties,
  properties
  = default 0
      (mPolymerFlags_gpu
         (launch tPerform (kernelSimulationScBFMPerformSpecies w c iOffset nMonomers)
            (launch tCheck
               (kernelSimulationScBFMCheckSpecies w np c iOffset nbOffset pitch
                  nMonomers rSeed) d)) !! (iOffset + m)%nat) ->
  Z.land properties 3 = 3 ->
  flagDirection w properties = drawDirection w m rSeed.
Proof.
  intros [NA CA]%perm_seq_facts [NB CB]%perm_seq_facts Hn Hm properties Hprop H3.
  destruct (acceptedFlag_bits w m rSeed) as (_ & _ & _ & F3 & _ & _ & _ & GD).
  pose proof (fun Hl => check_launch_flags w np c iOffset nbOffset pitch nMonomers rSeed
                          tCheck d m (CA m ltac:(lia)) Hm Hl) as HA.
  generalize dependent (acceptedFlag w m rSeed). intros flag F3 GD HA.
  assert (HfA : exists q,
             default 0
               (mPolymerFlags_gpu
                  (launch tCheck
                     (kernelSimulationScBFMCheckSpecies w np c iOffset nbOffset pitch
                        nMonomers rSeed) d) !! (iOffset + m)%nat) = q
             /\ (q = 0 \/ q = flag)).
  { eexists. split; [reflexivity |].
    destruct (decide (iOffset + m < length (mPolymerFlags_gpu d))%nat) as [Hl | Hl].
    - rewrite HA by lia.
      destruct (checkAccepts w np c d iOffset nbOffset pitch rSeed m); cbn; tauto.
    - destruct (check_launch_frame w np c iOffset nbOffset pitch nMonomers rSeed
                  tCheck d) as (_ & _ & _ & Hlen).
      rewrite lookup_ge_None_2 by lia. by left. }
  destruct HfA as (q & Hq & Hq').
  destruct (perform_launch_flags w c iOffset nMonomers tPerform
              (launch tCheck
                 (kernelSimulationScBFMCheckSpecies w np c iOffset nbOffset pitch
                    nMonomers rSeed) d) (iOffset + m)%nat NB)
    as [E | (p & Hp & _ & E)]; rewrite E in Hprop.
  - rewrite Hq in Hprop. subst properties.
    destruct Hq' as [-> | ->]; [discriminate H3 | rewrite F3 in H3; discriminate H3].
  - rewrite Hp in Hq. cbn [default from_option id] in Hq, Hprop. subst properties p.
    destruct Hq' as [-> | ->]; [discriminate H3 | exact GD].
Qed.

(** C3.  For every monomer [m] of the species, the check and perform
    kernels leave its stored position alone, and the zero kernel replaces
    it by the position plus the vector of the proposed direction if and
    only if [flags[m] & 3 == 3]; when the flags do not have both bits set
    the stored position after the substep is the one before it.  The sum is
    taken in [intCUDA] arithmetic and is the sum in the integers when that
    is representable. *)
Theorem settle_moves_iff_both_bits w np c iOffset nbOffset pitch nMonomers rSeed
    nThreads tCheck tPerform tZero d m :
  tCheck ≡ₚ seq 0 nThreads -> tPerform ≡ₚ seq 0 nThreads -> tZero ≡ₚ seq 0 nThreads ->
  (nMonomers <= nThreads)%nat ->
  (m < nMonomers)%nat ->
  (iOffset + m < length (mPolymerSystemSorted_gpu d))%nat ->
  let dB :=
    launch tPerform (kernelSimulationScBFMPerformSpecies w c iOffset nMonomers)
      (launch tCheck
         (kernelSimulationScBFMCheckSpecies w np c iOffset nbOffset pitch nMonomers rSeed)
         d) in
  let properties := default 0 (mPolymerFlags_gpu dB !! (iOffset + m)%nat) in
  let direction := drawDirection w m rSeed in
  let old := fetchVec (mPolymerSystemSorted_gpu d) (iOffset + m) in
  let new :=
    fetchVec
      (mPolymerSystemSorted_gpu
         (substep w np c iOffset nbOffset pitch nMonomers rSeed tCheck tPerform tZero d))
      (iOffset + m) in
  fetchVec (mPolymerSystemSorted_gpu dB) (iOffset + m) = old
  /\ (Z.land properties 3 = 3 <-> new = moveBy w old direction)
  /\ (Z.land properties 3 <> 3 -> new = old)
  /\ (inRange w (vx old + fetch DXTable_d direction) = true ->
      inRange w (vy old + fetch DYTable_d direction) = true ->
      inRange w (vz old + fetch DZTable_d direction) = true ->
      moveBy w old direction = plainMove old direction).
Proof.
  intros HpA HpB [NC CC]%perm_seq_facts Hn Hm Hlen dB properties direction old new.
  pose proof (both_bits_direction w np c iOffset nbOffset pitch nMonomers rSeed
                nThreads tCheck tPerform d m HpA HpB Hn Hm properties eq_refl) as Hdir.
  destruct (perform_launch_frame w c iOffset nMonomers tPerform
              (launch tCheck
                 (kernelSimulationScBFMCheckSpecies w np c iOffset nbOffset pitch
                    nMonomers rSeed) d)) as (HsB & _ & _).
  destruct (check_launch_frame w np c iOffset nbOffset pitch nMonomers rSeed tCheck d)
    as (HsA & _ & _ & _).
  fold dB in HsB. rewrite HsA in HsB.
  assert (Hnew : new = if Z.land properties 3 =? 3
                       then moveBy w old (flagDirection w properties) else old).
  { unfold new, substep. fold dB.
    rewrite (zero_launch_position w c iOffset nMonomers tZero dB m NC);
      [| apply CC; lia | exact Hm | rewrite HsB; exact Hlen].
    fold properties. rewrite HsB. fold old. reflexivity. }
  destruct (drawDirection_eq w m rSeed) as [_ HD]. fold direction in HD, Hdir.
  assert (Hold : fetchVec (mPolymerSystemSorted_gpu dB) (iOffset + m) = old)
    by (unfold old; by rewrite HsB).
  clearbody new properties direction old dB.
  split; [exact Hold |]. split; [| split].
  - split.
    + intros E. rewrite Hnew, E, (Hdir E). reflexivity.
    + intros E. rewrite Hnew in E.
      destruct (Z.land properties 3 =? 3) eqn:Heq; [by apply Z.eqb_eq |].
      symmetry in E. by apply moveBy_ne in E.
  - intros E. rewrite Hnew.
    destruct (Z.land properties 3 =? 3) eqn:Heq; [by apply Z.eqb_eq in Heq | done].
  - intros Hx Hy Hz. unfold moveBy, plainMove.
    by rewrite !toIntCUDA_inRange.
Qed.

Lemma insideBox_false b x y z :
  x < 2 ^ 32 -> y < 2 ^ 32 -> z < 2 ^ 32 ->
  x < 0 \/ dcBoxXM1 b <= x \/ y < 0 \/ dcBoxYM1 b <= y \/ z < 0 \/ dcBoxZM1 b <= z ->
  insideBox b x y z = false.
Proof.
  intros Hx2 Hy2 Hz2 H. unfold insideBox.
  apply not_true_is_false. rewrite !andb_true_iff, !Z.leb_le, !Z.ltb_lt.
  intros (((((X1 & X2) & Y1) & Y2) & Z1) & Z2).
  rewrite u32_small in X2, Y2, Z2 by lia. lia.
Qed.

Lemma inRange_bounds w v : inRange w v = true -> - 2 ^ 31 <= v <= 2 ^ 31 - 1.
Proof.
  unfold inRange. intros H. apply andb_true_iff in H as [H1 H2].
  apply Z.leb_le in H1, H2. destruct w; cbn [bits] in *; lia.
Qed.

Lemma table_bounds d :
  -1 <= fetch DXTable_d d <= 1 /\ -1 <= fetch DYTable_d d <= 1
  /\ -1 <= fetch DZTable_d d <= 1.
Proof.
  unfold fetch, DXTable_d, DYTable_d, DZTable_d.
  destruct (Z.to_nat d) as [| [| [| [| [| [| n]]]]]]; simpl; lia.
Qed.

(** C5.  With [NONPERIODICITY] compiled in, a monomer whose proposed
    destination has a negative coordinate or a coordinate not below the box
    edge minus one is rejected by the check kernel: its flag is 0 after the
    check kernel and after the substep, and its stored position is the one
    it had before the substep. *)
Theorem nonperiodic_leaving_box_rejected w c iOffset nbOffset pitch nMonomers rSeed
    nThreads tCheck tPerform tZero d m :
  tCheck ≡ₚ seq 0 nThreads -> tPerform ≡ₚ seq 0 nThreads -> tZero ≡ₚ seq 0 nThreads ->
  (nMonomers <= nThreads)%nat ->
  (m < nMonomers)%nat ->
  (iOffset + m < length (mPolymerSystemSorted_gpu d))%nat ->
  let old := fetchVec (mPolymerSystemSorted_gpu d) (iOffset + m) in
  let direction := drawDirection w m rSeed in
  let x := vx old + fetch DXTable_d direction in
  let y := vy old + fetch DYTable_d direction in
  let z := vz old + fetch DZTable_d direction in
  inRange w (vx old) = true -> inRange w (vy old) = true -> inRange w (vz old) = true ->
  x < 0 \/ dcBoxXM1 (dcBox c) <= x \/ y < 0 \/ dcBoxYM1 (dcBox c) <= y
  \/ z < 0 \/ dcBoxZM1 (dcBox c) <= z ->
  let dA :=
    launch tCheck
      (kernelSimulationScBFMCheckSpecies w true c iOffset nbOffset pitch nMonomers rSeed)
      d in
  let d' := substep w true c iOffset nbOffset pitch nMonomers rSeed
              tCheck tPerform tZero d in
  default 0 (mPolymerFlags_gpu dA !! (iOffset + m)%nat) = 0
  /\ default 0 (mPolymerFlags_gpu d' !! (iOffset + m)%nat) = 0
  /\ fetchVec (mPolymerSystemSorted_gpu d') (iOffset + m) = old.
Proof.
  intros [NA CA]%perm_seq_facts [NB CB]%perm_seq_facts [NC CC]%perm_seq_facts Hn Hm Hlen.
  intros old direction x y z Rx Ry Rz Hout dA d'.
  apply inRange_bounds in Rx, Ry, Rz.
  destruct (table_bounds direction) as (Tx & Ty & Tz).
  assert (Hrej : checkAccepts w true c d iOffset nbOffset pitch rSeed m = false).
  { unfold checkAccepts. fold old direction. fold x y z.
    rewrite insideBox_false by (try done; unfold x, y, z; lia). done. }
  assert (HfA : default 0 (mPolymerFlags_gpu dA !! (iOffset + m)%nat) = 0).
  { destruct (decide (iOffset + m < length (mPolymerFlags_gpu d))%nat) as [Hl | Hl].
    - unfold dA. rewrite check_launch_flags by (try apply CA; lia). by rewrite Hrej.
    - destruct (check_launch_frame w true c iOffset nbOffset pitch nMonomers rSeed
                  tCheck d) as (_ & _ & _ & Hlen').
      fold dA in Hlen'. rewrite lookup_ge_None_2; [done | lia]. }
  set (dB := launch tPerform (kernelSimulationScBFMPerformSpecies w c iOffset nMonomers) dA).
  assert (HfB : default 0 (mPolymerFlags_gpu dB !! (iOffset + m)%nat) = 0).
  { destruct (perform_launch_flags w c iOffset nMonomers tPerform dA (iOffset + m)%nat NB)
      as [E | (p & Hp & Hbit & _)].
    - fold dB in E. by rewrite E.
    - rewrite Hp in HfA. cbn in HfA. subst p. done. }
  destruct (perform_launch_frame w c iOffset nMonomers tPerform dA) as (HsB & _ & _).
  destruct (check_launch_frame w true c iOffset nbOffset pitch nMonomers rSeed tCheck d)
    as (HsA & _ & _ & _).
  fold dA in HsA. fold dB in HsB. rewrite HsA in HsB.
  destruct (zero_launch_frame w c iOffset nMonomers tZero dB) as (HfC & _ & _).
  split; [done |]. split.
  - unfold d', substep. fold dA. fold dB. by rewrite HfC.
  - unfold d', substep. fold dA. fold dB.
    rewrite (zero_launch_position w c iOffset nMonomers tZero dB m NC);
      [| apply CC; lia | exact Hm | rewrite HsB; exact Hlen].
    rewrite HfB, HsB. reflexivity.
Qed.

Lemma u32_add_shiftl a c k :
  0 <= k -> u32 (u32 (a + c) + u32 (Z.shiftl a k)) = (a + c + a * 2 ^ k) mod 2 ^ 32.
Proof.
  intros Hk. unfold u32. rewrite Z.shiftl_mul_pow2 by done.
  by rewrite <- Zplus_mod.
Qed.

(** The function the source calls [hash] is [wang32]. *)
Lemma hash_wang32 a : hash a = wang32 a.
Proof.
  unfold hash, wang32. cbv zeta.
  rewrite !u32_add_shiftl by lia.
  rewrite !Z.shiftr_div_pow2 by lia.
  unfold u32. rewrite !Z.shiftl_mul_pow2 by lia.
  reflexivity.
Qed.

(** C1.  Thread [m] of the check kernel under the 32-bit seed [rSeed]
    proposes the direction [wang32( wang32( m ) ^ rSeed ) % 6], where the
    [hash] of the source is the Wang function [wang32]; the direction
    is a function of the local index and the seed alone.  It is the
    direction tested in the boundary, bond and excluded-volume tests: when
    they pass for it the kernel stores the flag [4 direction + 1] and marks
    the scratch cell one step in that direction, and otherwise it stores
    the flag 0 and marks nothing.  The perform and zero kernels decode the
    same direction from bits 2 to 4 of the flag. *)
Theorem check_direction_is_hash w np c iOffset nbOffset pitch nMonomers rSeed m d :
  (m < nMonomers)%nat ->
  Z.of_nat nMonomers <= 2 ^ 32 ->
  0 <= rSeed < 2 ^ 32 ->
  (iOffset + m < length (mPolymerFlags_gpu d))%nat ->
  let direction := wang32 (Z.lxor (wang32 (Z.of_nat m)) rSeed) mod 6 in
  let old := fetchVec (mPolymerSystemSorted_gpu d) (iOffset + m) in
  let dx := fetch DXTable_d direction in
  let dy := fetch DYTable_d direction in
  let dz := fetch DZTable_d direction in
  let passes :=
    negb (np && negb (insideBox (dcBox c) (vx old + dx) (vy old + dy) (vz old + dz)))
    && negb (anyForbiddenBond w c d nbOffset pitch m (vx old) (vy old) (vz old) dx dy dz
               (Z.land (Z.shiftr (vw old) 5) 7))
    && negb (checkFront (dcBox c) (mLatticeOut_gpu d) (vx old) (vy old) (vz old) direction) in
  let d' :=
    kernelSimulationScBFMCheckSpecies w np c iOffset nbOffset pitch nMonomers rSeed m d in
  (forall a, hash a = wang32 a)
  /\ 0 <= direction <= 5
  /\ drawDirection w m rSeed = direction
  /\ (passes = true ->
      mPolymerFlags_gpu d' !! (iOffset + m)%nat = Some (4 * direction + 1)
      /\ mLatticeTmp_gpu d'
         = store (mLatticeTmp_gpu d)
             (cellIndex (dcBox c) (destinationCell (vx old) (vy old) (vz old) direction)) 1)
  /\ (passes = false ->
      mPolymerFlags_gpu d' !! (iOffset + m)%nat = Some 0
      /\ mLatticeTmp_gpu d' = mLatticeTmp_gpu d)
  /\ flagDirection w (4 * direction + 1) = direction
  /\ flagDirection w (4 * direction + 3) = direction.
Proof.
  intros Hm Hn _ Hlen direction old dx dy dz passes d'.
  split; [exact hash_wang32 |].
  destruct (drawDirection_eq w m rSeed) as [HD HR].
  rewrite (u32_small (Z.of_nat m)) in HD by lia.
  rewrite !hash_wang32 in HD. fold direction in HD.
  rewrite HD in HR.
  split; [done |]. split; [done |].
  destruct (acceptedFlag_bits w m rSeed) as (F & G & _ & _ & FD & _ & _ & GD).
  rewrite G in GD. rewrite F in FD. rewrite HD in F, FD, GD.
  pose proof (check_thread_flags w np c iOffset nbOffset pitch nMonomers rSeed m d Hm Hlen)
    as Hf.
  fold d' in Hf.
  assert (Hacc : checkAccepts w np c d iOffset nbOffset pitch rSeed m = passes).
  { unfold checkAccepts. cbv zeta. rewrite HD. reflexivity. }
  rewrite Hacc in Hf.
  assert (Htmp : mLatticeTmp_gpu d'
                 = if passes
                   then store (mLatticeTmp_gpu d)
                          (cellIndex (dcBox c)
                             (destinationCell (vx old) (vy old) (vz old) direction)) 1
                   else mLatticeTmp_gpu d).
  { unfold d'. rewrite check_thread_eq.
    destruct (Nat.leb_spec nMonomers m); [lia |].
    rewrite Hacc. destruct passes; [| done].
    cbn [mLatticeTmp_gpu setLatticeTmp]. unfold proposedCell. fold old. by rewrite HD. }
  clearbody passes d'.
  split; [intros ->; by rewrite Hf, Htmp, F |].
  split; [intros ->; by rewrite Hf, Htmp |].
  done.
Qed.


(** ** The host side *)

Section HostFacts.
Variable w : IntWidth.
Variable np : bool.
Variable graphColoring : list MonomerEdges -> bool -> list nat.
Variables nElementsAlignment nNeighborsAlignment : nat.
Variable r250_rand32 : nat -> Z.

Lemma checkSystem_error e err :
  (checkSystem w e).2 = Some err ->
  err = LatticeNotAllocated \/ (exists n, err = WrongOccupation n)
  \/ (exists i, err = InvalidBond i).
Proof.
  unfold checkSystem, returns, throws.
  repeat case_split; cbn; intros H; inversion H; eauto.
Qed.

Lemma andThen_error r f err :
  (andThen r f).2 = Some err ->
  r.2 = Some err \/ exists e, r = (e, None) /\ (f e).2 = Some err.
Proof. destruct r as [e [err' |]]; cbn; eauto. Qed.

Lemma initialize_grouping_error e k :
  (initialize_grouping w graphColoring nElementsAlignment nNeighborsAlignment e).2
  <> Some (WrongBondSet k).
Proof.
  unfold initialize_grouping. intros H.
  apply andThen_error in H as [H | (e1 & _ & H)].
  { revert H. unfold initialize_coloring, throws, returns.
    repeat case_split; cbn; done. }
  apply andThen_error in H as [H | (e2 & _ & H)].
  { revert H. unfold initialize_offsets, throws, returns.
    repeat case_split; cbn; done. }
  apply andThen_error in H as [H | (e3 & _ & H)].
  { revert H. unfold initialize_neighborCheck, throws, returns.
    repeat case_split; cbn; done. }
  apply andThen_error in H as [H | (e4 & _ & H)].
  { apply checkSystem_error in H as [H | [[n H] | [i H]]]; discriminate. }
  done.
Qed.


Local Abbreviation init :=
  (initialize w graphColoring nElementsAlignment nNeighborsAlignment) (only parsing).
Local Abbreviation grouping :=
  (initialize_grouping w graphColoring nElementsAlignment nNeighborsAlignment)
  (only parsing).

Lemma initialize_already_called e :
  isAllocated (mLatticeOut (host e)) = true \/ isAllocated (mLatticeTmp (host e)) = true ->
  init e = throws e InitializeAlreadyCalled.
Proof.
  intros H. unfold initialize.
  destruct H as [-> | ->]; [done | by rewrite orb_true_r].
Qed.

(** C6, as amended.  On an engine on which [initialize] has not run since
    construction or [cleanup] (neither lattice is allocated), [initialize]
    raises the wrong-bond-set error if and only if the number of allowed
    entries of the 512-entry table is not 108, and with exactly 108 allowed
    entries it goes on to the grouping with the table uploaded. *)
Theorem initialize_bond_table_validation e :
  isAllocated (mLatticeOut (host e)) = false ->
  isAllocated (mLatticeTmp (host e)) = false ->
  bondTableValidation init grouping e.
Proof.
  intros H1 H2. unfold bondTableValidation, raisesWrongBondSet, initialize.
  rewrite H1, H2. cbn [orb].
  destruct (Nat.eqb_spec (nAllowedBonds e) 108) as [E | E]; cbn [negb].
  - split; [| intros _; reflexivity]. split; [| intros Hne; by destruct (Hne E)].
    intros [n Hn]. by apply initialize_grouping_error in Hn.
  - split; [| intros Heq; by destruct (E Heq)]. split; [done |]. intros _. by eexists.
Qed.

Lemma checkSystem_frame e :
  mPolymerSystem (checkSystem w e).1 = mPolymerSystem e
  /\ mNeighbors (checkSystem w e).1 = mNeighbors e
  /\ gpu (checkSystem w e).1 = gpu e
  /\ host (checkSystem w e).1 = host e
  /\ (mLogCheck e = false -> checkSystem w e = returns e).
Proof.
  unfold checkSystem, returns, throws.
  destruct (mLogCheck e); cbn [negb]; [| cbn; done].
  repeat case_split; cbn; done.
Qed.

Lemma untangle_in_sync e :
  mirrorsInSync e ->
  untangle e (mPolymerSystemSorted_gpu (gpu e)) = mPolymerSystem e.
Proof.
  intros Hsync. unfold untangle.
  assert (H : forall l, (forall i, i ∈ l -> (i < nAllMonomers e)%nat) ->
    foldl (fun system i =>
             let p := fetchVec (mPolymerSystemSorted_gpu (gpu e))
                        (Z.to_nat (default 0 (iToiNew (groups e) !! i))) in
             <[(4 * i + 3)%nat := vw p]>
               (<[(4 * i + 2)%nat := vz p]>
                  (<[(4 * i + 1)%nat := vy p]>
                     (<[(4 * i + 0)%nat := vx p]> system))))
          (mPolymerSystem e) l = mPolymerSystem e).
  { induction l as [| i l IH]; intros Hl; [done |].
    cbn [foldl]. rewrite (Hsync i) by (apply Hl; by left).
    unfold polymerSystemEntry. cbn [vx vy vz vw].
    assert (Hid : forall k, <[k := default 0 (mPolymerSystem e !! k)]> (mPolymerSystem e)
                            = mPolymerSystem e).
    { intros k. apply list_insert_id'. intros Hk.
      apply lookup_lt_is_Some in Hk as [v ->]. done. }
    rewrite !Hid. apply IH. intros j Hj. apply Hl. by right. }
  apply H. intros i Hi. apply elem_of_seq in Hi. lia.
Qed.

Lemma checkLatticeTmp_frame e :
  mPolymerSystem (checkLatticeTmp e).1 = mPolymerSystem e
  /\ mNeighbors (checkLatticeTmp e).1 = mNeighbors e
  /\ gpu (checkLatticeTmp e).1 = gpu e
  /\ groups (checkLatticeTmp e).1 = groups e
  /\ nAllMonomers (checkLatticeTmp e).1 = nAllMonomers e
  /\ mLogCheck (checkLatticeTmp e).1 = mLogCheck e
  /\ (mLogCheck e = false -> checkLatticeTmp e = returns e).
Proof.
  unfold checkLatticeTmp, returns, throws.
  destruct (mLogCheck e) eqn:Hlog; cbn [negb]; [| cbn; by rewrite Hlog].
  cbv zeta. case_split; cbn; by rewrite Hlog.
Qed.

Lemma copyBack_in_sync e :
  mirrorsInSync e ->
  mPolymerSystem (copyBack e) = mPolymerSystem e
  /\ mNeighbors (copyBack e) = mNeighbors e
  /\ gpu (copyBack e) = gpu e
  /\ mLogCheck (copyBack e) = mLogCheck e.
Proof.
  intros Hsync. unfold copyBack. cbv zeta.
  split; [| done].
  change (untangle e (mPolymerSystemSorted_gpu (gpu e)) = mPolymerSystem e).
  by apply untangle_in_sync.
Qed.

Lemma mirrorsInSync_frame e e' :
  mPolymerSystem e' = mPolymerSystem e -> gpu e' = gpu e -> groups e' = groups e ->
  nAllMonomers e' = nAllMonomers e ->
  mirrorsInSync e -> mirrorsInSync e'.
Proof.
  unfold mirrorsInSync, polymerSystemEntry. intros -> -> -> ->. done.
Qed.

(** After the sorting loop of [initialize] the sorted array holds the entry
    of monomer [i] at [iToiNew[i]], when the index map is injective and
    stays inside the array. *)
Lemma sortPolymerSystem_lookup e sorted i :
  (i < nAllMonomers e)%nat ->
  (forall j, (j < nAllMonomers e)%nat ->
     (Z.to_nat (default 0%Z (iToiNew (groups e) !! j)) < length sorted)%nat) ->
  (forall j k, (j < nAllMonomers e)%nat -> (k < nAllMonomers e)%nat ->
     Z.to_nat (default 0%Z (iToiNew (groups e) !! j))
     = Z.to_nat (default 0%Z (iToiNew (groups e) !! k)) -> j = k) ->
  fetchVec (sortPolymerSystem e sorted) (Z.to_nat (default 0%Z (iToiNew (groups e) !! i)))
  = polymerSystemEntry e i.
Proof.
  intros Hi Hrange Hinj. unfold sortPolymerSystem.
  set (idx j := Z.to_nat (default 0%Z (iToiNew (groups e) !! j))) in *.
  assert (G : forall n sorted0, (n <= nAllMonomers e)%nat ->
            length sorted0 = length sorted ->
            let r := foldl (fun s j => <[idx j := polymerSystemEntry e j]> s) sorted0 (seq 0 n) in
            length r = length sorted
            /\ forall j, (j < n)%nat -> fetchVec r (idx j) = polymerSystemEntry e j).
  { induction n as [| n IH]; intros sorted0 Hn Hlen.
    - cbn. split; [done | lia].
    - rewrite seq_S, foldl_app. cbn [foldl Nat.add].
      destruct (IH sorted0 ltac:(lia) Hlen) as [Hl Hf]. cbv zeta.
      split; [by rewrite length_insert |].
      intros j Hj. unfold fetchVec.
      destruct (decide (j = n)) as [-> | Hjn].
      + rewrite list_lookup_insert_eq; [done |]. rewrite Hl. apply Hrange. lia.
      + rewrite list_lookup_insert_ne.
        * apply Hf. lia.
        * intros E. apply Hjn. symmetry. apply Hinj; [lia | lia | done]. }
  destruct (G (nAllMonomers e) sorted ltac:(lia) eq_refl) as [_ Hf].
  by apply Hf.
Qed.

(** [initialize] leaves the mirrors in sync: the sorting step establishes
    [mirrorsInSync] from an injective index map. *)
Lemma initialize_sort_in_sync e :
  (forall j, (j < nAllMonomers e)%nat ->
     (Z.to_nat (default 0%Z (iToiNew (groups e) !! j))
      < length (default [] (mPolymerSystemSorted (host e))))%nat) ->
  (forall j k, (j < nAllMonomers e)%nat -> (k < nAllMonomers e)%nat ->
     Z.to_nat (default 0%Z (iToiNew (groups e) !! j))
     = Z.to_nat (default 0%Z (iToiNew (groups e) !! k)) -> j = k) ->
  mirrorsInSync (initialize_sort w e).
Proof.
  intros Hrange Hinj i Hi.
  exact (sortPolymerSystem_lookup (set_mPolymerSystem e (tagNeighborCounts w e)) _ i Hi Hrange Hinj).
Qed.

(** C8, what the code does.  When monomer [iMonomer1] already has
    [MAX_CONNECTIVITY] stored neighbours, [setConnectivity] throws, and the
    engine it leaves behind differs from the one it was called on: the
    stored neighbour count of [iMonomer1] is [MAX_CONNECTIVITY + 1]. *)
Theorem setConnectivity_full_increments e iMonomer1 iMonomer2 edges :
  mNeighbors e !! iMonomer1 = Some edges ->
  size edges = MAX_CONNECTIVITY ->
  let r := setConnectivity e iMonomer1 iMonomer2 in
  r.2 = Some MaxConnectivityExceeded
  /\ size <$> mNeighbors r.1 !! iMonomer1 = Some (S MAX_CONNECTIVITY)
  /\ r.1 <> e.
Proof.
  intros He Hsize r. unfold r, setConnectivity. rewrite He. cbn [default from_option id].
  rewrite Hsize. cbn [MAX_CONNECTIVITY Nat.sub Nat.ltb Nat.leb].
  cbn [throws fst snd mNeighbors set_mNeighbors].
  assert (Hlt : (iMonomer1 < length (mNeighbors e))%nat) by by apply lookup_lt_Some in He.
  rewrite list_lookup_insert_eq by done.
  split; [done |]. split; [cbn; f_equal; lia |].
  intros E. apply (f_equal mNeighbors) in E. cbn in E.
  apply (f_equal (fun l => size <$> l !! iMonomer1)) in E.
  rewrite list_lookup_insert_eq, He in E by done. cbn in E. rewrite Hsize in E.
  injection E. cbn. lia.
Qed.

End HostFacts.

(** The loop that finds the shift of an edge returns the exponent of a
    power of two. *)
Lemma log2Loop_pow2 l : 0 <= l <= 31 -> log2Loop 32 (2 ^ l) 0 = l.
Proof.
  intros Hl.
  assert (H : exists n : nat, l = Z.of_nat n /\ (n <= 31)%nat).
  { exists (Z.to_nat l). lia. }
  destruct H as (n & -> & Hn).
  do 32 (destruct n as [| n]; [vm_compute; reflexivity |]).
  lia.
Qed.

Lemma u32_pow2_pred l : 0 <= l <= 32 -> u32 (2 ^ l - 1) = 2 ^ l - 1.
Proof.
  intros Hl. apply u32_small.
  pose proof (pow2_pos l ltac:(lia)). pose proof (pow2_le l 32 ltac:(lia)). lia.
Qed.

(** [setLatticeSize] accepts edges that are powers of two and representable
    in [intCUDA], and stores the edges, the masks and the two shifts; the
    box constants uploaded from them are those of [BoxOK]. *)
Lemma setLatticeSize_power_of_two w e lx ly lz :
  0 <= lx -> 0 <= ly -> 0 <= lz <= 32 -> lx + ly <= 31 ->
  inRange w (2 ^ lx) = true -> inRange w (2 ^ ly) = true -> inRange w (2 ^ lz) = true ->
  (mBoxX (mBox e), mBoxY (mBox e), mBoxZ (mBox e)) <> (2 ^ lx, 2 ^ ly, 2 ^ lz) ->
  exists e',
    setLatticeSize w e (2 ^ lx) (2 ^ ly) (2 ^ lz) = returns e'
    /\ mBox e' = mkBoxSize (2 ^ lx) (2 ^ ly) (2 ^ lz)
                   (2 ^ lx - 1) (2 ^ ly - 1) (2 ^ lz - 1) lx (lx + ly)
    /\ (lx + ly + lz <= 32 -> BoxOK (hostBox e') lx ly lz).
Proof.
  intros Hx Hy Hz Hxy Rx Ry Rz Hne. unfold setLatticeSize.
  destruct ((mBoxX (mBox e) =? 2 ^ lx) && (mBoxY (mBox e) =? 2 ^ ly)
            && (mBoxZ (mBox e) =? 2 ^ lz)) eqn:Hsame.
  { apply andb_true_iff in Hsame as [Hsame Ez]. apply andb_true_iff in Hsame as [Ex Ey].
    apply Z.eqb_eq in Ex, Ey, Ez. destruct Hne. by rewrite Ex, Ey, Ez. }
  rewrite Rx, Ry, Rz. cbn [andb negb].
  assert (Hprod : u32 (2 ^ lx * 2 ^ ly) = 2 ^ (lx + ly)).
  { rewrite <- Z.pow_add_r by lia. apply u32_small.
    pose proof (pow2_pos (lx + ly) ltac:(lia)).
    pose proof (Z.pow_lt_mono_r 2 (lx + ly) 32 ltac:(lia) ltac:(lia) ltac:(lia)). lia. }
  rewrite Hprod, !log2Loop_pow2 by lia.
  assert (Hs : forall l, 0 <= l <= 31 -> shl32 1 l = 2 ^ l).
  { intros l Hl. rewrite shl32_small; [lia | lia | lia |].
    pose proof (Z.pow_lt_mono_r 2 l 32 ltac:(lia) ltac:(lia) ltac:(lia)). lia. }
  rewrite !Hs by lia. rewrite !Z.eqb_refl. cbn [negb orb].
  rewrite !u32_pow2_pred by lia.
  eexists. split; [reflexivity |]. split; [reflexivity |].
  intros Hfit. constructor; try done; try lia.
Qed.

(** C7, what the code does.  On a fresh engine
    [setLatticeSize( 4, 4, 3 )] returns normally although 3 is not a power
    of two; the mask [mBoxZM1] it stores violates the assertion of
    [linearizeBoxVectorIndex]. *)
Theorem setLatticeSize_ignores_boxZ w forbiddenBonds0 :
  let r := setLatticeSize w (UpdaterGPUScBFM_AB_Type forbiddenBonds0) 4 4 3 in
  r.2 = None
  /\ mBoxZ (mBox r.1) = 3 /\ mBoxZM1 (mBox r.1) = 2
  /\ isPowerOfTwo (u32 (mBoxZM1 (mBox r.1) + 1)) = false.
Proof. destruct w; vm_compute; done. Qed.

(** ** The theorems at the example configurations *)

(** The Wang function at 0, 1 and [2^32 - 1], and the first monomer of the
    dimer under seed 0: it draws direction 5, the three tests pass, the flag
    is [4 * 5 + 1] and the cell above the monomer is marked. *)
Lemma check_direction_is_hash_witness :
  let old := fetchVec (mPolymerSystemSorted_gpu dimerDevice) (0 + 0) in
  let d' :=
    kernelSimulationScBFMCheckSpecies Int16 false dimerConstants 0 0 32 1 0 0%nat
      dimerDevice in
  hash 0 = 1800329511 /\ hash 1 = 3028713910 /\ hash 4294967295 = 4268016002
  /\ wang32 (Z.lxor (wang32 (Z.of_nat 0)) 0) mod 6 = 5
  /\ drawDirection Int16 0 0 = 5
  /\ mPolymerFlags_gpu d' !! (0 + 0)%nat = Some 21
  /\ mLatticeTmp_gpu d'
     = store (mLatticeTmp_gpu dimerDevice)
         (cellIndex (dcBox dimerConstants) (destinationCell (vx old) (vy old) (vz old) 5)) 1
  /\ flagDirection Int16 21 = 5.
Proof.
  intros old d'.
  pose proof (check_direction_is_hash Int16 false dimerConstants 0 0 32 1 0 0 dimerDevice
                ltac:(lia) ltac:(lia) ltac:(lia) ltac:(vm_compute; lia))
    as (Hh & _ & Hd & Hpass & _ & Hf & _).
  assert (E : wang32 (Z.lxor (wang32 (Z.of_nat 0)) 0) mod 6 = 5) by (vm_compute; reflexivity).
  rewrite E in Hd, Hpass, Hf.
  destruct (Hpass ltac:(vm_compute; reflexivity)) as (H1 & H2).
  split; [rewrite Hh; vm_compute; reflexivity |].
  split; [rewrite Hh; vm_compute; reflexivity |].
  split; [rewrite Hh; vm_compute; reflexivity |].
  split; [exact E |]. split; [exact Hd |]. split; [exact H1 |]. split; [exact H2 |].
  exact Hf.
Defined.


(** Under seed 0 the first monomer of the dimer is accepted by both phases
    and moves. *)
Lemma settle_moves_iff_both_bits_witness :
  let dB :=
    launch (seq 0 256) (kernelSimulationScBFMPerformSpecies Int16 dimerConstants 0 1)
      (launch (seq 0 256)
         (kernelSimulationScBFMCheckSpecies Int16 false dimerConstants 0 0 32 1 0)
         dimerDevice) in
  let properties := default 0 (mPolymerFlags_gpu dB !! (0 + 0)%nat) in
  Z.land properties 3 = 3
  /\ fetchVec
       (mPolymerSystemSorted_gpu
          (substep Int16 false dimerConstants 0 0 32 1 0
             (seq 0 256) (seq 0 256) (seq 0 256) dimerDevice)) (0 + 0)
     = moveBy Int16 (fetchVec (mPolymerSystemSorted_gpu dimerDevice) (0 + 0))
         (drawDirection Int16 0 0).
Proof.
  intros dB properties.
  assert (H : Z.land properties 3 = 3) by (vm_compute; reflexivity).
  split; [exact H |].
  assert (Hperm : seq 0 256 ≡ₚ seq 0 256) by reflexivity.
  assert (Hlen : (0 + 0 < length (mPolymerSystemSorted_gpu dimerDevice))%nat)
    by (vm_compute; lia).
  pose proof (settle_moves_iff_both_bits Int16 false dimerConstants 0 0 32 1 0 256
                (seq 0 256) (seq 0 256) (seq 0 256) dimerDevice 0
                Hperm Hperm Hperm ltac:(lia) ltac:(lia) Hlen) as (_ & Hmove & _).
  exact (proj1 Hmove H).
Defined.



(** A monomer at the origin that proposes a step to x = -1 stays. *)
Lemma nonperiodic_leaving_box_rejected_witness :
  vx (fetchVec (mPolymerSystemSorted_gpu cornerDevice) (0 + 0))
  + fetch DXTable_d (drawDirection Int16 0 2) < 0
  /\ default 0
       (mPolymerFlags_gpu
          (substep Int16 true cornerConstants 0 0 0 1 2
             (seq 0 256) (seq 0 256) (seq 0 256) cornerDevice) !! (0 + 0)%nat) = 0
  /\ fetchVec
       (mPolymerSystemSorted_gpu
          (substep Int16 true cornerConstants 0 0 0 1 2
             (seq 0 256) (seq 0 256) (seq 0 256) cornerDevice)) (0 + 0)
     = fetchVec (mPolymerSystemSorted_gpu cornerDevice) (0 + 0).
Proof.
  assert (H : vx (fetchVec (mPolymerSystemSorted_gpu cornerDevice) (0 + 0))
              + fetch DXTable_d (drawDirection Int16 0 2) < 0)
    by (vm_compute; reflexivity).
  split; [exact H |].
  apply (nonperiodic_leaving_box_rejected Int16 cornerConstants 0 0 0 1 2 256
           (seq 0 256) (seq 0 256) (seq 0 256) cornerDevice 0).
  - reflexivity.
  - reflexivity.
  - reflexivity.
  - lia.
  - lia.
  - vm_compute. lia.
  - vm_compute. reflexivity.
  - vm_compute. reflexivity.
  - vm_compute. reflexivity.
  - left. exact H.
Defined.

(** The staged dimer has 108 allowed bonds and passes the validation. *)
Lemma initialize_bond_table_validation_witness :
  nAllowedBonds dimerStaged.1 = 108%nat
  /\ bondTableValidation (initialize Int16 alternatingColoring 32 32)
       (initialize_grouping Int16 alternatingColoring 32 32) dimerStaged.1.
Proof.
  split; [vm_compute; reflexivity |].
  apply (initialize_bond_table_validation Int16 alternatingColoring 32 32 dimerStaged.1).
  - vm_compute. reflexivity.
  - vm_compute. reflexivity.
Defined.

(** C6, the claim as stated fails on an engine that is already initialized:
    with 108 allowed entries [initialize] does not go on to the grouping,
    and with 109 it raises no wrong-bond-set error. *)
Lemma initialize_twice_counterexample :
  ~ bondTableValidation (initialize Int16 alternatingColoring 32 32)
      (initialize_grouping Int16 alternatingColoring 32 32) dimerEngine
  /\ ~ (raisesWrongBondSet (initialize Int16 alternatingColoring 32 32 dimerRestaged)
        <-> nAllowedBonds dimerRestaged <> 108%nat).
Proof.
  split.
  - intros [_ H].
    assert (E : nAllowedBonds dimerEngine = 108%nat) by (vm_compute; reflexivity).
    apply H in E. apply (f_equal snd) in E. vm_compute in E. discriminate E.
  - intros [_ H].
    destruct H as [n Hn].
    + vm_compute. intros E. discriminate E.
    + vm_compute in Hn. discriminate Hn.
Qed.

(** The first monomer of [crowdedEngine] has seven neighbours; an eighth
    bond throws and leaves the count at eight. *)
Lemma setConnectivity_full_increments_witness :
  (setConnectivity crowdedEngine 0 8).2 = Some MaxConnectivityExceeded
  /\ size <$> mNeighbors (setConnectivity crowdedEngine 0 8).1 !! 0%nat
     = Some (S MAX_CONNECTIVITY)
  /\ (setConnectivity crowdedEngine 0 8).1 <> crowdedEngine.
Proof.
  apply (setConnectivity_full_increments crowdedEngine 0 8
           (mkMonomerEdges 7 [1; 2; 3; 4; 5; 6; 7]%nat)).
  - reflexivity.
  - reflexivity.
Defined.

(** The box of the dimer has edges 8; the mark of a step towards +z is
    outside the face tested for that step. *)
Lemma own_mark_not_in_front_witness :
  BoxOK (dcBox dimerConstants) 3 3 3
  /\ checkFront (dcBox dimerConstants)
       (store (mLatticeTmp_gpu dimerDevice)
          (cellIndex (dcBox dimerConstants) (destinationCell 2 2 2 5)) 1) 2 2 2 5
     = checkFront (dcBox dimerConstants) (mLatticeTmp_gpu dimerDevice) 2 2 2 5.
Proof.
  assert (H : BoxOK (dcBox dimerConstants) 3 3 3).
  { constructor; vm_compute; try reflexivity; intros E; discriminate E. }
  split; [exact H |].
  apply (own_mark_not_in_front (dcBox dimerConstants) 3 3 3 2 2 2 5 H);
    lia.
Defined.

(** ** Further properties of the device helpers *)

Lemma isPowerOfTwo_true y :
  0 <= y < 2 ^ 32 ->
  isPowerOfTwo y = true <-> exists k, 0 <= k < 32 /\ y = 2 ^ k.
Proof.
  intros Hy. unfold isPowerOfTwo. rewrite andb_true_iff, negb_true_iff, !Z.eqb_neq, Z.eqb_eq.
  split.
  - intros [Hne Hland]. rewrite u32_small in Hland by lia.
    exists (Z.log2 y). pose proof (Z.log2_spec y ltac:(lia)) as Hlog.
    pose proof (Z.log2_nonneg y) as Hnn.
    assert (Hk : Z.log2 y < 32) by (apply Z.log2_lt_pow2; lia).
    split; [lia |].
    destruct (Z.eq_dec y (2 ^ Z.log2 y)) as [E | Hgt]; [exact E | exfalso].
    assert (Hlog' : Z.log2 (y - 1) = Z.log2 y).
    { apply Z.log2_unique; [lia |]. split; [lia |].
      replace (Z.log2 y + 1) with (Z.succ (Z.log2 y)) by lia. lia. }
    assert (Hb : Z.testbit (Z.land y (y - 1)) (Z.log2 y) = true).
    { rewrite Z.land_spec, (Z.bit_log2 y) by lia.
      rewrite <- Hlog' at 1. rewrite Z.bit_log2; [done | lia]. }
    rewrite Hland, Z.bits_0 in Hb. done.
  - intros (k & Hk & ->). pose proof (pow2_pos k ltac:(lia)) as Hp.
    split; [lia |].
    rewrite u32_small by (pose proof (pow2_le k 32 ltac:(lia)); lia).
    replace (2 ^ k - 1) with (Z.ones k) by (rewrite Z.ones_equiv; lia).
    rewrite Z.land_ones by lia. apply Z.mod_same. lia.
Qed.

(** [isPowerOfTwo] answers [true] exactly on the 32 powers of two a
    [uint32_t] holds; zero is not one of them. *)
Theorem isPowerOfTwo_iff_power x :
  (isPowerOfTwo (u32 x) = true <-> exists k, 0 <= k < 32 /\ u32 x = 2 ^ k)
  /\ isPowerOfTwo 0 = false.
Proof.
  split; [| reflexivity].
  apply isPowerOfTwo_true, u32_range.
Qed.

(** For a box of edges [2^lx], [2^ly], [2^lz], whatever the coordinates the
    linear index stays below the number of cells, and two coordinate triples
    have the same index exactly when they agree modulo the edges: the box is
    periodic and distinct cells of the box never share an index. *)
Theorem linearizeBoxVectorIndex_periodic b lx ly lz x y z x' y' z' :
  BoxOK b lx ly lz ->
  0 <= linearizeBoxVectorIndex b (u32 x) (u32 y) (u32 z) < 2 ^ (lx + ly + lz)
  /\ (linearizeBoxVectorIndex b (u32 x) (u32 y) (u32 z)
      = linearizeBoxVectorIndex b (u32 x') (u32 y') (u32 z')
      <-> x mod 2 ^ lx = x' mod 2 ^ lx /\ y mod 2 ^ ly = y' mod 2 ^ ly
          /\ z mod 2 ^ lz = z' mod 2 ^ lz).
Proof.
  intros Hb. split.
  - exact (linearize_lt b lx ly lz x y z Hb).
  - split.
    + exact (linearize_inj b lx ly lz x y z x' y' z' Hb).
    + intros (Ex & Ey & Ez).
      pose proof (linearize_spec b lx ly lz x y z Hb) as E1.
      pose proof (linearize_spec b lx ly lz x' y' z' Hb) as E2.
      unfold cellIndex in E1, E2. cbn [fst snd] in E1, E2.
      rewrite E1, E2, Ex, Ey, Ez. done.
Qed.

Lemma land_7 v : Z.land v 7 = v mod 8.
Proof. change 7 with (Z.ones 3). rewrite Z.land_ones by lia. done. Qed.

Lemma linearizeBondVectorIndex_eq w x y z :
  inRange w x = true -> inRange w y = true -> inRange w z = true ->
  linearizeBondVectorIndex w x y z = x mod 8 + 8 * (y mod 8) + 64 * (z mod 8).
Proof.
  intros Hx Hy Hz. unfold linearizeBondVectorIndex.
  rewrite !toIntCUDA_inRange by done. rewrite !land_7, !Z.shiftl_mul_pow2 by lia.
  pose proof (Z.mod_pos_bound x 8 ltac:(lia)). pose proof (Z.mod_pos_bound y 8 ltac:(lia)).
  pose proof (Z.mod_pos_bound z 8 ltac:(lia)).
  unfold toUintCUDA. rewrite Z.mod_small; [lia |].
  change (2 ^ 3) with 8. change (2 ^ 6) with 64.
  destruct w; cbn [bits]; lia.
Qed.

(** The index of a bond vector into the 512-entry table keeps the three
    low bits of every component: it stays below 512, and two vectors share
    an entry exactly when their components agree modulo 8.  So the vectors
    with components in [-4, 3] have entries of their own, and a component
    +4 shares the entry of -4. *)
Theorem linearizeBondVectorIndex_mod8 w x y z x' y' z' :
  inRange w x = true -> inRange w y = true -> inRange w z = true ->
  inRange w x' = true -> inRange w y' = true -> inRange w z' = true ->
  0 <= linearizeBondVectorIndex w x y z < 512
  /\ (linearizeBondVectorIndex w x y z = linearizeBondVectorIndex w x' y' z'
      <-> x mod 8 = x' mod 8 /\ y mod 8 = y' mod 8 /\ z mod 8 = z' mod 8).
Proof.
  intros Hx Hy Hz Hx' Hy' Hz'.
  rewrite !linearizeBondVectorIndex_eq by done.
  pose proof (Z.mod_pos_bound x 8 ltac:(lia)). pose proof (Z.mod_pos_bound y 8 ltac:(lia)).
  pose proof (Z.mod_pos_bound z 8 ltac:(lia)).
  pose proof (Z.mod_pos_bound x' 8 ltac:(lia)). pose proof (Z.mod_pos_bound y' 8 ltac:(lia)).
  pose proof (Z.mod_pos_bound z' 8 ltac:(lia)).
  lia.
Qed.

Lemma linearizeBoxVectorIndex_periodic_witness :
  0 <= linearizeBoxVectorIndex (mkBox 7 7 7 3 6) (u32 9) (u32 (-1)) (u32 2) < 2 ^ (3 + 3 + 3)
  /\ (linearizeBoxVectorIndex (mkBox 7 7 7 3 6) (u32 9) (u32 (-1)) (u32 2)
      = linearizeBoxVectorIndex (mkBox 7 7 7 3 6) (u32 1) (u32 7) (u32 10)
      <-> 9 mod 2 ^ 3 = 1 mod 2 ^ 3 /\ (-1) mod 2 ^ 3 = 7 mod 2 ^ 3
          /\ 2 mod 2 ^ 3 = 10 mod 2 ^ 3).
Proof.
  apply (linearizeBoxVectorIndex_periodic (mkBox 7 7 7 3 6) 3 3 3).
  constructor; cbn; lia.
Defined.

Lemma linearizeBondVectorIndex_mod8_witness :
  0 <= linearizeBondVectorIndex Int16 4 (-2) 0 < 512
  /\ (linearizeBondVectorIndex Int16 4 (-2) 0 = linearizeBondVectorIndex Int16 (-4) (-2) 0
      <-> 4 mod 8 = (-4) mod 8 /\ (-2) mod 8 = (-2) mod 8 /\ 0 mod 8 = 0 mod 8).
Proof.
  apply (linearizeBondVectorIndex_mod8 Int16); reflexivity.
Defined.

(** ** The staging calls *)

(** [copyBondSet] followed by a look-up: the entry read for a bond vector
    is the value just written when the two vectors agree modulo 8 in every
    component, and is the old entry otherwise; the table keeps its 512
    entries and the call never throws. *)
Theorem copyBondSet_lookup w e dx dy dz bondForbidden dx' dy' dz' :
  length (mForbiddenBonds e) = 512%nat ->
  inRange w dx = true -> inRange w dy = true -> inRange w dz = true ->
  inRange w dx' = true -> inRange w dy' = true -> inRange w dz' = true ->
  let r := copyBondSet w e dx dy dz bondForbidden in
  r.2 = None
  /\ length (mForbiddenBonds r.1) = 512%nat
  /\ mForbiddenBonds r.1 !! Z.to_nat (linearizeBondVectorIndex w dx' dy' dz')
     = if decide (dx mod 8 = dx' mod 8 /\ dy mod 8 = dy' mod 8 /\ dz mod 8 = dz' mod 8)
       then Some bondForbidden
       else mForbiddenBonds e !! Z.to_nat (linearizeBondVectorIndex w dx' dy' dz').
Proof.
  intros Hlen Hx Hy Hz Hx' Hy' Hz' r. unfold r, copyBondSet.
  cbn [returns fst snd mForbiddenBonds set_mForbiddenBonds].
  split; [done |]. split; [by rewrite length_insert |].
  rewrite !linearizeBondVectorIndex_eq by done.
  pose proof (Z.mod_pos_bound dx 8 ltac:(lia)). pose proof (Z.mod_pos_bound dy 8 ltac:(lia)).
  pose proof (Z.mod_pos_bound dz 8 ltac:(lia)).
  pose proof (Z.mod_pos_bound dx' 8 ltac:(lia)). pose proof (Z.mod_pos_bound dy' 8 ltac:(lia)).
  pose proof (Z.mod_pos_bound dz' 8 ltac:(lia)).
  destruct (decide _) as [(-> & -> & ->) | Hne].
  - apply list_lookup_insert_eq. lia.
  - apply list_lookup_insert_ne. intros E. apply Hne. lia.
Qed.

Lemma copyBondSet_lookup_witness :
  let r := copyBondSet Int16 (UpdaterGPUScBFM_AB_Type (replicate 512 true)) 4 0 0 false in
  r.2 = None
  /\ length (mForbiddenBonds r.1) = 512%nat
  /\ mForbiddenBonds r.1 !! Z.to_nat (linearizeBondVectorIndex Int16 (-4) 0 0)
     = if decide (4 mod 8 = (-4) mod 8 /\ 0 mod 8 = 0 mod 8 /\ 0 mod 8 = 0 mod 8)
       then Some false
       else mForbiddenBonds (UpdaterGPUScBFM_AB_Type (replicate 512 true))
              !! Z.to_nat (linearizeBondVectorIndex Int16 (-4) 0 0).
Proof.
  apply (copyBondSet_lookup Int16 (UpdaterGPUScBFM_AB_Type (replicate 512 true)) 4 0 0 false
           (-4) 0 0); reflexivity.
Defined.

(** A [setNrOfAllMonomers( n )] that returns leaves [n] monomers without
    neighbours, and it can be called only once: every further call throws
    and changes nothing, also after a call with [n = 0].  The coordinate
    array gets [4 n] entries as a [uint32_t] product: four per monomer for
    [n < 2^30], and fewer than that from [n = 2^30] on, where the product
    wraps around. *)
Theorem setNrOfAllMonomers_only_once e n :
  Z.of_nat n < 2 ^ 32 ->
  (setNrOfAllMonomers e n).2 = None ->
  let e' := (setNrOfAllMonomers e n).1 in
  nAllMonomers e' = n
  /\ Z.of_nat (length (mPolymerSystem e')) = (4 * Z.of_nat n) mod 2 ^ 32
  /\ (Z.of_nat n < 2 ^ 30 -> length (mPolymerSystem e') = (4 * n)%nat)
  /\ (2 ^ 30 <= Z.of_nat n -> (length (mPolymerSystem e') < 4 * n)%nat)
  /\ length (mNeighbors e') = n
  /\ (forall i edges, mNeighbors e' !! i = Some edges ->
        size edges = 0%nat /\ length (neighborIds edges) = MAX_CONNECTIVITY)
  /\ forall n', setNrOfAllMonomers e' n' = throws e' MonomersAlreadySet.
Proof.
  intros Hn32. unfold setNrOfAllMonomers.
  destruct (negb (nAllMonomers e =? 0)%nat || isAllocated (mAttributeSystem e)
            || isAllocated (mPolymerSystemSorted (host e))
            || isAllocated (mNeighborsSorted (host e))) eqn:Hguard; [done |].
  intros _. cbn [returns fst snd].
  cbn [nAllMonomers mPolymerSystem mNeighbors set_mNeighbors set_mPolymerSystem
       set_mAttributeSystem set_nAllMonomers mAttributeSystem host].
  assert (Hlen : Z.of_nat (length (resize (mPolymerSystem e)
                                     (Z.to_nat (u32 (Z.of_nat n * 4))) 0))
                 = (4 * Z.of_nat n) mod 2 ^ 32).
  { unfold resize. rewrite length_app, length_take, length_replicate.
    pose proof (u32_range (Z.of_nat n * 4)) as Hr. unfold u32 in *.
    rewrite (Z.mul_comm 4). lia. }
  split; [done |]. split; [exact Hlen |]. split.
  { intros Hsmall. rewrite Z.mod_small in Hlen by lia. lia. }
  split.
  { intros Hbig. pose proof (Z.mod_pos_bound (4 * Z.of_nat n) (2 ^ 32) ltac:(lia)). lia. }
  split; [by rewrite length_replicate |]. split.
  { intros i edges Hi. apply lookup_replicate in Hi as [-> _].
    split; [done | apply length_replicate]. }
  intros n'. cbn [isAllocated]. by rewrite !orb_true_r.
Qed.

(** Three monomers get twelve coordinate entries. *)
Lemma setNrOfAllMonomers_only_once_witness :
  let e' := (setNrOfAllMonomers (UpdaterGPUScBFM_AB_Type []) 3).1 in
  nAllMonomers e' = 3%nat
  /\ Z.of_nat (length (mPolymerSystem e')) = (4 * Z.of_nat 3) mod 2 ^ 32
  /\ (Z.of_nat 3 < 2 ^ 30 -> length (mPolymerSystem e') = (4 * 3)%nat)
  /\ (2 ^ 30 <= Z.of_nat 3 -> (length (mPolymerSystem e') < 4 * 3)%nat)
  /\ length (mNeighbors e') = 3%nat
  /\ (forall i edges, mNeighbors e' !! i = Some edges ->
        size edges = 0%nat /\ length (neighborIds edges) = MAX_CONNECTIVITY)
  /\ forall n', setNrOfAllMonomers e' n' = throws e' MonomersAlreadySet.
Proof.
  apply (setNrOfAllMonomers_only_once (UpdaterGPUScBFM_AB_Type []) 3).
  - lia.
  - reflexivity.
Defined.

Section Staging.
Variable w : IntWidth.

Lemma polymerSystemAtPut_ok e k v :
  (k < length (mPolymerSystem e))%nat ->
  polymerSystemAtPut w e k v
  = returns (set_mPolymerSystem e (<[k := toIntCUDA w v]> (mPolymerSystem e))).
Proof.
  intros Hk. unfold polymerSystemAtPut.
  destruct (Nat.ltb_spec k (length (mPolymerSystem e))); [done | lia].
Qed.

Lemma setMonomerCoordinates_ok e i x y z :
  inRange w x = true -> inRange w y = true -> inRange w z = true ->
  (4 * i + 2 < length (mPolymerSystem e))%nat ->
  setMonomerCoordinates w e i x y z
  = returns (set_mPolymerSystem e
               (<[(4 * i + 2)%nat := z]>
                  (<[(4 * i + 1)%nat := y]> (<[(4 * i + 0)%nat := x]> (mPolymerSystem e))))).
Proof.
  intros Hx Hy Hz Hlen. unfold setMonomerCoordinates.
  rewrite Hx, Hy, Hz. cbn [negb orb].
  rewrite polymerSystemAtPut_ok by lia. cbn [andThen returns].
  rewrite polymerSystemAtPut_ok by (cbn; rewrite length_insert; lia). cbn [andThen returns].
  rewrite polymerSystemAtPut_ok by (cbn; rewrite !length_insert; lia).
  cbn [returns fst snd mPolymerSystem set_mPolymerSystem mNeighbors].
  rewrite !toIntCUDA_inRange by done. done.
Qed.

(** [setMonomerCoordinates] followed by the three getters returns the
    coordinates that were set; the property tag of the monomer and every
    entry of every other monomer stay as they were. *)
Theorem setMonomerCoordinates_get e i x y z :
  inRange w x = true -> inRange w y = true -> inRange w z = true ->
  (4 * i + 2 < length (mPolymerSystem e))%nat ->
  let r := setMonomerCoordinates w e i x y z in
  r.2 = None
  /\ getMonomerPositionInX r.1 i = x
  /\ getMonomerPositionInY r.1 i = y
  /\ getMonomerPositionInZ r.1 i = z
  /\ (forall k, k <> (4 * i + 0)%nat -> k <> (4 * i + 1)%nat -> k <> (4 * i + 2)%nat ->
        mPolymerSystem r.1 !! k = mPolymerSystem e !! k)
  /\ mNeighbors r.1 = mNeighbors e
  /\ length (mPolymerSystem r.1) = length (mPolymerSystem e).
Proof.
  intros Hx Hy Hz Hlen r. unfold r. rewrite setMonomerCoordinates_ok by done.
  cbn [returns fst snd mPolymerSystem set_mPolymerSystem mNeighbors].
  unfold getMonomerPositionInX, getMonomerPositionInY, getMonomerPositionInZ.
  cbn [mPolymerSystem set_mPolymerSystem].
  split; [done |]. split.
  { rewrite !list_lookup_insert_ne by lia.
    rewrite list_lookup_insert_eq by lia. done. }
  split.
  { rewrite list_lookup_insert_ne by lia.
    rewrite list_lookup_insert_eq by (rewrite length_insert; lia). done. }
  split.
  { rewrite list_lookup_insert_eq by (rewrite !length_insert; lia). done. }
  split.
  { intros k H0 H1 H2. by rewrite !list_lookup_insert_ne. }
  split; [done |]. by rewrite !length_insert.
Qed.

(** On an array of [4 n] entries, as [setNrOfAllMonomers] sizes it for
    [n < 2^30], and for a monomer index below [2^30], for which the
    [uint32_t] products [4*i+k] of the source do not wrap around:
    [setMonomerCoordinates] throws exactly when a coordinate does not fit
    [intCUDA] or the monomer index is not below [n], and a call that throws
    leaves the object as it was. *)
Theorem setMonomerCoordinates_throws_unchanged e n i x y z :
  Z.of_nat i < 2 ^ 30 ->
  length (mPolymerSystem e) = (4 * n)%nat ->
  let r := setMonomerCoordinates w e i x y z in
  (r.2 <> None <-> inRange w x && inRange w y && inRange w z = false \/ (n <= i)%nat)
  /\ (r.2 <> None -> r.1 = e)
  /\ (inRange w x && inRange w y && inRange w z = false -> r.2 = Some CoordinateTooLarge)
  /\ (inRange w x && inRange w y && inRange w z = true -> (n <= i)%nat ->
      r.2 = Some VectorOutOfRange).
Proof.
  intros _ Hlen r.
  destruct (inRange w x && inRange w y && inRange w z) eqn:Hr.
  - apply andb_true_iff in Hr as [Hr Hz]. apply andb_true_iff in Hr as [Hx Hy].
    destruct (Nat.le_gt_cases n i) as [Hi | Hi].
    + assert (E : r = throws e VectorOutOfRange).
      { unfold r, setMonomerCoordinates. rewrite Hx, Hy, Hz. cbn [negb orb].
        unfold polymerSystemAtPut at 1.
        destruct (Nat.ltb_spec (4 * i + 0) (length (mPolymerSystem e))); [lia | done]. }
      rewrite E. cbn. split; [| done]. split; [by right | done].
    + assert (E : r.2 = None).
      { unfold r. by rewrite setMonomerCoordinates_ok by (try done; lia). }
      rewrite E. split; [| repeat split; try done; intros; lia].
      split; [done |]. intros [? | ?]; [done | lia].
  - assert (E : r = throws e CoordinateTooLarge).
    { unfold r, setMonomerCoordinates.
      destruct (inRange w x), (inRange w y), (inRange w z); done. }
    rewrite E. cbn. split; [| done]. split; [by left | done].
Qed.

End Staging.

Lemma setMonomerCoordinates_get_witness :
  let r := setMonomerCoordinates Int16
             (setNrOfAllMonomers (UpdaterGPUScBFM_AB_Type []) 2).1 1 4 2 (-3) in
  r.2 = None
  /\ getMonomerPositionInX r.1 1 = 4
  /\ getMonomerPositionInY r.1 1 = 2
  /\ getMonomerPositionInZ r.1 1 = -3
  /\ (forall k, k <> (4 * 1 + 0)%nat -> k <> (4 * 1 + 1)%nat -> k <> (4 * 1 + 2)%nat ->
        mPolymerSystem r.1 !! k
        = mPolymerSystem (setNrOfAllMonomers (UpdaterGPUScBFM_AB_Type []) 2).1 !! k)
  /\ mNeighbors r.1 = mNeighbors (setNrOfAllMonomers (UpdaterGPUScBFM_AB_Type []) 2).1
  /\ length (mPolymerSystem r.1)
     = length (mPolymerSystem (setNrOfAllMonomers (UpdaterGPUScBFM_AB_Type []) 2).1).
Proof.
  apply (setMonomerCoordinates_get Int16
           (setNrOfAllMonomers (UpdaterGPUScBFM_AB_Type []) 2).1 1 4 2 (-3));
    [reflexivity | reflexivity | reflexivity | vm_compute; lia].
Defined.

Lemma setMonomerCoordinates_throws_unchanged_witness :
  let e := (setNrOfAllMonomers (UpdaterGPUScBFM_AB_Type []) 2).1 in
  let r := setMonomerCoordinates Int16 e 2 40000 0 0 in
  (r.2 <> None <-> inRange Int16 40000 && inRange Int16 0 && inRange Int16 0 = false
                   \/ (2 <= 2)%nat)
  /\ (r.2 <> None -> r.1 = e)
  /\ (inRange Int16 40000 && inRange Int16 0 && inRange Int16 0 = false ->
      r.2 = Some CoordinateTooLarge)
  /\ (inRange Int16 40000 && inRange Int16 0 && inRange Int16 0 = true -> (2 <= 2)%nat ->
      r.2 = Some VectorOutOfRange).
Proof.
  apply (setMonomerCoordinates_throws_unchanged Int16
           (setNrOfAllMonomers (UpdaterGPUScBFM_AB_Type []) 2).1 2 2 40000 0 0).
  - lia.
  - reflexivity.
Defined.

(** A [setConnectivity( i, j )] on a monomer with fewer than
    [MAX_CONNECTIVITY] neighbours returns, stores [j] in the first free
    slot and counts it; the slots filled before and the neighbour lists of
    all other monomers, that of [j] included, stay as they were: the bond is
    stored in one direction only. *)
Theorem setConnectivity_appends e iMonomer1 iMonomer2 edges :
  mNeighbors e !! iMonomer1 = Some edges ->
  (size edges < MAX_CONNECTIVITY)%nat ->
  length (neighborIds edges) = MAX_CONNECTIVITY ->
  let r := setConnectivity e iMonomer1 iMonomer2 in
  r.2 = None
  /\ (exists edges',
        mNeighbors r.1 !! iMonomer1 = Some edges'
        /\ size edges' = S (size edges)
        /\ neighborIds edges' !! size edges = Some iMonomer2
        /\ (forall k, k <> size edges -> neighborIds edges' !! k = neighborIds edges !! k))
  /\ (forall i, i <> iMonomer1 -> mNeighbors r.1 !! i = mNeighbors e !! i)
  /\ mPolymerSystem r.1 = mPolymerSystem e.
Proof.
  intros He Hsize Hlen r. unfold r, setConnectivity. rewrite He. cbn [default from_option id].
  unfold MAX_CONNECTIVITY in *.
  destruct (Nat.ltb_spec (7 - 1) (size edges)); [lia |].
  cbn [returns fst snd mNeighbors set_mNeighbors size neighborIds mPolymerSystem].
  assert (Hlt : (iMonomer1 < length (mNeighbors e))%nat) by by apply lookup_lt_Some in He.
  split; [done |]. split.
  { eexists. split.
    - apply list_lookup_insert_eq. by rewrite length_insert.
    - cbn. split; [lia |]. split.
      + apply list_lookup_insert_eq. lia.
      + intros k Hk. by apply list_lookup_insert_ne. }
  split; [| done].
  intros i Hi. by rewrite !list_lookup_insert_ne.
Qed.

Lemma setConnectivity_appends_witness :
  let e := (setNrOfAllMonomers (UpdaterGPUScBFM_AB_Type []) 2).1 in
  let edges := mkMonomerEdges 0 (replicate MAX_CONNECTIVITY 0%nat) in
  let r := setConnectivity e 0 1 in
  r.2 = None
  /\ (exists edges',
        mNeighbors r.1 !! 0%nat = Some edges'
        /\ size edges' = S (size edges)
        /\ neighborIds edges' !! size edges = Some 1%nat
        /\ (forall k, k <> size edges -> neighborIds edges' !! k = neighborIds edges !! k))
  /\ (forall i, i <> 0%nat -> mNeighbors r.1 !! i = mNeighbors e !! i)
  /\ mPolymerSystem r.1 = mPolymerSystem e.
Proof.
  apply (setConnectivity_appends (setNrOfAllMonomers (UpdaterGPUScBFM_AB_Type []) 2).1 0 1
           (mkMonomerEdges 0 (replicate MAX_CONNECTIVITY 0%nat)));
    [reflexivity | vm_compute; lia | reflexivity].
Defined.

(** ** [setLatticeSize] *)

Lemma log2Loop_log2 fuel x acc :
  0 < x < 2 ^ Z.of_nat fuel -> log2Loop fuel x acc = acc + Z.log2 x.
Proof.
  revert x acc. induction fuel as [| fuel IH]; intros x acc Hx.
  { change (2 ^ Z.of_nat 0) with 1 in Hx. lia. }
  cbn [log2Loop].
  assert (Hdiv : Z.shiftr x 1 = x / 2) by (rewrite Z.shiftr_div_pow2 by lia; done).
  destruct (Z.eqb_spec (Z.shiftr x 1) 0) as [E | E].
  - rewrite Hdiv in E. assert (x = 1) by (apply Z.div_small_iff in E; lia).
    subst x. cbn. lia.
  - assert (Hx2 : 2 <= x).
    { destruct (Z.le_gt_cases 2 x); [done |]. rewrite Hdiv, Z.div_small in E; lia. }
    rewrite IH.
    + rewrite Z.log2_shiftr by lia.
      assert (1 <= Z.log2 x) by (apply Z.log2_le_pow2; cbn; lia). lia.
    + rewrite Hdiv. split; [apply Z.div_str_pos; lia |].
      apply Z.div_lt_upper_bound; [lia |].
      rewrite Nat2Z.inj_succ, Z.pow_succ_r in Hx by lia. lia.
Qed.

Lemma shift_test_isPowerOfTwo x :
  0 <= x < 2 ^ 32 ->
  (x =? shl32 1 (log2Loop 32 x 0)) = isPowerOfTwo x.
Proof.
  intros Hx. destruct (Z.eq_dec x 0) as [-> | Hne]; [done |].
  rewrite log2Loop_log2 by (change (Z.of_nat 32) with 32; lia). rewrite Z.add_0_l.
  pose proof (Z.log2_spec x ltac:(lia)) as Hlog. pose proof (Z.log2_nonneg x).
  assert (Hk : Z.log2 x < 32) by (apply Z.log2_lt_pow2; lia).
  rewrite shl32_small; [| lia | lia |].
  2:{ pose proof (Z.pow_lt_mono_r 2 (Z.log2 x) 32 ltac:(lia) ltac:(lia) ltac:(lia)). lia. }
  rewrite Z.mul_1_l. apply eq_iff_eq_true. rewrite Z.eqb_eq.
  rewrite isPowerOfTwo_true by lia.
  split.
  - intros E. exists (Z.log2 x). split; [lia | done].
  - intros (k & Hk' & E). rewrite E at 2. rewrite Z.log2_pow2 by lia. done.
Qed.

Section LatticeSize.
Variable w : IntWidth.

(** What [setLatticeSize] tests: called with edges that fit [intCUDA] and
    are not the ones already stored, it returns normally exactly when
    [boxX] and the 32-bit product [boxX * boxY] are powers of two, and
    otherwise throws the power-of-two error; [boxZ] is never examined.  In
    both cases the object holds the new edges and masks afterwards. *)
Theorem setLatticeSize_accepts_iff e boxX boxY boxZ :
  0 <= boxX ->
  inRange w boxX = true -> inRange w boxY = true -> inRange w boxZ = true ->
  (mBoxX (mBox e) =? boxX) && (mBoxY (mBox e) =? boxY) && (mBoxZ (mBox e) =? boxZ) = false ->
  let r := setLatticeSize w e boxX boxY boxZ in
  (r.2 = None <-> isPowerOfTwo boxX = true /\ isPowerOfTwo (u32 (boxX * boxY)) = true)
  /\ (r.2 = None \/ r.2 = Some BoxNotPowerOfTwo)
  /\ mBoxX (mBox r.1) = boxX /\ mBoxY (mBox r.1) = boxY /\ mBoxZ (mBox r.1) = boxZ
  /\ mBoxZM1 (mBox r.1) = u32 (boxZ - 1).
Proof.
  intros Hx Rx Ry Rz Hdiff r. unfold r, setLatticeSize.
  rewrite Hdiff, Rx, Ry, Rz. cbn [andb negb].
  assert (Bx : 0 <= boxX < 2 ^ 32) by (apply inRange_bounds in Rx; lia).
  rewrite (shift_test_isPowerOfTwo boxX Bx).
  rewrite (shift_test_isPowerOfTwo (u32 (boxX * boxY)) (u32_range _)).
  destruct (isPowerOfTwo boxX), (isPowerOfTwo (u32 (boxX * boxY))); cbn;
    (split; [split; [intros ?; done | intros [? ?]; done] |]); auto.
Qed.

(** The power-of-two error of [setLatticeSize] is thrown after the new
    edges are stored: the object keeps them, while [mLattice] is the old
    array, and a second call with the same edges finds them stored and
    returns normally without another test. *)
Theorem setLatticeSize_retry_returns e boxX boxY boxZ :
  (setLatticeSize w e boxX boxY boxZ).2 = Some BoxNotPowerOfTwo ->
  let e1 := (setLatticeSize w e boxX boxY boxZ).1 in
  mBoxX (mBox e1) = boxX /\ mBoxY (mBox e1) = boxY /\ mBoxZ (mBox e1) = boxZ
  /\ mLattice e1 = mLattice e
  /\ setLatticeSize w e1 boxX boxY boxZ = returns e1.
Proof.
  unfold setLatticeSize at 1 2.
  destruct ((mBoxX (mBox e) =? boxX) && (mBoxY (mBox e) =? boxY)
            && (mBoxZ (mBox e) =? boxZ)); [done |].
  destruct (negb (inRange w boxX && inRange w boxY && inRange w boxZ)); [done |].
  cbv zeta.
  destruct (negb (boxX =? shl32 1 (log2Loop 32 boxX 0))
            || negb (u32 (boxX * boxY) =? shl32 1 (log2Loop 32 (u32 (boxX * boxY)) 0)));
    [| done].
  intros _. cbn [throws fst snd mBox set_mBox mBoxX mBoxY mBoxZ mLattice].
  split; [done |]. split; [done |]. split; [done |]. split; [done |].
  unfold setLatticeSize. cbn [mBox set_mBox mBoxX mBoxY mBoxZ].
  by rewrite !Z.eqb_refl.
Qed.

End LatticeSize.

Lemma setLatticeSize_accepts_iff_witness :
  let r := setLatticeSize Int16 (UpdaterGPUScBFM_AB_Type []) 8 8 5 in
  (r.2 = None <-> isPowerOfTwo 8 = true /\ isPowerOfTwo (u32 (8 * 8)) = true)
  /\ (r.2 = None \/ r.2 = Some BoxNotPowerOfTwo)
  /\ mBoxX (mBox r.1) = 8 /\ mBoxY (mBox r.1) = 8 /\ mBoxZ (mBox r.1) = 5
  /\ mBoxZM1 (mBox r.1) = u32 (5 - 1).
Proof.
  apply (setLatticeSize_accepts_iff Int16 (UpdaterGPUScBFM_AB_Type []) 8 8 5);
    first [lia | reflexivity].
Defined.

Lemma setLatticeSize_retry_returns_witness :
  let e1 := (setLatticeSize Int16 (UpdaterGPUScBFM_AB_Type []) 6 8 8).1 in
  mBoxX (mBox e1) = 6 /\ mBoxY (mBox e1) = 8 /\ mBoxZ (mBox e1) = 8
  /\ mLattice e1 = mLattice (UpdaterGPUScBFM_AB_Type [])
  /\ setLatticeSize Int16 e1 6 8 8 = returns e1.
Proof.
  apply (setLatticeSize_retry_returns Int16 (UpdaterGPUScBFM_AB_Type []) 6 8 8).
  reflexivity.
Defined.

(** ** The layout computed by [initialize] *)

Lemma occurrences_cons g x gs :
  occurrences g (x :: gs) = ((if decide (x = g) then 1 else 0) + occurrences g gs)%nat.
Proof.
  unfold occurrences. rewrite filter_cons. by destruct (decide (x = g)).
Qed.

Lemma occurrences_app g gs gs' :
  occurrences g (gs ++ gs') = (occurrences g gs + occurrences g gs')%nat.
Proof. unfold occurrences. by rewrite filter_app, length_app. Qed.

Lemma resize_lookup_default (n : list nat) k g :
  (length n <= k)%nat -> default 0%nat (resize n k 0%nat !! g) = default 0%nat (n !! g).
Proof.
  intros Hk. unfold resize. rewrite take_ge by lia.
  destruct (Nat.lt_ge_cases g (length n)) as [Hg | Hg].
  - by rewrite lookup_app_l.
  - rewrite lookup_app_r by lia. rewrite (lookup_ge_None_2 n g) by lia.
    destruct (Nat.lt_ge_cases (g - length n) (k - length n)) as [Hg' | Hg'].
    + by rewrite lookup_replicate_2.
    + rewrite lookup_ge_None_2; [done |]. by rewrite length_replicate.
Qed.

Lemma resize_length {A} (n : list A) k v : length (resize n k v) = k.
Proof. unfold resize. rewrite length_app, length_take, length_replicate. lia. Qed.

Lemma sum_list_insert_S (l : list nat) i v :
  l !! i = Some v -> sum_list (<[i := S v]> l) = S (sum_list l).
Proof.
  revert i. induction l as [| a l IH]; intros [| i] Hv; try done.
  - injection Hv as ->. cbn. lia.
  - change (a + sum_list (<[i := S v]> l) = S (a + sum_list l))%nat.
    rewrite (IH i Hv). lia.
Qed.

Lemma countStep_facts (n : list nat) g0 :
  let n1 := if (length n <=? g0)%nat then resize n (g0 + 1) 0%nat else n in
  let n' := <[g0 := S (default 0%nat (n1 !! g0))]> n1 in
  length n' = Nat.max (length n) (S g0)
  /\ (forall g, default 0%nat (n' !! g)
                = ((if decide (g0 = g) then 1 else 0) + default 0%nat (n !! g))%nat)
  /\ sum_list n' = S (sum_list n).
Proof.
  intros n1 n'.
  assert (H1 : length n1 = Nat.max (length n) (S g0)
               /\ (forall g, default 0%nat (n1 !! g) = default 0%nat (n !! g))
               /\ sum_list n1 = sum_list n).
  { unfold n1. destruct (Nat.leb_spec (length n) g0) as [Hle | Hgt].
    - split; [rewrite resize_length; lia |]. split.
      + intros g. apply resize_lookup_default. lia.
      + unfold resize. rewrite take_ge by lia. rewrite sum_list_with_app, sum_list_replicate. lia.
    - split; [lia | done]. }
  destruct H1 as (Hlen & Hlook & Hsum).
  assert (Hg0 : (g0 < length n1)%nat) by lia.
  split; [unfold n'; rewrite length_insert; lia |]. split.
  - intros g. unfold n'. destruct (decide (g0 = g)) as [<- | Hne].
    + rewrite list_lookup_insert_eq by done. cbn. by rewrite Hlook.
    + rewrite list_lookup_insert_ne by done. by rewrite Hlook.
  - unfold n'. destruct (lookup_lt_is_Some_2 n1 g0 Hg0) as [v Hv].
    rewrite Hv. cbn [default from_option id].
    rewrite <- Hsum. by apply sum_list_insert_S.
Qed.

Lemma countElementsInGroup_from (n0 : list nat) groupIds :
  let n := foldl (fun n g =>
                    let n := if (length n <=? g)%nat then resize n (g + 1) 0%nat else n in
                    <[g := S (default 0%nat (n !! g))]> n) n0 groupIds in
  length n = Nat.max (length n0) (max_list (S <$> groupIds))
  /\ (forall g, default 0%nat (n !! g)
                = (default 0%nat (n0 !! g) + occurrences g groupIds)%nat)
  /\ sum_list n = (sum_list n0 + length groupIds)%nat.
Proof.
  revert n0. induction groupIds as [| g0 gs IH]; intros n0.
  { cbn [foldl fmap list_fmap max_list length]. split; [lia |].
    split; [intros; unfold occurrences; cbn; lia |]. by rewrite Nat.add_0_r. }
  cbn [foldl]. destruct (countStep_facts n0 g0) as (Hlen & Hlook & Hsum).
  cbv zeta in Hlen, Hlook, Hsum.
  destruct (IH (<[g0 := S (default 0%nat
                  ((if (length n0 <=? g0)%nat then resize n0 (g0 + 1) 0%nat else n0) !! g0))]>
                  (if (length n0 <=? g0)%nat then resize n0 (g0 + 1) 0%nat else n0)))
    as (IHlen & IHlook & IHsum).
  cbv zeta in *. split.
  - rewrite IHlen, Hlen. cbn [fmap list_fmap max_list]. unfold id. lia.
  - split.
    + intros g. rewrite IHlook, Hlook, occurrences_cons. lia.
    + rewrite IHsum, Hsum. cbn [length]. generalize (sum_list n0). lia.
Qed.

(** The counting loop of [initialize]: entry [g] of [mnElementsInGroup] is
    the number of monomers of species [g], there is an entry for every
    species up to the largest one in use, and the entries add up to the
    number of monomers. *)
Theorem countElementsInGroup_counts groupIds :
  length (countElementsInGroup groupIds) = max_list (S <$> groupIds)
  /\ (forall g, default 0%nat (countElementsInGroup groupIds !! g) = occurrences g groupIds)
  /\ sum_list (countElementsInGroup groupIds) = length groupIds.
Proof.
  destruct (countElementsInGroup_from [] groupIds) as (Hlen & Hlook & Hsum).
  cbv zeta in *. unfold countElementsInGroup. split; [| split].
  - rewrite Hlen. cbn. lia.
  - intros g. rewrite Hlook. by rewrite lookup_nil.
  - rewrite Hsum. done.
Qed.

Lemma ceilDiv_pad n a :
  (0 < a)%nat -> (n <= ceilDiv n a * a <= n + a - 1)%nat.
Proof.
  intros Ha. unfold ceilDiv.
  pose proof (Nat.mul_succ_div_gt (n + a - 1) a ltac:(lia)).
  pose proof (Nat.Div0.mul_div_le (n + a - 1) a).
  lia.
Qed.

Section Offsets.
Variable nElementsAlignment : nat.
Variable nElements : list nat.

(** The size of the region of species [i], its count padded to the
    alignment. *)
Local Abbreviation region i :=
  (ceilDiv (default 0%nat (nElements !! i)) nElementsAlignment * nElementsAlignment)%nat
  (only parsing).

Lemma subGroupOffsets_prefix offsets k :
  length offsets = length nElements -> (k <= length nElements - 1)%nat ->
  let r := foldl (fun offsets i =>
                    <[i := (default 0 (offsets !! (i - 1))
                            + ceilDiv (default 0 (nElements !! (i - 1))) nElementsAlignment
                              * nElementsAlignment)%nat]> offsets)
                 offsets (seq 1 k) in
  length r = length nElements
  /\ r !! 0%nat = offsets !! 0%nat
  /\ forall i, (i < k)%nat ->
       r !! S i = Some (default 0 (r !! i) + region i)%nat.
Proof.
  intros Hlen. induction k as [| k IH]; intros Hk.
  { cbn. split; [done |]. split; [done |]. intros; lia. }
  rewrite seq_S, foldl_app. cbn [foldl]. cbv zeta.
  destruct (IH ltac:(lia)) as (IHlen & IH0 & IHi). cbv zeta in IHlen, IH0, IHi.
  set (r := foldl _ offsets (seq 1 k)) in *.
  replace (1 + k - 1)%nat with k by lia. replace (1 + k)%nat with (S k) by lia.
  split; [by rewrite length_insert |]. split.
  { rewrite list_lookup_insert_ne by lia. done. }
  intros i Hi. destruct (decide (i = k)) as [-> | Hne].
  - rewrite list_lookup_insert_eq by lia.
    rewrite list_lookup_insert_ne by lia. done.
  - rewrite !list_lookup_insert_ne by lia. apply IHi. lia.
Qed.

Lemma subGroupOffsets_lookup old :
  let offsets :=
    subGroupOffsets nElementsAlignment nElements
      (<[0%nat := 0%nat]> (resize old (length nElements) 0%nat)) in
  length offsets = length nElements
  /\ (forall i n, nElements !! i = Some n ->
        exists a, offsets !! i = Some a
                  /\ (i = 0%nat -> a = 0%nat)
                  /\ (S i < length nElements ->
                      offsets !! S i
                      = Some (a + ceilDiv n nElementsAlignment * nElementsAlignment))%nat).
Proof.
  intros offsets.
  destruct (subGroupOffsets_prefix (<[0%nat := 0%nat]> (resize old (length nElements) 0%nat))
              (length nElements - 1)) as (Hlen & H0 & Hi).
  { by rewrite length_insert, resize_length. }
  { lia. }
  cbv zeta in Hlen, H0, Hi. fold (subGroupOffsets nElementsAlignment nElements
    (<[0%nat := 0%nat]> (resize old (length nElements) 0%nat))) in Hlen, H0, Hi.
  fold offsets in Hlen, H0, Hi.
  split; [done |].
  intros i n Hn. pose proof (lookup_lt_Some _ _ _ Hn) as Hlt.
  destruct (lookup_lt_is_Some_2 offsets i ltac:(lia)) as [a Ha].
  exists a. split; [done |]. split.
  - intros ->. rewrite H0, list_lookup_insert_eq in Ha by (rewrite resize_length; lia).
    by injection Ha.
  - intros HS. rewrite Hi by lia. by rewrite Ha, Hn.
Qed.

(** The offsets installed by [initialize]: the first region starts at 0,
    every following region starts where the previous one ends, a region has
    room for all monomers of its species, which is the assertion the source
    makes in the loop, and every offset is a multiple of the alignment. *)
Theorem subGroupOffsets_regions old :
  (0 < nElementsAlignment)%nat ->
  let offsets :=
    subGroupOffsets nElementsAlignment nElements
      (<[0%nat := 0%nat]> (resize old (length nElements) 0%nat)) in
  length offsets = length nElements
  /\ (forall i, (i < length nElements)%nat ->
        exists a n, offsets !! i = Some a /\ nElements !! i = Some n
                    /\ (nElementsAlignment | a)%nat
                    /\ (i = 0%nat -> a = 0%nat)
                    /\ (S i < length nElements ->
                        exists b, offsets !! S i = Some b
                                  /\ b = (a + ceilDiv n nElementsAlignment
                                              * nElementsAlignment)%nat
                                  /\ (n <= b - a)%nat))%nat.
Proof.
  intros Ha offsets.
  destruct (subGroupOffsets_lookup old) as [Hlen H]. cbv zeta in Hlen, H.
  fold offsets in Hlen, H. split; [done |].
  assert (Hdiv : forall i, (i < length nElements)%nat ->
            exists a, offsets !! i = Some a /\ (nElementsAlignment | a)%nat).
  { induction i as [| i IHi]; intros Hlt.
    - destruct (lookup_lt_is_Some_2 nElements 0%nat Hlt) as [n Hn].
      destruct (H 0%nat n Hn) as (a & Hoa & Hz & _). exists a. split; [done |].
      rewrite Hz by done. apply Nat.divide_0_r.
    - destruct (IHi ltac:(lia)) as (a & Hoa & Hda).
      destruct (lookup_lt_is_Some_2 nElements i ltac:(lia)) as [n Hn].
      destruct (H i n Hn) as (a' & Hoa' & _ & Hnext).
      assert (a' = a) by congruence. subst a'.
      eexists. split; [by apply Hnext |].
      apply Nat.divide_add_r; [done |]. apply Nat.divide_factor_r. }
  intros i Hlt. destruct (Hdiv i Hlt) as (a & Hoa & Hda).
  destruct (lookup_lt_is_Some_2 nElements i Hlt) as [n Hn].
  destruct (H i n Hn) as (a' & Hoa' & Hz & Hnext).
  assert (a' = a) by congruence. subst a'.
  exists a, n. split; [done |]. split; [done |]. split; [done |]. split; [done |].
  intros HS. eexists. split; [by apply Hnext |]. split; [done |].
  pose proof (ceilDiv_pad n nElementsAlignment Ha). lia.
Qed.

End Offsets.

Lemma subGroupOffsets_regions_witness :
  let offsets := subGroupOffsets 32 [3; 40]%nat (<[0%nat := 0%nat]> (resize [] 2 0%nat)) in
  length offsets = 2%nat
  /\ (forall i, (i < 2)%nat ->
        exists a n, offsets !! i = Some a /\ [3; 40]%nat !! i = Some n
                    /\ (32 | a)%nat
                    /\ (i = 0%nat -> a = 0%nat)
                    /\ (S i < 2 ->
                        exists b, offsets !! S i = Some b
                                  /\ b = (a + ceilDiv n 32 * 32)%nat
                                  /\ (n <= b - a)%nat))%nat.
Proof.
  apply (subGroupOffsets_regions 32 [3; 40]%nat []). lia.
Defined.

Lemma occurrences_take_le g (gs : list nat) i k :
  (i <= k)%nat -> (occurrences g (take i gs) <= occurrences g (take k gs))%nat.
Proof.
  intros Hik. rewrite <- (take_drop i (take k gs)), occurrences_app.
  rewrite take_take. replace (i `min` k)%nat with i by lia. lia.
Qed.

Lemma occurrences_take_S g (gs : list nat) i :
  gs !! i = Some g ->
  occurrences g (take (S i) gs) = S (occurrences g (take i gs)).
Proof.
  intros Hi. rewrite (take_S_r gs i g Hi), occurrences_app, occurrences_cons.
  rewrite decide_True by done. change (occurrences g []) with 0%nat. lia.
Qed.

Lemma occurrences_take_S_ne g g' (gs : list nat) i :
  gs !! i = Some g' -> g' <> g ->
  occurrences g (take (S i) gs) = occurrences g (take i gs).
Proof.
  intros Hi Hne. rewrite (take_S_r gs i g' Hi), occurrences_app, occurrences_cons.
  rewrite decide_False by done. change (occurrences g []) with 0%nat. lia.
Qed.

Lemma occurrences_take_lt g (gs : list nat) i :
  gs !! i = Some g -> (occurrences g (take i gs) < occurrences g gs)%nat.
Proof.
  intros Hi. pose proof (occurrences_take_S g gs i Hi).
  pose proof (occurrences_take_le g gs (S i) (length gs)
                ltac:(apply lookup_lt_Some in Hi; lia)) as Hle.
  rewrite firstn_all in Hle. lia.
Qed.

Section SortedIndices.
Variable groupIds : list nat.
Variable offsets : list nat.
Variable padded : nat.

(** The slot of monomer [i]: the offset of its species plus the number of
    monomers of that species before it. *)
Local Abbreviation slot i :=
  (default 0 (offsets !! default 0 (groupIds !! i))
   + occurrences (default 0 (groupIds !! i)) (take i groupIds))%nat (only parsing).

Hypothesis groups_known : forall i g, groupIds !! i = Some g -> (g < length offsets)%nat.
Hypothesis regions_apart : forall g g' a b,
  (g < g')%nat -> offsets !! g = Some a -> offsets !! g' = Some b ->
  (a + occurrences g groupIds <= b)%nat.
Hypothesis regions_fit : forall g a,
  offsets !! g = Some a -> (0 < occurrences g groupIds)%nat ->
  (a + occurrences g groupIds <= padded)%nat.

Lemma slot_bounds i g a :
  groupIds !! i = Some g -> offsets !! g = Some a ->
  (a <= slot i < a + occurrences g groupIds)%nat.
Proof.
  intros Hi Ha. rewrite Hi. cbn [default from_option id]. rewrite Ha.
  cbn [default from_option id]. pose proof (occurrences_take_lt g groupIds i Hi). lia.
Qed.

Lemma slot_lt_padded i : (i < length groupIds)%nat -> (slot i < padded)%nat.
Proof.
  intros Hi. destruct (lookup_lt_is_Some_2 groupIds i Hi) as [g Hg].
  destruct (lookup_lt_is_Some_2 offsets g (groups_known i g Hg)) as [a Ha].
  pose proof (slot_bounds i g a Hg Ha).
  pose proof (occurrences_take_lt g groupIds i Hg).
  pose proof (regions_fit g a Ha ltac:(lia)). lia.
Qed.

Lemma slot_inj i k :
  (i < k)%nat -> (k < length groupIds)%nat -> slot i <> slot k.
Proof.
  intros Hik Hk.
  destruct (lookup_lt_is_Some_2 groupIds i ltac:(lia)) as [g Hg].
  destruct (lookup_lt_is_Some_2 groupIds k Hk) as [g' Hg'].
  destruct (lookup_lt_is_Some_2 offsets g (groups_known i g Hg)) as [a Ha].
  destruct (lookup_lt_is_Some_2 offsets g' (groups_known k g' Hg')) as [b Hb].
  pose proof (slot_bounds i g a Hg Ha) as Bi.
  pose proof (slot_bounds k g' b Hg' Hb) as Bk.
  destruct (Nat.lt_trichotomy g g') as [Hlt | [-> | Hgt]].
  - pose proof (regions_apart g g' a b Hlt Ha Hb). lia.
  - rewrite Hg, Hg'. cbn [default from_option id].
    pose proof (occurrences_take_S g' groupIds i Hg).
    pose proof (occurrences_take_le g' groupIds (S i) k ltac:(lia)). lia.
  - pose proof (regions_apart g' g b a Hgt Hb Ha). lia.
Qed.

Lemma assignSortedIndices_prefix toNew0 fromNew0 k :
  length toNew0 = length groupIds -> length fromNew0 = padded ->
  (k <= length groupIds)%nat ->
  let '(iSubGroup, toNew, fromNew) :=
    assignSortedIndices k groupIds offsets toNew0 fromNew0 in
  length iSubGroup = length offsets
  /\ (forall g, (g < length offsets)%nat ->
        default 0%nat (iSubGroup !! g)
        = (default 0 (offsets !! g) + occurrences g (take k groupIds))%nat)
  /\ length toNew = length groupIds
  /\ length fromNew = padded
  /\ (forall i, (i < k)%nat ->
        toNew !! i = Some (Z.of_nat (slot i))
        /\ fromNew !! slot i = Some (Z.of_nat i))
  /\ (forall i, (k <= i)%nat -> toNew !! i = toNew0 !! i)
  /\ (forall j, (forall i, (i < k)%nat -> slot i <> j) -> fromNew !! j = fromNew0 !! j).
Proof.
  intros HtoNew HfromNew. unfold assignSortedIndices.
  induction k as [| k IH]; intros Hk.
  { cbn [seq foldl]. split; [done |]. split.
    - intros g Hg. change (occurrences g (take 0 groupIds)) with 0%nat. lia.
    - split; [done |]. split; [done |]. split; [intros; lia | done]. }
  rewrite seq_S, foldl_app. cbn [foldl Nat.add].
  specialize (IH ltac:(lia)).
  destruct (foldl _ (offsets, toNew0, fromNew0) (seq 0 k)) as [[sub toNew] fromNew].
  destruct IH as (Ilen & Isub & ItoLen & IfromLen & Islots & Irest & Iother).
  destruct (lookup_lt_is_Some_2 groupIds k ltac:(lia)) as [g Hg].
  pose proof (groups_known k g Hg) as HgG.
  assert (HiNew : default 0%nat (sub !! g) = slot k).
  { rewrite Isub by done. rewrite Hg. done. }
  rewrite Hg. cbn [default from_option id]. rewrite Hg in HiNew.
  cbn [default from_option id] in HiNew. rewrite HiNew.
  split; [by rewrite length_insert |]. split.
  { intros g' Hg'. destruct (decide (g' = g)) as [-> | Hne].
    - rewrite list_lookup_insert_eq by lia. cbn [default from_option id].
      rewrite (occurrences_take_S g groupIds k Hg). lia.
    - rewrite list_lookup_insert_ne by done. rewrite Isub by done.
      by rewrite (occurrences_take_S_ne g' g groupIds k Hg). }
  split; [by rewrite length_insert |]. split; [by rewrite length_insert |].
  assert (Hslotk : slot k = (default 0 (offsets !! g) + occurrences g (take k groupIds))%nat).
  { rewrite Hg. done. }
  split; [| split].
  - intros i Hi. destruct (decide (i = k)) as [-> | Hne].
    + rewrite list_lookup_insert_eq by lia. rewrite Hslotk. split; [done |].
      apply list_lookup_insert_eq. rewrite IfromLen, <- Hslotk. apply slot_lt_padded. lia.
    + rewrite list_lookup_insert_ne by lia.
      destruct (Islots i ltac:(lia)) as [-> Hfrom]. split; [done |].
      rewrite list_lookup_insert_ne; [done |].
      rewrite <- Hslotk. apply not_eq_sym, slot_inj; lia.
  - intros i Hi. rewrite list_lookup_insert_ne by lia. apply Irest. lia.
  - intros j Hj. rewrite list_lookup_insert_ne.
    + apply Iother. intros i Hi. apply Hj. lia.
    + rewrite <- Hslotk. apply Hj. lia.
Qed.

End SortedIndices.

Lemma sum_list_take_S (l : list nat) i n :
  l !! i = Some n -> sum_list (take (S i) l) = (sum_list (take i l) + n)%nat.
Proof.
  intros Hi. rewrite (take_S_r l i n Hi), sum_list_with_app. cbn. unfold id. lia.
Qed.

Lemma sum_list_take_le (l : list nat) i : (sum_list (take i l) <= sum_list l)%nat.
Proof.
  rewrite <- (take_drop i l) at 2. rewrite sum_list_with_app. lia.
Qed.

Section OffsetsChain.
Variable nElementsAlignment : nat.
Variable nElements : list nat.
Variable old : list nat.
Hypothesis alignment_pos : (0 < nElementsAlignment)%nat.

Local Abbreviation offsets :=
  (subGroupOffsets nElementsAlignment nElements
     (<[0%nat := 0%nat]> (resize old (length nElements) 0%nat))) (only parsing).

Lemma offsets_length : length offsets = length nElements.
Proof. by destruct (subGroupOffsets_lookup nElementsAlignment nElements old). Qed.

Lemma offsets_step i a n :
  (S i < length nElements)%nat -> offsets !! i = Some a -> nElements !! i = Some n ->
  exists b, offsets !! S i = Some b /\ (a + n <= b <= a + n + (nElementsAlignment - 1))%nat.
Proof.
  intros HS Ha Hn.
  destruct (subGroupOffsets_lookup nElementsAlignment nElements old) as [_ H].
  cbv zeta in H. destruct (H i n Hn) as (a' & Ha' & _ & Hnext). simplify_eq/=.
  eexists. split; [by apply Hnext |].
  pose proof (ceilDiv_pad n nElementsAlignment alignment_pos). lia.
Qed.

Lemma offsets_apart g g' a b n :
  (g < g')%nat -> offsets !! g = Some a -> offsets !! g' = Some b ->
  nElements !! g = Some n -> (a + n <= b)%nat.
Proof.
  intros Hlt Ha Hb Hn. revert b Hb. induction g' as [| g' IH]; [lia |].
  intros b Hb.
  assert (HS : (S g' < length nElements)%nat).
  { apply lookup_lt_Some in Hb. rewrite offsets_length in Hb. lia. }
  destruct (decide (g = g')) as [<- | Hne].
  - destruct (offsets_step g a n HS Ha Hn) as (b' & Hb' & Hle). simplify_eq/=. lia.
  - destruct (lookup_lt_is_Some_2 offsets g') as [a' Ha']; [rewrite offsets_length; lia |].
    destruct (lookup_lt_is_Some_2 nElements g' ltac:(lia)) as [n' Hn'].
    specialize (IH ltac:(lia) a' Ha').
    destruct (offsets_step g' a' n' HS Ha' Hn') as (b' & Hb' & Hle). simplify_eq/=. lia.
Qed.

Lemma offsets_below i a :
  offsets !! i = Some a ->
  (a <= sum_list (take i nElements) + (nElementsAlignment - 1) * i)%nat.
Proof.
  revert a. induction i as [| i IH]; intros a Ha.
  - destruct (subGroupOffsets_lookup nElementsAlignment nElements old) as [Hlen H].
    cbv zeta in Hlen, H.
    destruct (lookup_lt_is_Some_2 nElements 0%nat) as [n Hn].
    { apply lookup_lt_Some in Ha. lia. }
    destruct (H 0%nat n Hn) as (a' & Ha' & Hz & _). simplify_eq/=. rewrite Hz by done. lia.
  - pose proof offsets_length as Hlen.
    assert (HS : (S i < length nElements)%nat) by (apply lookup_lt_Some in Ha; lia).
    destruct (lookup_lt_is_Some_2 offsets i) as [a' Ha']; [lia |].
    destruct (lookup_lt_is_Some_2 nElements i ltac:(lia)) as [n' Hn'].
    specialize (IH a' Ha').
    destruct (offsets_step i a' n' HS Ha' Hn') as (b' & Hb' & Hle). simplify_eq/=.
    rewrite (sum_list_take_S nElements i n' Hn'). lia.
Qed.

Lemma offsets_fit g a n :
  offsets !! g = Some a -> nElements !! g = Some n ->
  (a + n <= sum_list nElements + (nElementsAlignment - 1) * length nElements)%nat.
Proof.
  intros Ha Hn. pose proof (offsets_below g a Ha).
  pose proof (sum_list_take_S nElements g n Hn).
  pose proof (sum_list_take_le nElements (S g)).
  assert (g < length nElements)%nat by by apply lookup_lt_Some in Hn.
  nia.
Qed.

End OffsetsChain.

Section InitializeLayout.
Variable w : IntWidth.
Variable graphColoring : list MonomerEdges -> bool -> list nat.
Variables nElementsAlignment nNeighborsAlignment : nat.

Local Abbreviation init :=
  (initialize w graphColoring nElementsAlignment nNeighborsAlignment) (only parsing).

Lemma initialize_coloring_returns e e' :
  initialize_coloring graphColoring e = (e', None) ->
  e' = set_groups e
         (mkLayout (graphColoring (mNeighbors e) true) (mnElementsInGroup (groups e))
            (iSubGroupOffset (groups e)) (iToiNew (groups e)) (iNewToi (groups e))
            (mNeighborsSortedInfo (groups e))).
Proof.
  unfold initialize_coloring. cbv zeta.
  repeat match goal with
         | |- context [if ?b then _ else _] => destruct b; [done |]
         end.
  intros E. by injection E.
Qed.

Lemma initialize_offsets_returns e e' :
  initialize_offsets nElementsAlignment e = (e', None) ->
  let nElements := countElementsInGroup (mGroupIds (groups e)) in
  let padded := nMonomersPadded nElementsAlignment e nElements in
  groups e'
  = mkLayout (mGroupIds (groups e)) nElements
      (subGroupOffsets nElementsAlignment nElements
         (<[0%nat := 0%nat]> (resize (iSubGroupOffset (groups e)) (length nElements) 0%nat)))
      (iToiNew (groups e)) (iNewToi (groups e)) (mNeighborsSortedInfo (groups e))
  /\ mPolymerSystemSorted (host e') = Some (replicate padded (mkVec4 0 0 0 0))
  /\ nAllMonomers e' = nAllMonomers e
  /\ mPolymerSystem e' = mPolymerSystem e
  /\ mNeighbors e' = mNeighbors e
  /\ mLogCheck e' = mLogCheck e
  /\ (0 < length nElements)%nat.
Proof.
  unfold initialize_offsets. cbv zeta.
  destruct (Nat.eqb_spec (length (resize (iSubGroupOffset (groups e))
                                    (length (countElementsInGroup (mGroupIds (groups e))))
                                    0%nat)) 0) as [E0 | E0]; [done |].
  intros E. injection E as <-. cbn. rewrite resize_length in E0.
  repeat split; try done. lia.
Qed.

Lemma initialize_indices_layout e :
  let l := groups e in
  let padded := nMonomersPadded nElementsAlignment e (mnElementsInGroup l) in
  let r := assignSortedIndices (nAllMonomers e) (mGroupIds l) (iSubGroupOffset l)
             (resize (iToiNew l) (nAllMonomers e) UINT32_MAX)
             (resize (iNewToi l) padded UINT32_MAX) in
  let e' := initialize_indices nElementsAlignment nNeighborsAlignment e in
  mGroupIds (groups e') = mGroupIds l
  /\ mnElementsInGroup (groups e') = mnElementsInGroup l
  /\ iSubGroupOffset (groups e') = iSubGroupOffset l
  /\ iToiNew (groups e') = r.1.2
  /\ iNewToi (groups e') = r.2
  /\ mPolymerSystemSorted (host e') = mPolymerSystemSorted (host e)
  /\ nAllMonomers e' = nAllMonomers e
  /\ mPolymerSystem e' = mPolymerSystem e
  /\ mNeighbors e' = mNeighbors e
  /\ mLogCheck e' = mLogCheck e.
Proof.
  cbv zeta. unfold initialize_indices. cbv zeta.
  destruct (assignSortedIndices _ _ _ _ _) as [[sub toNew] fromNew]. cbn.
  repeat split; done.
Qed.

Lemma initialize_neighborCheck_returns e e' :
  initialize_neighborCheck e = (e', None) -> e' = e.
Proof.
  unfold initialize_neighborCheck. destruct (if mLogCheck e then _ else _); [done |].
  intros E. by injection E.
Qed.

Lemma checkSystem_thrashes e :
  (checkSystem w e).1 = set_mLattice e (mLattice (checkSystem w e).1).
Proof.
  unfold checkSystem. destruct (negb (mLogCheck e)); [by destruct e |].
  destruct (mLattice e) as [lattice |] eqn:Hl; [| destruct e; cbn in *; by subst].
  cbv zeta. destruct (negb (_ =? _)%nat); [done |].
  by destruct (find _ _).
Qed.

Lemma initialize_sort_fields e :
  groups (initialize_sort w e) = groups e
  /\ nAllMonomers (initialize_sort w e) = nAllMonomers e
  /\ mNeighbors (initialize_sort w e) = mNeighbors e
  /\ mPolymerSystem (initialize_sort w e) = tagNeighborCounts w e
  /\ mPolymerSystemSorted_gpu (gpu (initialize_sort w e))
     = sortPolymerSystem (set_mPolymerSystem e (tagNeighborCounts w e))
         (default [] (mPolymerSystemSorted (host e))).
Proof. done. Qed.

Lemma initialize_lattice_fields e :
  exists e', initialize_lattice e = returns e'
    /\ groups e' = groups e /\ nAllMonomers e' = nAllMonomers e
    /\ mNeighbors e' = mNeighbors e /\ mPolymerSystem e' = mPolymerSystem e
    /\ mPolymerSystemSorted_gpu (gpu e') = mPolymerSystemSorted_gpu (gpu e).
Proof. eexists. split; [reflexivity |]. done. Qed.

Lemma mirrorsInSync_fields e e' :
  nAllMonomers e' = nAllMonomers e -> groups e' = groups e ->
  mPolymerSystem e' = mPolymerSystem e ->
  mPolymerSystemSorted_gpu (gpu e') = mPolymerSystemSorted_gpu (gpu e) ->
  mirrorsInSync e -> mirrorsInSync e'.
Proof.
  unfold mirrorsInSync, polymerSystemEntry. intros -> -> -> ->. done.
Qed.

Lemma sortPolymerSystem_length e sorted :
  length (sortPolymerSystem e sorted) = length sorted.
Proof.
  unfold sortPolymerSystem. generalize (seq 0 (nAllMonomers e)). intros l.
  revert sorted. induction l as [| i l IH]; intros sorted; [done |].
  cbn [foldl]. by rewrite IH, length_insert.
Qed.

Lemma initialize_stages e :
  (init e).2 = None ->
  exists e3 e6,
    initialize_offsets nElementsAlignment
      (set_groups (uploadBondTable e)
         (mkLayout (graphColoring (mNeighbors e) true) (mnElementsInGroup (groups e))
            (iSubGroupOffset (groups e)) (iToiNew (groups e)) (iNewToi (groups e))
            (mNeighborsSortedInfo (groups e)))) = (e3, None)
    /\ init e = returns e6
    /\ groups e6 = groups (initialize_indices nElementsAlignment nNeighborsAlignment e3)
    /\ nAllMonomers e6 = nAllMonomers e3
    /\ mNeighbors e6 = mNeighbors e3
    /\ mPolymerSystemSorted_gpu (gpu e6)
       = mPolymerSystemSorted_gpu
           (gpu (initialize_sort w
                   (initialize_indices nElementsAlignment nNeighborsAlignment e3)))
    /\ mPolymerSystem e6
       = mPolymerSystem
           (initialize_sort w (initialize_indices nElementsAlignment nNeighborsAlignment e3)).
Proof.
  unfold initialize.
  destruct (isAllocated (mLatticeOut (host e)) || isAllocated (mLatticeTmp (host e)));
    [done |].
  destruct (negb (nAllowedBonds e =? 108)%nat); [done |].
  unfold initialize_grouping.
  destruct (initialize_coloring graphColoring (uploadBondTable e)) as [e2 [err |]] eqn:H2;
    [done |].
  apply initialize_coloring_returns in H2. cbn [andThen].
  change (mNeighbors (uploadBondTable e)) with (mNeighbors e) in H2.
  change (groups (uploadBondTable e)) with (groups e) in H2. subst e2.
  destruct (initialize_offsets nElementsAlignment _) as [e3 [err |]] eqn:H3; [done |].
  cbn [andThen].
  set (e4 := initialize_indices nElementsAlignment nNeighborsAlignment e3).
  destruct (initialize_neighborCheck e4) as [e4' [err |]] eqn:H4; [done |].
  apply initialize_neighborCheck_returns in H4. subst e4'. cbn [andThen].
  pose proof (checkSystem_thrashes (initialize_sort w e4)) as H5.
  destruct (checkSystem w (initialize_sort w e4)) as [e5 [err |]]; [done |].
  cbn [fst andThen] in *.
  destruct (initialize_lattice_fields e5) as (e6 & -> & Hg & Hn & Hnb & Hs & Hgpu).
  intros _. exists e3, e6. split; [done |]. split; [done |].
  rewrite Hg, Hn, Hnb, Hs, Hgpu, H5.
  destruct (initialize_sort_fields e4) as (Sg & Sn & Snb & _ & _).
  cbn [groups nAllMonomers mNeighbors mPolymerSystem gpu set_mLattice].
  rewrite Sg, Sn, Snb.
  destruct (initialize_indices_layout e3) as (_ & _ & _ & _ & _ & _ & In & _ & Inb & _).
  cbv zeta in In, Inb. fold e4 in In, Inb. by rewrite In, Inb.
Qed.

End InitializeLayout.

Section InitializeIndexMaps.
Variable w : IntWidth.
Variable graphColoring : list MonomerEdges -> bool -> list nat.
Variables nElementsAlignment nNeighborsAlignment : nat.

Local Abbreviation init :=
  (initialize w graphColoring nElementsAlignment nNeighborsAlignment) (only parsing).

(** The index maps [initialize] leaves behind, when the colouring names a
    species for every monomer: monomer [i] of species [g] is sorted to the
    offset of [g] plus the number of monomers of [g] before it, inside the
    region of [g] and inside the sorted arrays; [iNewToi] leads back from
    that slot to [i], so [iToiNew] is injective; and the sorted array on the
    device holds at that slot the entry of monomer [i]. *)
Theorem initialize_index_maps e :
  (0 < nElementsAlignment)%nat ->
  length (graphColoring (mNeighbors e) true) = nAllMonomers e ->
  (init e).2 = None ->
  let e' := (init e).1 in
  let l := groups e' in
  mGroupIds l = graphColoring (mNeighbors e) true
  /\ nAllMonomers e' = nAllMonomers e
  /\ (forall i g, mGroupIds l !! i = Some g ->
        exists a iNew,
          iSubGroupOffset l !! g = Some a
          /\ iToiNew l !! i = Some (Z.of_nat iNew)
          /\ iNewToi l !! iNew = Some (Z.of_nat i)
          /\ iNew = (a + occurrences g (take i (mGroupIds l)))%nat
          /\ (iNew < a + default 0 (mnElementsInGroup l !! g))%nat
          /\ (iNew < length (mPolymerSystemSorted_gpu (gpu e')))%nat)
  /\ mirrorsInSync e'.
Proof.
  intros Halign Hcol Hret.
  destruct (initialize_stages w graphColoring nElementsAlignment nNeighborsAlignment e Hret)
    as (e3 & e6 & H3 & -> & Hg & Hn & Hnb & Hgpu & Hsys).
  cbn [returns fst]. cbv zeta.
  apply initialize_offsets_returns in H3.
  cbn [groups set_groups mGroupIds iSubGroupOffset iToiNew iNewToi mNeighborsSortedInfo
       nAllMonomers mPolymerSystem mNeighbors mLogCheck uploadBondTable set_constantMemory] in H3.
  set (gs := graphColoring (mNeighbors e) true) in *.
  set (nEl := countElementsInGroup gs) in *.
  set (offs := subGroupOffsets nElementsAlignment nEl _) in *.
  set (padded := nMonomersPadded nElementsAlignment _ nEl) in *.
  destruct H3 as (G3 & S3 & N3 & P3 & B3 & _ & Hpos).
  destruct (initialize_indices_layout nElementsAlignment nNeighborsAlignment e3)
    as (Ig & Ie & Io & It & If & Is & In & Ip & Ib & _).
  cbv zeta in It, If. rewrite G3 in Ig, Ie, Io, It, If.
  cbn [mGroupIds mnElementsInGroup iSubGroupOffset iToiNew iNewToi] in Ig, Ie, Io, It, If.
  rewrite N3 in It, If.
  assert (Hpad : nMonomersPadded nElementsAlignment e3 nEl = padded).
  { unfold padded, nMonomersPadded. by rewrite N3. }
  rewrite Hpad in It, If.
  destruct (countElementsInGroup_from [] gs) as (Clen & Clook & Csum).
  cbv zeta in Clen, Clook, Csum. fold (countElementsInGroup gs) in Clen, Clook, Csum.
  fold nEl in Clen, Clook, Csum.
  assert (Hcount : forall g, default 0%nat (nEl !! g) = occurrences g gs).
  { intros g. rewrite Clook. by rewrite lookup_nil. }
  assert (Hofflen : length offs = length nEl) by apply offsets_length.
  assert (Hknown : forall i g, gs !! i = Some g -> (g < length offs)%nat).
  { intros i g Hi. rewrite Hofflen, Clen. cbn [length Nat.max].
    assert (S g ∈ S <$> gs) by (apply list_elem_of_fmap_2; by eapply list_elem_of_lookup_2).
    pose proof (max_list_elem_of_le _ _ H). lia. }
  assert (HnEl : forall g, (g < length nEl)%nat -> nEl !! g = Some (occurrences g gs)).
  { intros g Hlt. destruct (lookup_lt_is_Some_2 nEl g Hlt) as [n Hn'].
    specialize (Hcount g). rewrite Hn' in Hcount. cbn in Hcount. by rewrite Hn', Hcount. }
  assert (Hapart : forall g g' a b, (g < g')%nat -> offs !! g = Some a -> offs !! g' = Some b ->
                     (a + occurrences g gs <= b)%nat).
  { intros g g' a b Hlt Ha Hb.
    eapply (offsets_apart nElementsAlignment nEl _ Halign g g' a b); try done.
    apply HnEl. apply lookup_lt_Some in Ha. lia. }
  assert (Hfit : forall g a, offs !! g = Some a -> (0 < occurrences g gs)%nat ->
                   (a + occurrences g gs <= padded)%nat).
  { intros g a Ha _.
    pose proof (offsets_fit nElementsAlignment nEl _ Halign g a (occurrences g gs) Ha) as Hf.
    rewrite HnEl in Hf by (apply lookup_lt_Some in Ha; lia). specialize (Hf eq_refl).
    unfold padded, nMonomersPadded.
    cbn [nAllMonomers set_groups uploadBondTable set_constantMemory].
    assert (sum_list nEl = nAllMonomers e) as Hs.
    { rewrite Csum. cbn. rewrite Hcol. done. }
    rewrite Hs in Hf. lia. }
  assert (HA := assignSortedIndices_prefix gs offs padded Hknown Hapart Hfit
                (resize (iToiNew (groups e)) (nAllMonomers e) UINT32_MAX)
                (resize (iNewToi (groups e)) padded UINT32_MAX) (nAllMonomers e)
                ltac:(by rewrite resize_length) ltac:(by rewrite resize_length)
                ltac:(lia)).
  destruct (assignSortedIndices (nAllMonomers e) gs offs _ _) as [[sub toNew] fromNew].
  cbn [fst snd] in It, If. cbv beta iota in HA.
  destruct HA as (_ & _ & _ & _ & Hslots & _ & _).
  set (e4 := initialize_indices nElementsAlignment nNeighborsAlignment e3) in *.
  rewrite Hg, Ig, Io, It, If, Ie.
  assert (Hlen6 : length (mPolymerSystemSorted_gpu (gpu e6)) = padded).
  { rewrite Hgpu. destruct (initialize_sort_fields w e4) as (_ & _ & _ & _ & ->).
    rewrite sortPolymerSystem_length, Is, S3. cbn. by rewrite length_replicate. }
  split; [done |]. split; [lia |]. split.
  - intros i g Hi.
    assert (Hi' : (i < nAllMonomers e)%nat) by (apply lookup_lt_Some in Hi; lia).
    destruct (lookup_lt_is_Some_2 offs g (Hknown i g Hi)) as [a Ha].
    destruct (Hslots i Hi') as [Hto Hfrom].
    rewrite Hi in Hto, Hfrom. cbn [default from_option id] in Hto, Hfrom.
    rewrite Ha in Hto, Hfrom. cbn [default from_option id] in Hto, Hfrom.
    exists a, (a + occurrences g (take i gs))%nat.
    split; [done |]. split; [done |]. split; [done |]. split; [done |].
    pose proof (occurrences_take_lt g gs i Hi). rewrite Hcount.
    split; [lia |]. rewrite Hlen6.
    pose proof (Hfit g a Ha ltac:(lia)). lia.
  - apply (mirrorsInSync_fields (initialize_sort w e4)).
    + destruct (initialize_sort_fields w e4) as (_ & -> & _). lia.
    + destruct (initialize_sort_fields w e4) as (-> & _). done.
    + done.
    + done.
    + assert (Hslot : forall j, (j < nAllMonomers e)%nat ->
                Z.to_nat (default 0 (iToiNew (groups e4) !! j))
                = (default 0 (offs !! default 0 (gs !! j))
                   + occurrences (default 0 (gs !! j)) (take j gs))%nat).
      { intros j Hj. rewrite It. destruct (Hslots j Hj) as [-> _]. cbn. lia. }
      apply initialize_sort_in_sync.
      * intros j Hj. rewrite In, N3 in Hj. rewrite Hslot, Is, S3 by done.
        cbn [default from_option id]. rewrite length_replicate.
        apply (slot_lt_padded gs offs padded Hknown Hfit). lia.
      * intros j k Hj Hk. rewrite In, N3 in Hj, Hk. rewrite !Hslot by done.
        intros E. destruct (Nat.lt_trichotomy j k) as [Hlt | [-> | Hgt]]; [| done |].
        -- exfalso. revert E. apply (slot_inj gs offs Hknown Hapart); lia.
        -- exfalso. symmetry in E. revert E. apply (slot_inj gs offs Hknown Hapart); lia.
Qed.

End InitializeIndexMaps.

Section InitializeEdges.
Variable w : IntWidth.
Variable graphColoring : list MonomerEdges -> bool -> list nat.
Variables nElementsAlignment nNeighborsAlignment : nat.

Local Abbreviation init :=
  (initialize w graphColoring nElementsAlignment nNeighborsAlignment) (only parsing).

(** [initialize] on a system for which the colouring names no species, as
    for a system without monomers: [iSubGroupOffset.at( 0 )] throws
    [std::out_of_range].  With the "Check" level inactive the exception
    leaves [mPolymerFlags] and [mPolymerSystemSorted] allocated and the
    lattices not, so [setNrOfAllMonomers] refuses every later call while
    [initialize] itself can be called again. *)
Theorem initialize_without_species e :
  isAllocated (mLatticeOut (host e)) = false ->
  isAllocated (mLatticeTmp (host e)) = false ->
  nAllowedBonds e = 108%nat ->
  graphColoring (mNeighbors e) true = [] ->
  let r := init e in
  r.2 = Some VectorOutOfRange
  /\ exceptionClass VectorOutOfRange = out_of_range
  /\ mLatticeOut (host r.1) = mLatticeOut (host e)
  /\ mLatticeTmp (host r.1) = mLatticeTmp (host e)
  /\ (mLogCheck e = false ->
      isAllocated (mPolymerFlags (host r.1)) = true
      /\ isAllocated (mPolymerSystemSorted (host r.1)) = true
      /\ forall n, setNrOfAllMonomers r.1 n = throws r.1 MonomersAlreadySet).
Proof.
  intros HO HT Hbonds Hcol r. unfold r, initialize.
  rewrite HO, HT, Hbonds. cbn [orb Nat.eqb negb].
  unfold initialize_grouping, initialize_coloring.
  change (mNeighbors (uploadBondTable e)) with (mNeighbors e).
  change (mLogCheck (uploadBondTable e)) with (mLogCheck e).
  change (nAllMonomers (uploadBondTable e)) with (nAllMonomers e).
  rewrite Hcol. cbv zeta.
  cbn [mLogCheck nAllMonomers mNeighbors mAttributeSystem set_groups uploadBondTable
       set_constantMemory].
  destruct (mLogCheck e) eqn:Hlog.
  - assert (Hex : existsb (fun i => (length (@nil nat) <=? i)%nat)
                    (seq 0 (Nat.max 20 (nAllMonomers e))) = true).
    { apply existsb_exists. exists 0%nat. split; [| done].
      apply in_seq. lia. }
    rewrite Hex. cbn. done.
  - cbn [andb andThen returns]. unfold initialize_offsets.
    cbn [groups set_groups mGroupIds]. cbn.
    split; [done |]. split; [done |]. split; [done |]. split; [done |].
    intros _. split; [done |]. split; [done |].
    intros n. unfold setNrOfAllMonomers. cbn. by rewrite !orb_true_r.
Qed.

(** With the "Check" level active the comparison of the colouring with the
    attributes reads [mGroupIds.at( i )] for every [i] below
    [max( 20, nAllMonomers )]: a colouring with fewer entries, as for any
    system of fewer than 20 monomers, makes [initialize] throw
    [std::out_of_range] before anything is allocated. *)
Theorem initialize_check_reads_20 e :
  mLogCheck e = true ->
  isAllocated (mLatticeOut (host e)) = false ->
  isAllocated (mLatticeTmp (host e)) = false ->
  nAllowedBonds e = 108%nat ->
  (length (graphColoring (mNeighbors e) true) < Nat.max 20 (nAllMonomers e))%nat ->
  let r := init e in
  r.2 = Some VectorOutOfRange
  /\ host r.1 = host e
  /\ gpu r.1 = gpu e
  /\ mGroupIds (groups r.1) = graphColoring (mNeighbors e) true
  /\ dpForbiddenBonds (constantMemory r.1) = tmpForbiddenBonds e.
Proof.
  intros Hlog HO HT Hbonds Hlen r. unfold r, initialize.
  rewrite HO, HT, Hbonds. cbn [orb Nat.eqb negb].
  unfold initialize_grouping, initialize_coloring.
  change (mNeighbors (uploadBondTable e)) with (mNeighbors e).
  change (mLogCheck (uploadBondTable e)) with (mLogCheck e).
  change (nAllMonomers (uploadBondTable e)) with (nAllMonomers e).
  cbv zeta.
  cbn [mLogCheck nAllMonomers mNeighbors mAttributeSystem set_groups uploadBondTable
       set_constantMemory].
  rewrite Hlog. cbn [andb].
  assert (Hex : existsb (fun i => (length (graphColoring (mNeighbors e) true) <=? i)%nat)
                  (seq 0 (Nat.max 20 (nAllMonomers e))) = true).
  { apply existsb_exists. exists (length (graphColoring (mNeighbors e) true)).
    split; [apply in_seq; lia | by apply Nat.leb_le]. }
  rewrite Hex. done.
Qed.

End InitializeEdges.

Lemma initialize_index_maps_witness :
  let e := dimerStaged.1 in
  let e' := (initialize Int16 alternatingColoring 32 32 e).1 in
  let l := groups e' in
  mGroupIds l = alternatingColoring (mNeighbors e) true
  /\ nAllMonomers e' = nAllMonomers e
  /\ (forall i g, mGroupIds l !! i = Some g ->
        exists a iNew,
          iSubGroupOffset l !! g = Some a
          /\ iToiNew l !! i = Some (Z.of_nat iNew)
          /\ iNewToi l !! iNew = Some (Z.of_nat i)
          /\ iNew = (a + occurrences g (take i (mGroupIds l)))%nat
          /\ (iNew < a + default 0 (mnElementsInGroup l !! g))%nat
          /\ (iNew < length (mPolymerSystemSorted_gpu (gpu e')))%nat)
  /\ mirrorsInSync e'.
Proof.
  apply (initialize_index_maps Int16 alternatingColoring 32 32 dimerStaged.1);
    [lia | vm_compute; reflexivity | vm_compute; reflexivity].
Defined.

Lemma initialize_without_species_witness :
  let e := stageBondSet Int16 (UpdaterGPUScBFM_AB_Type (replicate 512 true)) in
  let r := initialize Int16 alternatingColoring 32 32 e in
  r.2 = Some VectorOutOfRange
  /\ exceptionClass VectorOutOfRange = out_of_range
  /\ mLatticeOut (host r.1) = mLatticeOut (host e)
  /\ mLatticeTmp (host r.1) = mLatticeTmp (host e)
  /\ (mLogCheck e = false ->
      isAllocated (mPolymerFlags (host r.1)) = true
      /\ isAllocated (mPolymerSystemSorted (host r.1)) = true
      /\ forall n, setNrOfAllMonomers r.1 n = throws r.1 MonomersAlreadySet).
Proof.
  apply (initialize_without_species Int16 alternatingColoring 32 32
           (stageBondSet Int16 (UpdaterGPUScBFM_AB_Type (replicate 512 true))));
    vm_compute; reflexivity.
Defined.

Lemma initialize_check_reads_20_witness :
  let e := set_mLogCheck dimerStaged.1 true in
  let r := initialize Int16 alternatingColoring 32 32 e in
  r.2 = Some VectorOutOfRange
  /\ host r.1 = host e
  /\ gpu r.1 = gpu e
  /\ mGroupIds (groups r.1) = alternatingColoring (mNeighbors e) true
  /\ dpForbiddenBonds (constantMemory r.1) = tmpForbiddenBonds e.
Proof.
  apply (initialize_check_reads_20 Int16 alternatingColoring 32 32
           (set_mLogCheck dimerStaged.1 true));
    [reflexivity | reflexivity | reflexivity | vm_compute; reflexivity | vm_compute; lia].
Defined.

(** ** The lattices built by [initialize] and [populateLattice] *)

Lemma mark_cells_length (f : nat -> Z) ts lattice :
  length (foldl (fun lattice t => store lattice (f t) 1) lattice ts) = length lattice.
Proof.
  revert lattice. induction ts as [| t ts IH]; intros lattice; [done |].
  cbn [foldl]. rewrite IH. apply length_insert.
Qed.

Lemma mark_cells_other (f : nat -> Z) ts lattice c :
  (forall t, t ∈ ts -> Z.to_nat (f t) <> c) ->
  foldl (fun lattice t => store lattice (f t) 1) lattice ts !! c = lattice !! c.
Proof.
  revert lattice. induction ts as [| t ts IH]; intros lattice Hts; [done |].
  cbn [foldl]. rewrite IH by (intros; apply Hts; by right).
  unfold store. apply list_lookup_insert_ne, Hts. by left.
Qed.

Lemma mark_cells_marked (f : nat -> Z) ts lattice c :
  (exists t, t ∈ ts /\ Z.to_nat (f t) = c) -> (c < length lattice)%nat ->
  foldl (fun lattice t => store lattice (f t) 1) lattice ts !! c = Some 1.
Proof.
  revert lattice. induction ts as [| t ts IH]; intros lattice (t' & Hin & Ht') Hc.
  { by apply elem_of_nil in Hin. }
  cbn [foldl].
  destruct (decide (Exists (fun t => Z.to_nat (f t) = c) ts)) as [Hex | Hnex].
  - apply IH; [| unfold store; by rewrite length_insert].
    apply Exists_exists in Hex. done.
  - rewrite mark_cells_other.
    + apply elem_of_cons in Hin as [-> | Hin].
      * rewrite <- Ht'. unfold store. apply list_lookup_insert_eq. lia.
      * exfalso. apply Hnex, Exists_exists. by exists t'.
    + intros t0 Ht0 E. apply Hnex, Exists_exists. by exists t0.
Qed.

Lemma mark_cells_iff (f : nat -> Z) ts n c :
  (c < n)%nat ->
  (foldl (fun lattice t => store lattice (f t) 1) (replicate n 0) ts !! c = Some 1
   <-> exists t, t ∈ ts /\ Z.to_nat (f t) = c)
  /\ (foldl (fun lattice t => store lattice (f t) 1) (replicate n 0) ts !! c = Some 0
      <-> ~ exists t, t ∈ ts /\ Z.to_nat (f t) = c).
Proof.
  intros Hc.
  destruct (decide (Exists (fun t => Z.to_nat (f t) = c) ts)) as [Hex | Hnex].
  - apply Exists_exists in Hex.
    rewrite mark_cells_marked by (try done; by rewrite length_replicate).
    split; [done |]. split; [done | intros Hn; by destruct Hn].
  - rewrite mark_cells_other.
    2:{ intros t Ht E. apply Hnex, Exists_exists. by exists t. }
    rewrite lookup_replicate_2 by done.
    assert (Hn : ~ exists t, t ∈ ts /\ Z.to_nat (f t) = c).
    { intros Hex. by apply Hnex, Exists_exists. }
    split; [split; [done | intros; by destruct Hn] | done].
Qed.

Lemma nCells_power e lx ly lz :
  mBoxX (mBox e) = 2 ^ lx -> mBoxY (mBox e) = 2 ^ ly -> mBoxZ (mBox e) = 2 ^ lz ->
  0 <= lx -> 0 <= ly -> 0 <= lz -> lx + ly + lz <= 31 ->
  nCells e = Z.to_nat (2 ^ (lx + ly + lz)).
Proof.
  intros HX HY HZ Hx Hy Hz Hfit. unfold nCells. rewrite HX, HY, HZ.
  rewrite <- !Z.pow_add_r by lia.
  assert (P : forall l, 0 <= l <= 31 -> u32 (2 ^ l) = 2 ^ l).
  { intros l Hl. apply u32_small. pose proof (pow2_pos l ltac:(lia)).
    pose proof (Z.pow_lt_mono_r 2 l 32 ltac:(lia) ltac:(lia) ltac:(lia)). lia. }
  rewrite (P (lx + ly)) by lia. rewrite <- Z.pow_add_r by lia. by rewrite P by lia.
Qed.

(** The lattices [initialize] creates for a box of edges [2^lx], [2^ly],
    [2^lz] with fewer than [2^32] cells: both have one byte per cell, the
    scratch lattice is zero, and a byte of the committed lattice is 1
    exactly when its cell is the cell of the stored position of some
    monomer, and 0 otherwise; only that one cell of a monomer's cube is
    marked.  The box constants of the device are those of the host. *)
Theorem initialize_lattice_marks e lx ly lz :
  mBox e = mkBoxSize (2 ^ lx) (2 ^ ly) (2 ^ lz)
             (2 ^ lx - 1) (2 ^ ly - 1) (2 ^ lz - 1) lx (lx + ly) ->
  0 <= lx -> 0 <= ly -> 0 <= lz -> lx + ly + lz <= 31 ->
  let r := initialize_lattice e in
  let cells := Z.to_nat (2 ^ (lx + ly + lz)) in
  r.2 = None
  /\ dcBox (constantMemory r.1) = hostBox e
  /\ mLatticeTmp_gpu (gpu r.1) = replicate cells 0
  /\ length (mLatticeOut_gpu (gpu r.1)) = cells
  /\ mLatticeOut (host r.1) = Some (mLatticeOut_gpu (gpu r.1))
  /\ (forall t, (t < nAllMonomers e)%nat ->
        fetch (mLatticeOut_gpu (gpu r.1))
          (cellIndex (hostBox e)
             (getMonomerPositionInX e t, getMonomerPositionInY e t,
              getMonomerPositionInZ e t)) = 1)
  /\ (forall c, (c < cells)%nat ->
        (mLatticeOut_gpu (gpu r.1) !! c = Some 1
         <-> exists t, (t < nAllMonomers e)%nat
               /\ c = Z.to_nat (cellIndex (hostBox e)
                                  (getMonomerPositionInX e t, getMonomerPositionInY e t,
                                   getMonomerPositionInZ e t)))
        /\ (mLatticeOut_gpu (gpu r.1) !! c = Some 0
            <-> ~ exists t, (t < nAllMonomers e)%nat
                  /\ c = Z.to_nat (cellIndex (hostBox e)
                                     (getMonomerPositionInX e t, getMonomerPositionInY e t,
                                      getMonomerPositionInZ e t)))).
Proof.
  intros Hbox Hx Hy Hz Hfit r cells.
  assert (Hcells : nCells e = cells).
  { apply nCells_power; try done; by rewrite Hbox. }
  assert (Hok : BoxOK (hostBox e) lx ly lz).
  { unfold hostBox. rewrite Hbox. constructor; cbn; lia. }
  unfold r, initialize_lattice. cbv zeta.
  cbn [returns fst snd gpu set_gpu constantMemory set_constantMemory dcBox host set_host
       mLatticeOut mLatticeOut_gpu mLatticeTmp_gpu setLatticeTmp setLatticeOut
       nAllMonomers].
  change (nCells (set_constantMemory e _)) with (nCells e).
  change (hostBox (set_constantMemory e _)) with (hostBox e).
  rewrite Hcells.
  change (polymerSystemEntry (set_constantMemory e _)) with (polymerSystemEntry e).
  set (f := fun t => linearizeBoxVectorIndex (hostBox e)
                       (u32 (vx (polymerSystemEntry e t)))
                       (u32 (vy (polymerSystemEntry e t)))
                       (u32 (vz (polymerSystemEntry e t)))).
  assert (Hf : forall t, f t = cellIndex (hostBox e)
                 (getMonomerPositionInX e t, getMonomerPositionInY e t,
                  getMonomerPositionInZ e t)) by done.
  change (foldl _ (replicate cells 0) (seq 0 (nAllMonomers e)))
    with (foldl (fun lattice t => store lattice (f t) 1) (replicate cells 0)
            (seq 0 (nAllMonomers e))).
  assert (Hrange : forall t, (Z.to_nat (f t) < cells)%nat).
  { intros t. rewrite Hf.
    pose proof (linearize_lt (hostBox e) lx ly lz (getMonomerPositionInX e t)
                  (getMonomerPositionInY e t) (getMonomerPositionInZ e t) Hok) as Hlt.
    unfold cells. lia. }
  split; [done |]. split; [done |]. split; [done |].
  split; [by rewrite mark_cells_length, length_replicate |]. split; [done |]. split.
  - intros t Ht. rewrite <- Hf. unfold fetch.
    rewrite mark_cells_marked; [done | | by rewrite length_replicate].
    exists t. split; [apply elem_of_seq; lia | done].
  - intros c Hc. destruct (mark_cells_iff f (seq 0 (nAllMonomers e)) cells c Hc) as [H1 H0].
    split.
    + rewrite H1. split.
      * intros (t & Ht & <-). exists t. apply elem_of_seq in Ht. split; [lia | by rewrite Hf].
      * intros (t & Ht & ->). exists t. split; [apply elem_of_seq; lia | by rewrite Hf].
    + rewrite H0. split; intros Hn (t & Ht & E); apply Hn; exists t.
      * split; [apply elem_of_seq; lia | by rewrite Hf].
      * apply elem_of_seq in Ht. split; [lia | by rewrite <- Hf].
Qed.

(** [populateLattice] fills [mLattice] as [initialize] fills the committed
    lattice: on an allocated [mLattice] of one byte per cell the two arrays
    are equal. *)
Theorem populateLattice_as_initialize e lattice :
  mLattice e = Some lattice -> length lattice = nCells e ->
  mLattice (populateLattice e) = mLatticeOut (host (initialize_lattice e).1)
  /\ populateLattice e = set_mLattice e (mLattice (populateLattice e)).
Proof.
  intros Hl Hlen. unfold populateLattice. rewrite Hl. cbn [fmap option_fmap option_map].
  split; [| done].
  cbn [mLattice set_mLattice initialize_lattice returns fst host set_host set_gpu mLatticeOut].
  f_equal. unfold memsetZero. rewrite Hlen, Nat.min_id, drop_ge, app_nil_r by lia. done.
Qed.

Lemma initialize_lattice_marks_witness :
  let e := dimerStaged.1 in
  let r := initialize_lattice e in
  let cells := Z.to_nat (2 ^ (3 + 3 + 3)) in
  r.2 = None
  /\ dcBox (constantMemory r.1) = hostBox e
  /\ mLatticeTmp_gpu (gpu r.1) = replicate cells 0
  /\ length (mLatticeOut_gpu (gpu r.1)) = cells
  /\ mLatticeOut (host r.1) = Some (mLatticeOut_gpu (gpu r.1))
  /\ (forall t, (t < nAllMonomers e)%nat ->
        fetch (mLatticeOut_gpu (gpu r.1))
          (cellIndex (hostBox e)
             (getMonomerPositionInX e t, getMonomerPositionInY e t,
              getMonomerPositionInZ e t)) = 1)
  /\ (forall c, (c < cells)%nat ->
        (mLatticeOut_gpu (gpu r.1) !! c = Some 1
         <-> exists t, (t < nAllMonomers e)%nat
               /\ c = Z.to_nat (cellIndex (hostBox e)
                                  (getMonomerPositionInX e t, getMonomerPositionInY e t,
                                   getMonomerPositionInZ e t)))
        /\ (mLatticeOut_gpu (gpu r.1) !! c = Some 0
            <-> ~ exists t, (t < nAllMonomers e)%nat
                  /\ c = Z.to_nat (cellIndex (hostBox e)
                                     (getMonomerPositionInX e t, getMonomerPositionInY e t,
                                      getMonomerPositionInZ e t)))).
Proof.
  apply (initialize_lattice_marks dimerStaged.1 3 3 3); [vm_compute; reflexivity | lia ..].
Defined.

Lemma populateLattice_as_initialize_witness :
  mLattice (populateLattice dimerStaged.1)
  = mLatticeOut (host (initialize_lattice dimerStaged.1).1)
  /\ populateLattice dimerStaged.1
     = set_mLattice dimerStaged.1 (mLattice (populateLattice dimerStaged.1)).
Proof.
  apply (populateLattice_as_initialize dimerStaged.1 (replicate 512 0));
    vm_compute; reflexivity.
Defined.

(** ** The neighbour count in the property tag, and [cleanup] *)

Lemma tag_bits w (t s : Z) :
  0 <= t < 32 -> 0 <= s <= 7 ->
  let tag := toIntCUDA w (Z.lor t (Z.shiftl (toIntCUDA w s) 5)) in
  tag = t + 32 * s
  /\ Z.land (Z.shiftr tag 5) 7 = s
  /\ Z.shiftr (Z.land tag 224) 5 = s
  /\ Z.land tag 31 = t.
Proof.
  intros Ht Hs.
  assert (Hall : forallb (fun t' => forallb (fun s' =>
            let t := Z.of_nat t' in let s := Z.of_nat s' in
            let tag := toIntCUDA w (Z.lor t (Z.shiftl (toIntCUDA w s) 5)) in
            (tag =? t + 32 * s) && (Z.land (Z.shiftr tag 5) 7 =? s)
            && (Z.shiftr (Z.land tag 224) 5 =? s) && (Z.land tag 31 =? t))
            (seq 0 8)) (seq 0 32) = true) by (destruct w; vm_compute; reflexivity).
  rewrite forallb_forall in Hall.
  specialize (Hall (Z.to_nat t) ltac:(apply in_seq; lia)).
  rewrite forallb_forall in Hall.
  specialize (Hall (Z.to_nat s) ltac:(apply in_seq; lia)). cbv zeta in Hall.
  rewrite !Z2Nat.id in Hall by lia.
  rewrite !andb_true_iff, !Z.eqb_eq in Hall. cbv zeta. tauto.
Qed.

Lemma tag_fold_other (g : nat -> Z -> Z) n (system : list Z) k :
  (forall i, (i < n)%nat -> k <> (4 * i + 3)%nat) ->
  foldl (fun system i =>
           <[(4 * i + 3)%nat := g i (default 0 (system !! (4 * i + 3)%nat))]> system)
        system (seq 0 n) !! k = system !! k.
Proof.
  induction n as [| n IH]; intros Hk; [done |].
  rewrite seq_S, foldl_app. cbn [foldl Nat.add].
  rewrite list_lookup_insert_ne by (apply not_eq_sym, Hk; lia).
  apply IH. intros i Hi. apply Hk. lia.
Qed.

Lemma tag_fold_length (g : nat -> Z -> Z) n (system : list Z) :
  length (foldl (fun system i =>
           <[(4 * i + 3)%nat := g i (default 0 (system !! (4 * i + 3)%nat))]> system)
        system (seq 0 n)) = length system.
Proof.
  induction n as [| n IH]; [done |].
  rewrite seq_S, foldl_app. cbn [foldl Nat.add]. by rewrite length_insert.
Qed.

Lemma tag_fold_lookup (g : nat -> Z -> Z) n (system : list Z) i v :
  (i < n)%nat -> system !! (4 * i + 3)%nat = Some v ->
  foldl (fun system i =>
           <[(4 * i + 3)%nat := g i (default 0 (system !! (4 * i + 3)%nat))]> system)
        system (seq 0 n) !! (4 * i + 3)%nat = Some (g i v).
Proof.
  induction n as [| n IH]; intros Hi Hv; [lia |].
  rewrite seq_S, foldl_app. cbn [foldl Nat.add].
  destruct (decide (i = n)) as [-> | Hne].
  - rewrite list_lookup_insert_eq.
    + rewrite tag_fold_other by (intros; lia). by rewrite Hv.
    + rewrite tag_fold_length. by apply lookup_lt_Some in Hv.
  - rewrite list_lookup_insert_ne by lia. apply IH; [lia | done].
Qed.

Section Tags.
Variable w : IntWidth.

(** The tagging loop of [initialize]: for a monomer with at most seven
    neighbours and a tag below 32, the new tag is the old one plus 32 times
    the number of neighbours; the check kernel and [cleanup] both read that
    number back from it, the five low bits are the old tag, and the
    coordinates of all monomers are untouched. *)
Theorem tagNeighborCounts_decodes e i edges tag :
  (i < nAllMonomers e)%nat ->
  mNeighbors e !! i = Some edges -> (size edges <= MAX_CONNECTIVITY)%nat ->
  mPolymerSystem e !! (4 * i + 3)%nat = Some tag -> 0 <= tag < 32 ->
  let e' := set_mPolymerSystem e (tagNeighborCounts w e) in
  let tag' := default 0 (mPolymerSystem e' !! (4 * i + 3)%nat) in
  tag' = tag + 32 * Z.of_nat (size edges)
  /\ Z.land (Z.shiftr tag' 5) 7 = Z.of_nat (size edges)
  /\ taggedNeighbors e' i = Z.of_nat (size edges)
  /\ Z.land tag' 31 = tag
  /\ (forall j, getMonomerPositionInX e' j = getMonomerPositionInX e j
                /\ getMonomerPositionInY e' j = getMonomerPositionInY e j
                /\ getMonomerPositionInZ e' j = getMonomerPositionInZ e j).
Proof.
  intros Hi He Hsize Htag Hrange e' tag'.
  assert (Hlook : mPolymerSystem e' !! (4 * i + 3)%nat
                  = Some (toIntCUDA w (Z.lor tag (Z.shiftl (toIntCUDA w (Z.of_nat (size edges))) 5)))).
  { unfold e', tagNeighborCounts. cbn [mPolymerSystem set_mPolymerSystem].
    rewrite (tag_fold_lookup
               (fun i v => toIntCUDA w
                  (Z.lor v (Z.shiftl (toIntCUDA w
                     (Z.of_nat (size (default (mkMonomerEdges 0 []) (mNeighbors e !! i))))) 5)))
               (nAllMonomers e) (mPolymerSystem e) i tag Hi Htag).
    by rewrite He. }
  unfold MAX_CONNECTIVITY in Hsize.
  destruct (tag_bits w tag (Z.of_nat (size edges)) Hrange ltac:(lia)) as (B1 & B2 & B3 & B4).
  cbv zeta in B1, B2, B3, B4.
  unfold taggedNeighbors, tag'. rewrite Hlook. cbn [default from_option id].
  split; [done |]. split; [done |]. split; [done |]. split; [done |].
  intros j. unfold getMonomerPositionInX, getMonomerPositionInY, getMonomerPositionInZ.
  unfold e', tagNeighborCounts. cbn [mPolymerSystem set_mPolymerSystem].
  rewrite !(tag_fold_other
              (fun i v => toIntCUDA w
                 (Z.lor v (Z.shiftl (toIntCUDA w
                    (Z.of_nat (size (default (mkMonomerEdges 0 []) (mNeighbors e !! i))))) 5))))
    by (intros; lia).
  done.
Qed.

End Tags.

Lemma find_seq_None (P : nat -> bool) n :
  find P (seq 0 n) = None <-> forall i, (i < n)%nat -> P i = false.
Proof.
  split.
  - intros Hf i Hi. apply (find_none P _ Hf). apply in_seq. lia.
  - intros H. destruct (find P (seq 0 n)) as [i |] eqn:Hf; [| done].
    apply find_some in Hf as [Hin HP]. apply in_seq in Hin.
    rewrite H in HP by lia. done.
Qed.

(** [cleanup] throws exactly when the count in the property tag of some
    monomer differs from its number of stored neighbours, and then frees
    nothing: the object is as before the call.  Otherwise it returns and
    every array is released. *)
Theorem cleanup_throws_iff e :
  let r := cleanup e in
  (r.2 <> None
   <-> exists i, (i < nAllMonomers e)%nat
         /\ taggedNeighbors e i
            <> Z.of_nat (size (default (mkMonomerEdges 0 []) (mNeighbors e !! i))))
  /\ (r.2 <> None -> r.1 = e)
  /\ (r.2 = None -> r.1 = destruct e).
Proof.
  intros r. unfold r, cleanup.
  destruct (find _ (seq 0 (nAllMonomers e))) as [i |] eqn:Hf; cbn [fst snd].
  - split; [| done]. split; [| done]. intros _.
    apply find_some in Hf as [Hin HP]. apply in_seq in Hin.
    exists i. split; [lia |]. apply negb_true_iff, Z.eqb_neq in HP. done.
  - split; [| done]. split; [done |]. intros (i & Hi & Hne).
    rewrite find_seq_None in Hf. specialize (Hf i Hi).
    apply negb_false_iff, Z.eqb_eq in Hf. done.
Qed.

(** After a [cleanup] that returns, every array is [NULL] while the number
    of monomers, the box, the bonds and the coordinates are kept.  So a
    later [setNrOfAllMonomers] throws unless there were no monomers, a
    later [setLatticeSize] with the edges of the old box returns at once
    and leaves [mLattice] unallocated, on which [checkSystem] throws when
    the "Check" level is active, and the test of [initialize] for a
    repeated call passes. *)
Theorem cleanup_keeps_staging e :
  (cleanup e).2 = None ->
  let e' := (cleanup e).1 in
  mLattice e' = None /\ mAttributeSystem e' = None
  /\ host e' = mkHostMirrors None None None None None
  /\ nAllMonomers e' = nAllMonomers e /\ mBox e' = mBox e
  /\ mNeighbors e' = mNeighbors e /\ mPolymerSystem e' = mPolymerSystem e
  /\ mForbiddenBonds e' = mForbiddenBonds e
  /\ (nAllMonomers e <> 0%nat -> forall n, setNrOfAllMonomers e' n = throws e' MonomersAlreadySet)
  /\ (forall w, setLatticeSize w e' (mBoxX (mBox e)) (mBoxY (mBox e)) (mBoxZ (mBox e))
                = returns e')
  /\ (mLogCheck e = true -> forall w, checkSystem w e' = throws e' LatticeNotAllocated)
  /\ isAllocated (mLatticeOut (host e')) || isAllocated (mLatticeTmp (host e')) = false.
Proof.
  unfold cleanup. destruct (find _ (seq 0 (nAllMonomers e))); [done |].
  intros _. cbn [fst snd]. unfold destruct.
  cbn [mLattice mAttributeSystem host nAllMonomers mBox mNeighbors mPolymerSystem
       mForbiddenBonds set_mLattice set_host set_gpu set_mAttributeSystem].
  repeat (split; [done |]). split.
  { intros Hn n. unfold setNrOfAllMonomers.
    cbn [nAllMonomers set_mAttributeSystem set_gpu set_host set_mLattice].
    destruct (Nat.eqb_spec (nAllMonomers e) 0); [done |]. by cbn [negb orb]. }
  split.
  { intros w. unfold setLatticeSize.
    cbn [mBox set_mAttributeSystem set_gpu set_host set_mLattice].
    by rewrite !Z.eqb_refl. }
  split; [| done].
  intros Hlog w. unfold checkSystem.
  cbn [mLogCheck mLattice set_mAttributeSystem set_gpu set_host set_mLattice].
  by rewrite Hlog.
Qed.

Lemma tagNeighborCounts_decodes_witness :
  let e := dimerStaged.1 in
  let edges := mkMonomerEdges 1 [1; 0; 0; 0; 0; 0; 0]%nat in
  let e' := set_mPolymerSystem e (tagNeighborCounts Int16 e) in
  let tag' := default 0 (mPolymerSystem e' !! (4 * 0 + 3)%nat) in
  tag' = 0 + 32 * Z.of_nat (size edges)
  /\ Z.land (Z.shiftr tag' 5) 7 = Z.of_nat (size edges)
  /\ taggedNeighbors e' 0 = Z.of_nat (size edges)
  /\ Z.land tag' 31 = 0
  /\ (forall j, getMonomerPositionInX e' j = getMonomerPositionInX e j
                /\ getMonomerPositionInY e' j = getMonomerPositionInY e j
                /\ getMonomerPositionInZ e' j = getMonomerPositionInZ e j).
Proof.
  apply (tagNeighborCounts_decodes Int16 dimerStaged.1 0
           (mkMonomerEdges 1 [1; 0; 0; 0; 0; 0; 0]%nat) 0);
    [vm_compute; lia | reflexivity | vm_compute; lia | reflexivity | lia].
Defined.

Lemma cleanup_keeps_staging_witness :
  let e := dimerEngine in
  let e' := (cleanup e).1 in
  mLattice e' = None /\ mAttributeSystem e' = None
  /\ host e' = mkHostMirrors None None None None None
  /\ nAllMonomers e' = nAllMonomers e /\ mBox e' = mBox e
  /\ mNeighbors e' = mNeighbors e /\ mPolymerSystem e' = mPolymerSystem e
  /\ mForbiddenBonds e' = mForbiddenBonds e
  /\ (nAllMonomers e <> 0%nat -> forall n, setNrOfAllMonomers e' n = throws e' MonomersAlreadySet)
  /\ (forall w, setLatticeSize w e' (mBoxX (mBox e)) (mBoxY (mBox e)) (mBoxZ (mBox e))
                = returns e')
  /\ (mLogCheck e = true -> forall w, checkSystem w e' = throws e' LatticeNotAllocated)
  /\ isAllocated (mLatticeOut (host e')) || isAllocated (mLatticeTmp (host e')) = false.
Proof.
  apply (cleanup_keeps_staging dimerEngine). vm_compute. reflexivity.
Defined.

(** ** Further properties of a substep *)

Section SubstepFacts.

Variable w : IntWidth.
Variable np : bool.
Variable c : Constants.
Variables iOffset nbOffset pitch nMonomers : nat.
Variable rSeed : Z.

Local Abbreviation checkThread :=
  (kernelSimulationScBFMCheckSpecies w np c iOffset nbOffset pitch nMonomers rSeed)
  (only parsing).
Local Abbreviation performThread :=
  (kernelSimulationScBFMPerformSpecies w c iOffset nMonomers) (only parsing).
Local Abbreviation zeroThread :=
  (kernelSimulationScBFMZeroArraySpecies w c iOffset nMonomers) (only parsing).

Lemma launch_filter (thread : nat -> Device -> Device) ts d :
  (forall t d, (nMonomers <= t)%nat -> thread t d = d) ->
  launch ts thread d = launch (filter (fun t => (t < nMonomers)%nat) ts) thread d.
Proof.
  intros Hidle. revert d. induction ts as [| t ts IH]; intros d; [done |].
  rewrite launch_cons, filter_cons.
  destruct (decide (t < nMonomers)%nat) as [Hlt | Hge].
  - by rewrite launch_cons, IH.
  - rewrite Hidle by lia. apply IH.
Qed.

Lemma check_thread_idle t d : (nMonomers <= t)%nat -> checkThread t d = d.
Proof.
  intros Ht. unfold kernelSimulationScBFMCheckSpecies.
  destruct (Nat.leb_spec nMonomers t); [done | lia].
Qed.

Lemma perform_thread_idle t d : (nMonomers <= t)%nat -> performThread t d = d.
Proof.
  intros Ht. unfold kernelSimulationScBFMPerformSpecies.
  destruct (Nat.leb_spec nMonomers t); [done | lia].
Qed.

Lemma zero_thread_idle t d : (nMonomers <= t)%nat -> zeroThread t d = d.
Proof.
  intros Ht. unfold kernelSimulationScBFMZeroArraySpecies.
  destruct (Nat.leb_spec nMonomers t); [done | lia].
Qed.

(** The threads a launch starts beyond the last monomer of the species
    return at once: in each of the three launches they can be left out,
    wherever the schedule puts them. *)
Theorem substep_ignores_padding_threads tCheck tPerform tZero d :
  substep w np c iOffset nbOffset pitch nMonomers rSeed tCheck tPerform tZero d
  = substep w np c iOffset nbOffset pitch nMonomers rSeed
      (filter (fun t => (t < nMonomers)%nat) tCheck)
      (filter (fun t => (t < nMonomers)%nat) tPerform)
      (filter (fun t => (t < nMonomers)%nat) tZero) d.
Proof.
  unfold substep.
  rewrite (launch_filter _ tCheck) by apply check_thread_idle.
  rewrite (launch_filter _ tPerform) by apply perform_thread_idle.
  rewrite (launch_filter _ tZero) by apply zero_thread_idle.
  done.
Qed.

Lemma sameShape_refl d : sameShape d d.
Proof. by repeat split. Qed.

Lemma sameShape_trans d1 d2 d3 : sameShape d1 d2 -> sameShape d2 d3 -> sameShape d1 d3.
Proof.
  intros (A1 & A2 & A3 & A4 & A5 & A6) (B1 & B2 & B3 & B4 & B5 & B6).
  repeat split; try congruence.
Qed.

Lemma sameOutside_refl d : sameOutside iOffset nMonomers d d.
Proof. by intros i Hi. Qed.

Lemma sameOutside_trans d1 d2 d3 :
  sameOutside iOffset nMonomers d1 d2 -> sameOutside iOffset nMonomers d2 d3 -> sameOutside iOffset nMonomers d1 d3.
Proof.
  intros A B i Hi. destruct (A i Hi) as [A1 A2]. destruct (B i Hi) as [B1 B2].
  split; congruence.
Qed.

Lemma launch_shape (thread : nat -> Device -> Device) :
  (forall t d, sameShape d (thread t d) /\ sameOutside iOffset nMonomers d (thread t d)) ->
  forall ts d, sameShape d (launch ts thread d) /\ sameOutside iOffset nMonomers d (launch ts thread d).
Proof.
  intros Hstep ts. induction ts as [| t ts IH]; intros d.
  { split; [apply sameShape_refl | apply sameOutside_refl]. }
  rewrite launch_cons. destruct (Hstep t d) as [S1 O1].
  destruct (IH (thread t d)) as [S2 O2]. split.
  - by apply (sameShape_trans d (thread t d)).
  - by apply (sameOutside_trans d (thread t d)).
Qed.

Lemma check_thread_shape t d : sameShape d (checkThread t d) /\ sameOutside iOffset nMonomers d (checkThread t d).
Proof.
  rewrite check_thread_eq.
  destruct (Nat.leb_spec nMonomers t); [split; [apply sameShape_refl | apply sameOutside_refl] |].
  destruct (checkAccepts _ _ _ _ _ _ _ _ _); cbn; unfold sameShape, sameOutside, store; cbn;
    rewrite ?length_insert; (split; [done |]); intros i Hi;
    (split; [done |]); apply list_lookup_insert_ne; lia.
Qed.

Lemma perform_thread_shape t d :
  sameShape d (performThread t d) /\ sameOutside iOffset nMonomers d (performThread t d).
Proof.
  unfold kernelSimulationScBFMPerformSpecies.
  destruct (Nat.leb_spec nMonomers t); [split; [apply sameShape_refl | apply sameOutside_refl] |].
  destruct (Z.land _ 1 =? 0); [split; [apply sameShape_refl | apply sameOutside_refl] |].
  destruct (checkFront _ _ _ _ _ _);
    [split; [apply sameShape_refl | apply sameOutside_refl] |].
  cbn; unfold sameShape, sameOutside, store; cbn; rewrite ?length_insert.
  split; [done |]. intros i Hi. split; [done |]. apply list_lookup_insert_ne; lia.
Qed.

Lemma zero_thread_shape t d : sameShape d (zeroThread t d) /\ sameOutside iOffset nMonomers d (zeroThread t d).
Proof.
  rewrite zero_thread_eq.
  destruct (Nat.leb_spec nMonomers t); [split; [apply sameShape_refl | apply sameOutside_refl] |].
  cbv zeta.
  destruct (Z.land _ 3 =? 0); [split; [apply sameShape_refl | apply sameOutside_refl] |].
  unfold sameShape, sameOutside, store; cbn [mPolymerSystemSorted_gpu mPolymerFlags_gpu
    mLatticeOut_gpu mLatticeTmp_gpu mNeighborsSorted_gpu]. rewrite ?length_insert.
  split.
  - repeat (split; [done |]). intros j. unfold fetchVec at 1.
    destruct (decide (j = (iOffset + t)%nat)) as [-> | Hne].
    + destruct (mPolymerSystemSorted_gpu d !! (iOffset + t)%nat) as [p |] eqn:Hp.
      * rewrite list_lookup_insert_eq by by apply lookup_lt_Some in Hp.
        unfold fetchVec. rewrite Hp. cbn [default from_option id]. by destruct (Z.land _ 3 =? 3).
      * rewrite list_insert_ge by by apply lookup_ge_None. unfold fetchVec. by rewrite Hp.
    + by rewrite list_lookup_insert_ne.
  - intros i Hi. split; [| done]. apply list_lookup_insert_ne; lia.
Qed.

Lemma substep_shape tCheck tPerform tZero d :
  let d' := substep w np c iOffset nbOffset pitch nMonomers rSeed tCheck tPerform tZero d in
  sameShape d d' /\ sameOutside iOffset nMonomers d d'.
Proof.
  cbv zeta. unfold substep.
  set (dA := launch tCheck _ d). set (dB := launch tPerform _ dA).
  assert (HA : sameShape d dA /\ sameOutside iOffset nMonomers d dA)
    by (apply launch_shape; intros; apply check_thread_shape).
  assert (HB : sameShape dA dB /\ sameOutside iOffset nMonomers dA dB)
    by (apply launch_shape; intros; apply perform_thread_shape).
  assert (HC : sameShape dB (launch tZero zeroThread dB)
               /\ sameOutside iOffset nMonomers dB (launch tZero zeroThread dB))
    by (apply launch_shape; intros; apply zero_thread_shape).
  destruct HA, HB, HC. split.
  - eapply sameShape_trans; [eapply sameShape_trans |]; eassumption.
  - eapply sameOutside_trans; [eapply sameOutside_trans |]; eassumption.
Qed.

(** A substep on one species, whatever the thread schedules: no array
    changes its length, the neighbour table and the property tag of every
    monomer are as before, hence also the neighbour counts the kernels read
    from the tags, and the position and the flag of every monomer outside
    the species are as before. *)
Theorem substep_leaves_other_species tCheck tPerform tZero d :
  let d' := substep w np c iOffset nbOffset pitch nMonomers rSeed tCheck tPerform tZero d in
  length (mPolymerSystemSorted_gpu d') = length (mPolymerSystemSorted_gpu d)
  /\ length (mPolymerFlags_gpu d') = length (mPolymerFlags_gpu d)
  /\ length (mLatticeOut_gpu d') = length (mLatticeOut_gpu d)
  /\ length (mLatticeTmp_gpu d') = length (mLatticeTmp_gpu d)
  /\ mNeighborsSorted_gpu d' = mNeighborsSorted_gpu d
  /\ (forall j, vw (fetchVec (mPolymerSystemSorted_gpu d') j)
                = vw (fetchVec (mPolymerSystemSorted_gpu d) j))
  /\ (forall i, (i < iOffset \/ iOffset + nMonomers <= i)%nat ->
        mPolymerSystemSorted_gpu d' !! i = mPolymerSystemSorted_gpu d !! i
        /\ mPolymerFlags_gpu d' !! i = mPolymerFlags_gpu d !! i).
Proof.
  intros d'. destruct (substep_shape tCheck tPerform tZero d) as [Hs Ho].
  fold d' in Hs, Ho. destruct Hs as (S1 & S2 & S3 & S4 & S5 & S6).
  repeat (split; [done |]). exact Ho.
Qed.

(** The flag of a monomer of the species after a substep, whatever the
    thread order: 0 when the check kernel rejected the proposal, and
    otherwise [4 d + 1] or [4 d + 3] with [d] the direction drawn for the
    monomer; the perform bit is never set without the check bit. *)
Theorem substep_flag_values nThreads tCheck tPerform tZero d m :
  tCheck ≡ₚ seq 0 nThreads -> tPerform ≡ₚ seq 0 nThreads ->
  (nMonomers <= nThreads)%nat ->
  (m < nMonomers)%nat ->
  (iOffset + m < length (mPolymerFlags_gpu d))%nat ->
  let d' := substep w np c iOffset nbOffset pitch nMonomers rSeed tCheck tPerform tZero d in
  let flag := default 0 (mPolymerFlags_gpu d' !! (iOffset + m)%nat) in
  let direction := drawDirection w m rSeed in
  (checkAccepts w np c d iOffset nbOffset pitch rSeed m = false -> flag = 0)
  /\ (checkAccepts w np c d iOffset nbOffset pitch rSeed m = true ->
      flag = 4 * direction + 1 \/ flag = 4 * direction + 3)
  /\ (flag = 0 \/ flag = 4 * direction + 1 \/ flag = 4 * direction + 3)
  /\ Z.land flag 3 <> 2
  /\ (flag <> 0 -> flagDirection w flag = direction).
Proof.
  intros [NA CA]%perm_seq_facts [NB CB]%perm_seq_facts Hn Hm Hlen d' flag direction.
  unfold d', substep in flag.
  set (dA := launch tCheck checkThread d) in *.
  set (dB := launch tPerform performThread dA) in *.
  destruct (zero_launch_frame w c iOffset nMonomers tZero dB) as (HfC & _ & _).
  assert (HfA : mPolymerFlags_gpu dA !! (iOffset + m)%nat
                = Some (if checkAccepts w np c d iOffset nbOffset pitch rSeed m
                        then acceptedFlag w m rSeed else 0)).
  { unfold dA. apply check_launch_flags; [apply CA; lia | done | done]. }
  destruct (acceptedFlag_bits w m rSeed) as (F0 & G0 & F1 & F3 & FD & G1 & G3 & GD).
  fold direction in F0, G0, FD, GD.
  assert (Hflag : flag = 0 /\ checkAccepts w np c d iOffset nbOffset pitch rSeed m = false
                  \/ checkAccepts w np c d iOffset nbOffset pitch rSeed m = true
                     /\ (flag = 4 * direction + 1 \/ flag = 4 * direction + 3)).
  { unfold flag. rewrite HfC.
    destruct (perform_launch_flags w c iOffset nMonomers tPerform dA (iOffset + m)%nat NB)
      as [E | (p & Hp & Hbit & E)]; fold dB in E; rewrite E.
    - rewrite HfA. destruct (checkAccepts _ _ _ _ _ _ _ _ _); cbn [default from_option id].
      + right. split; [done |]. left. exact F0.
      + by left.
    - rewrite HfA in Hp. injection Hp as <-.
      destruct (checkAccepts _ _ _ _ _ _ _ _ _); [| done].
      cbn [default from_option id]. right. split; [done |]. right. exact G0. }
  clearbody flag. clear HfA HfC.
  destruct Hflag as [[-> Hacc] | [Hacc [-> | ->]]]; rewrite Hacc.
  - split; [done |]. split; [done |]. split; [by left |]. split; done.
  - split; [done |]. split; [intros _; by left |]. split; [right; by left |].
    rewrite <- F0. split; [rewrite F3; lia | intros _; exact FD].
  - split; [done |]. split; [intros _; by right |]. split; [right; by right |].
    rewrite <- G0. split; [rewrite G3; lia | intros _; exact GD].
Qed.

End SubstepFacts.

Section ParallelMoves.

Variable w : IntWidth.
Variable np : bool.
Variable c : Constants.
Variables iOffset nbOffset pitch nMonomers : nat.
Variable rSeed : Z.

Local Abbreviation checkThread :=
  (kernelSimulationScBFMCheckSpecies w np c iOffset nbOffset pitch nMonomers rSeed)
  (only parsing).
Local Abbreviation performThread :=
  (kernelSimulationScBFMPerformSpecies w c iOffset nMonomers) (only parsing).
Local Abbreviation accepts d :=
  (checkAccepts w np c d iOffset nbOffset pitch rSeed) (only parsing).
Local Abbreviation proposal d m :=
  (proposedCell c (fetchVec (mPolymerSystemSorted_gpu d) (iOffset + m))
     (drawDirection w m rSeed)) (only parsing).

Lemma check_thread_keeps_mark t d i :
  mLatticeTmp_gpu d !! i = Some 1 -> mLatticeTmp_gpu (checkThread t d) !! i = Some 1.
Proof.
  intros Hi. destruct (check_thread_tmp w np c iOffset nbOffset pitch nMonomers rSeed t d)
    as [-> | (_ & _ & ->)]; [done |].
  unfold store. destruct (decide (Z.to_nat (proposal d t) = i)) as [<- | Hne].
  - apply list_lookup_insert_eq. by apply lookup_lt_Some in Hi.
  - by rewrite list_lookup_insert_ne.
Qed.

Lemma check_launch_keeps_mark ts d i :
  mLatticeTmp_gpu d !! i = Some 1 -> mLatticeTmp_gpu (launch ts checkThread d) !! i = Some 1.
Proof.
  revert d. induction ts as [| t ts IH]; intros d Hi; [done |].
  rewrite launch_cons. by apply IH, check_thread_keeps_mark.
Qed.

Lemma check_launch_marks ts d m :
  m ∈ ts -> (m < nMonomers)%nat -> accepts d m = true ->
  (Z.to_nat (proposal d m) < length (mLatticeTmp_gpu d))%nat ->
  mLatticeTmp_gpu (launch ts checkThread d) !! Z.to_nat (proposal d m) = Some 1.
Proof.
  revert d. induction ts as [| t ts IH]; intros d Hin Hm Hacc Hlen.
  { by apply elem_of_nil in Hin. }
  rewrite launch_cons.
  destruct (check_thread_frame w np c iOffset nbOffset pitch nMonomers rSeed t d)
    as (Hs & Hl & Hn & Hf).
  apply elem_of_cons in Hin as [<- | Hin].
  - apply check_launch_keeps_mark. rewrite check_thread_eq.
    destruct (Nat.leb_spec nMonomers m); [lia |]. rewrite Hacc.
    cbn [mLatticeTmp_gpu setLatticeTmp]. unfold store. by apply list_lookup_insert_eq.
  - rewrite <- Hs. apply IH; try done.
    + by rewrite (accepts_frame w np c iOffset nbOffset pitch rSeed d).
    + rewrite Hs.
      destruct (check_thread_tmp w np c iOffset nbOffset pitch nMonomers rSeed t d)
        as [-> | (_ & _ & ->)]; [done |]. unfold store. by rewrite length_insert.
Qed.

Lemma perform_thread_flag m d :
  (m < nMonomers)%nat -> (iOffset + m < length (mPolymerFlags_gpu d))%nat ->
  let p := default 0 (mPolymerFlags_gpu d !! (iOffset + m)%nat) in
  let data := fetchVec (mPolymerSystemSorted_gpu d) (iOffset + m) in
  mPolymerFlags_gpu (performThread m d) !! (iOffset + m)%nat
  = Some (if (Z.land p 1 =? 0)
             || checkFront (dcBox c) (mLatticeTmp_gpu d) (vx data) (vy data) (vz data)
                  (flagDirection w p)
          then p else toFlags (Z.lor p 2)).
Proof.
  intros Hm Hlen p data. unfold kernelSimulationScBFMPerformSpecies.
  destruct (Nat.leb_spec nMonomers m); [lia |]. fold p data.
  destruct (lookup_lt_is_Some_2 _ _ Hlen) as [p' Hp'].
  assert (p = p') as <- by (unfold p; by rewrite Hp').
  destruct (Z.land p 1 =? 0); [done |]. cbn [orb].
  fold (flagDirection w p).
  destruct (checkFront _ _ _ _ _ _); [done |].
  cbn [mPolymerFlags_gpu setPolymerFlags setLatticeOut].
  by apply list_lookup_insert_eq.
Qed.

Lemma perform_launch_flag ts d m :
  NoDup ts -> m ∈ ts -> (m < nMonomers)%nat ->
  (iOffset + m < length (mPolymerFlags_gpu d))%nat ->
  let p := default 0 (mPolymerFlags_gpu d !! (iOffset + m)%nat) in
  let data := fetchVec (mPolymerSystemSorted_gpu d) (iOffset + m) in
  mPolymerFlags_gpu (launch ts performThread d) !! (iOffset + m)%nat
  = Some (if (Z.land p 1 =? 0)
             || checkFront (dcBox c) (mLatticeTmp_gpu d) (vx data) (vy data) (vz data)
                  (flagDirection w p)
          then p else toFlags (Z.lor p 2)).
Proof.
  revert d. induction ts as [| t ts IH]; intros d Hnd Hin Hm Hlen p data.
  { by apply elem_of_nil in Hin. }
  apply NoDup_cons in Hnd as [Hnin Hnd].
  rewrite launch_cons.
  destruct (perform_thread_frame w c iOffset nMonomers t d) as (Hs & Ht & _).
  destruct (perform_thread_shape w c iOffset nMonomers t d) as [(_ & Hfl & _) _].
  apply elem_of_cons in Hin as [-> | Hin].
  - rewrite perform_launch_flags_other.
    + by apply perform_thread_flag.
    + intros t' Ht' E. assert (t' = t) by lia. by subst.
  - assert (t <> m) by (intros ->; done).
    rewrite IH by (try done; lia). rewrite Hs, Ht.
    destruct (perform_thread_flags w c iOffset nMonomers t d (iOffset + m)%nat)
      as [-> | (E & _)]; [done | lia].
Qed.

(** The perform kernel decides by the marks of the other monomers only.
    After the check and perform launches on a zero scratch lattice of one
    byte per cell, in a box with edges of at least 4, a monomer of the
    species has both flag bits set exactly when the check kernel accepted
    its proposal and no other accepted monomer of the species proposes a
    cell among the nine cells in front of it; its own mark never stands in
    its way. *)
Theorem perform_accepts_iff_front_unmarked lx ly lz nThreads tCheck tPerform d m :
  tCheck ≡ₚ seq 0 nThreads -> tPerform ≡ₚ seq 0 nThreads ->
  (nMonomers <= nThreads)%nat ->
  BoxOK (dcBox c) lx ly lz -> 2 <= lx -> 2 <= ly -> 2 <= lz ->
  Forall (fun v => v = 0) (mLatticeTmp_gpu d) ->
  length (mLatticeTmp_gpu d) = Z.to_nat (2 ^ (lx + ly + lz)) ->
  (m < nMonomers)%nat ->
  (iOffset + m < length (mPolymerFlags_gpu d))%nat ->
  let dB := launch tPerform performThread (launch tCheck checkThread d) in
  let flag := default 0 (mPolymerFlags_gpu dB !! (iOffset + m)%nat) in
  let p := fetchVec (mPolymerSystemSorted_gpu d) (iOffset + m) in
  Z.land flag 3 = 3
  <-> accepts d m = true
      /\ forall m', (m' < nMonomers)%nat -> m' <> m -> accepts d m' = true ->
           forall cell, cell ∈ frontPlaneCells (vx p) (vy p) (vz p) (drawDirection w m rSeed) ->
             cellIndex (dcBox c) cell <> proposal d m'.
Proof.
  intros [NA CA]%perm_seq_facts [NB CB]%perm_seq_facts Hn Hbox Hx Hy Hz Hzero Htmp Hm Hlen
         dB flag p.
  set (dA := launch tCheck checkThread d) in *.
  destruct (check_launch_frame w np c iOffset nbOffset pitch nMonomers rSeed tCheck d)
    as (HsA & _ & _ & HfA). fold dA in HsA, HfA.
  assert (HflagA : mPolymerFlags_gpu dA !! (iOffset + m)%nat
                   = Some (if accepts d m then acceptedFlag w m rSeed else 0)).
  { unfold dA. apply check_launch_flags; [apply CA; lia | done | done]. }
  assert (HflagB : flag = if (Z.land (if accepts d m then acceptedFlag w m rSeed else 0) 1 =? 0)
                             || checkFront (dcBox c) (mLatticeTmp_gpu dA) (vx p) (vy p) (vz p)
                                  (flagDirection w
                                     (if accepts d m then acceptedFlag w m rSeed else 0))
                          then (if accepts d m then acceptedFlag w m rSeed else 0)
                          else toFlags (Z.lor (if accepts d m then acceptedFlag w m rSeed
                                               else 0) 2)).
  { unfold flag, dB. rewrite perform_launch_flag by (try done; try apply CB; lia).
    rewrite HflagA, HsA. done. }
  clearbody flag. clear HflagA dB.
  destruct (acceptedFlag_bits w m rSeed) as (_ & _ & F1 & F3 & FD & _ & G3 & _).
  destruct (drawDirection_eq w m rSeed) as [_ HD].
  assert (Hmarks : forall i v, mLatticeTmp_gpu dA !! i = Some v ->
            v = 0 \/ exists m', (m' < nMonomers)%nat /\ accepts d m' = true
                               /\ Z.to_nat (proposal d m') = i).
  { intros i v Hv. apply check_launch_tmp in Hv as [Hv | (-> & m' & _ & Hm' & Hacc & Hcell)].
    - left. rewrite Forall_lookup in Hzero. by apply (Hzero i).
    - right. by exists m'. }
  assert (Hnonneg : forall m', 0 <= proposal d m') by (intros; apply cellIndex_nonneg).
  destruct (accepts d m) eqn:Hacc.
  2:{ assert (flag = 0) as -> by (rewrite HflagB; reflexivity).
      split; [done | intros [? _]; done]. }
  rewrite F1, FD in HflagB.
  replace (1 =? 0) with false in HflagB by reflexivity.
  rewrite orb_false_l in HflagB.
  destruct (checkFront (dcBox c) (mLatticeTmp_gpu dA) (vx p) (vy p) (vz p)
              (drawDirection w m rSeed)) eqn:Hfront; subst flag.
  - rewrite F3. split; [done |]. intros [_ Hfree]. exfalso.
    apply checkFront_spec in Hfront as (cell & Hin & Hne); [| done].
    unfold tex1Dfetch, fetch in Hne.
    destruct (mLatticeTmp_gpu dA !! Z.to_nat (cellIndex (dcBox c) cell)) as [v |] eqn:Hv;
      [| done].
    cbn [default from_option id] in Hne.
    apply Hmarks in Hv as [-> | (m' & Hm' & Hacc' & Hcell)]; [done |].
    assert (Hc : proposal d m' = cellIndex (dcBox c) cell).
    { pose proof (Hnonneg m'). pose proof (cellIndex_nonneg (dcBox c) cell). lia. }
    destruct (decide (m' = m)) as [-> | Hne'].
    + revert Hc. apply not_eq_sym. by apply (front_misses_dest _ lx ly lz).
    + by apply (Hfree m' Hm' Hne' Hacc' cell Hin).
  - rewrite G3. split; [| done]. intros _. split; [done |].
    intros m' Hm' Hne' Hacc' cell Hin Hc.
    assert (Hin' : m' ∈ tCheck) by (apply CA; lia).
    assert (Hrange : (Z.to_nat (proposal d m') < length (mLatticeTmp_gpu d))%nat).
    { rewrite Htmp. pose proof (linearize_lt (dcBox c) lx ly lz
        (vx (fetchVec (mPolymerSystemSorted_gpu d) (iOffset + m'))
         + fetch DXTable_d (drawDirection w m' rSeed))
        (vy (fetchVec (mPolymerSystemSorted_gpu d) (iOffset + m'))
         + fetch DYTable_d (drawDirection w m' rSeed))
        (vz (fetchVec (mPolymerSystemSorted_gpu d) (iOffset + m'))
         + fetch DZTable_d (drawDirection w m' rSeed)) Hbox) as Hlt.
      unfold proposedCell, destinationCell. lia. }
    pose proof (check_launch_marks tCheck d m' Hin' Hm' Hacc' Hrange) as Hmark.
    fold dA in Hmark.
    assert (Hocc : checkFront (dcBox c) (mLatticeTmp_gpu dA) (vx p) (vy p) (vz p)
                     (drawDirection w m rSeed) = true); [| by rewrite Hocc in Hfront].
    apply checkFront_spec; [done |]. exists cell. split; [done |].
    unfold tex1Dfetch, fetch. rewrite Hc, Hmark. done.
Qed.

End ParallelMoves.

(** ** Whole runs *)

Lemma untangle_other e sorted n k :
  (forall i, (i < n)%nat -> (k < 4 * i \/ 4 * i + 3 < k)%nat) ->
  foldl (fun system i =>
           let p := fetchVec sorted (Z.to_nat (default 0 (iToiNew (groups e) !! i))) in
           <[(4 * i + 3)%nat := vw p]>
             (<[(4 * i + 2)%nat := vz p]>
                (<[(4 * i + 1)%nat := vy p]>
                   (<[(4 * i + 0)%nat := vx p]> system))))
        (mPolymerSystem e) (seq 0 n) !! k = mPolymerSystem e !! k.
Proof.
  induction n as [| n IH]; intros Hk; [done |].
  rewrite seq_S, foldl_app. cbn [foldl Nat.add]. cbv zeta.
  pose proof (Hk n ltac:(lia)).
  rewrite !list_lookup_insert_ne by lia. apply IH. intros i Hi. apply Hk. lia.
Qed.

Lemma untangle_length e sorted n :
  length (foldl (fun system i =>
           let p := fetchVec sorted (Z.to_nat (default 0 (iToiNew (groups e) !! i))) in
           <[(4 * i + 3)%nat := vw p]>
             (<[(4 * i + 2)%nat := vz p]>
                (<[(4 * i + 1)%nat := vy p]>
                   (<[(4 * i + 0)%nat := vx p]> system))))
        (mPolymerSystem e) (seq 0 n)) = length (mPolymerSystem e).
Proof.
  induction n as [| n IH]; [done |].
  rewrite seq_S, foldl_app. cbn [foldl Nat.add]. cbv zeta. by rewrite !length_insert.
Qed.

Lemma untangle_lookup e sorted n i :
  (i < n)%nat -> (4 * n <= length (mPolymerSystem e))%nat ->
  let system :=
    foldl (fun system i =>
             let p := fetchVec sorted (Z.to_nat (default 0 (iToiNew (groups e) !! i))) in
             <[(4 * i + 3)%nat := vw p]>
               (<[(4 * i + 2)%nat := vz p]>
                  (<[(4 * i + 1)%nat := vy p]>
                     (<[(4 * i + 0)%nat := vx p]> system))))
          (mPolymerSystem e) (seq 0 n) in
  let p := fetchVec sorted (Z.to_nat (default 0 (iToiNew (groups e) !! i))) in
  system !! (4 * i + 0)%nat = Some (vx p) /\ system !! (4 * i + 1)%nat = Some (vy p)
  /\ system !! (4 * i + 2)%nat = Some (vz p) /\ system !! (4 * i + 3)%nat = Some (vw p).
Proof.
  induction n as [| n IH]; intros Hi Hlen; [lia |]. cbv zeta.
  rewrite seq_S, foldl_app. cbn [foldl Nat.add]. cbv zeta.
  destruct (decide (i = n)) as [-> | Hne].
  - pose proof (untangle_length e sorted n) as Hl. cbv zeta in Hl.
    repeat split.
    + rewrite !list_lookup_insert_ne by lia. apply list_lookup_insert_eq. rewrite Hl. lia.
    + rewrite !list_lookup_insert_ne by lia.
      apply list_lookup_insert_eq. rewrite length_insert, Hl. lia.
    + rewrite !list_lookup_insert_ne by lia.
      apply list_lookup_insert_eq. rewrite !length_insert, Hl. lia.
    + apply list_lookup_insert_eq. rewrite !length_insert, Hl. lia.
  - rewrite !list_lookup_insert_ne by lia. apply IH; lia.
Qed.

Lemma untangle_entries e sorted i :
  (i < nAllMonomers e)%nat -> (4 * nAllMonomers e <= length (mPolymerSystem e))%nat ->
  let p := fetchVec sorted (Z.to_nat (default 0 (iToiNew (groups e) !! i))) in
  untangle e sorted !! (4 * i + 0)%nat = Some (vx p)
  /\ untangle e sorted !! (4 * i + 1)%nat = Some (vy p)
  /\ untangle e sorted !! (4 * i + 2)%nat = Some (vz p)
  /\ untangle e sorted !! (4 * i + 3)%nat = Some (vw p).
Proof. intros Hi Hlen. by apply untangle_lookup. Qed.

Lemma copyBack_system e :
  mPolymerSystem (copyBack e) = untangle e (mPolymerSystemSorted_gpu (gpu e)).
Proof. done. Qed.

Lemma copyBack_reads_entries e :
  (4 * nAllMonomers e <= length (mPolymerSystem e))%nat ->
  (forall i, (i < nAllMonomers e)%nat ->
     let p := fetchVec (mPolymerSystemSorted_gpu (gpu e))
                (Z.to_nat (default 0 (iToiNew (groups e) !! i))) in
     default 0 (mPolymerSystem (copyBack e) !! (4 * i + 0)%nat) = vx p
     /\ default 0 (mPolymerSystem (copyBack e) !! (4 * i + 1)%nat) = vy p
     /\ default 0 (mPolymerSystem (copyBack e) !! (4 * i + 2)%nat) = vz p
     /\ mPolymerSystem (copyBack e) !! (4 * i + 3)%nat = Some (vw p))
  /\ mirrorsInSync (copyBack e).
Proof.
  intros Hlen. split.
  - intros i Hi p. rewrite copyBack_system.
    destruct (untangle_entries e (mPolymerSystemSorted_gpu (gpu e)) i Hi Hlen)
      as (E0 & E1 & E2 & E3).
    cbv zeta in E0, E1, E2, E3. fold p in E0, E1, E2, E3.
    rewrite E0, E1, E2, E3. done.
  - intros i Hi. unfold polymerSystemEntry. rewrite copyBack_system.
    change (nAllMonomers (copyBack e)) with (nAllMonomers e) in Hi.
    change (groups (copyBack e)) with (groups e).
    change (mPolymerSystemSorted_gpu (gpu (copyBack e)))
      with (mPolymerSystemSorted_gpu (gpu e)).
    destruct (untangle_entries e (mPolymerSystemSorted_gpu (gpu e)) i Hi Hlen)
      as (-> & -> & -> & ->).
    by destruct (fetchVec _ _).
Qed.

(** The copy back at the end of a run, on a coordinate array that has four
    entries for every monomer: the three getters return for monomer [i] the
    position the device holds at slot [iToiNew[i]], the property tag of
    that slot is copied as well, the entries beyond the monomers and the
    device are untouched, and the sorted mirror is again in sync. *)
Theorem copyBack_reads_device e :
  (4 * nAllMonomers e <= length (mPolymerSystem e))%nat ->
  let e' := copyBack e in
  (forall i, (i < nAllMonomers e)%nat ->
     let p := fetchVec (mPolymerSystemSorted_gpu (gpu e))
                (Z.to_nat (default 0 (iToiNew (groups e) !! i))) in
     getMonomerPositionInX e' i = vx p /\ getMonomerPositionInY e' i = vy p
     /\ getMonomerPositionInZ e' i = vz p
     /\ mPolymerSystem e' !! (4 * i + 3)%nat = Some (vw p))
  /\ (forall k, (4 * nAllMonomers e <= k)%nat ->
        mPolymerSystem e' !! k = mPolymerSystem e !! k)
  /\ length (mPolymerSystem e') = length (mPolymerSystem e)
  /\ gpu e' = gpu e /\ mNeighbors e' = mNeighbors e /\ groups e' = groups e
  /\ mirrorsInSync e'.
Proof.
  intros Hlen e'.
  split; [| split; [| split; [| split; [| split; [| split]]]]]; try done.
  - intros i Hi p. unfold getMonomerPositionInX, getMonomerPositionInY, getMonomerPositionInZ.
    unfold e'. rewrite copyBack_system.
    destruct (untangle_entries e (mPolymerSystemSorted_gpu (gpu e)) i Hi Hlen)
      as (E0 & E1 & E2 & E3).
    cbv zeta in E0, E1, E2, E3. fold p in E0, E1, E2, E3.
    rewrite E0, E1, E2, E3. done.
  - intros k Hk. unfold e'. rewrite copyBack_system.
    apply untangle_other. intros i Hi. lia.
  - unfold e'. rewrite copyBack_system. apply untangle_length.
  - unfold e'. intros i Hi. unfold polymerSystemEntry. rewrite copyBack_system.
    change (nAllMonomers (copyBack e)) with (nAllMonomers e) in Hi.
    change (groups (copyBack e)) with (groups e).
    change (mPolymerSystemSorted_gpu (gpu (copyBack e)))
      with (mPolymerSystemSorted_gpu (gpu e)).
    destruct (untangle_entries e (mPolymerSystemSorted_gpu (gpu e)) i Hi Hlen)
      as (-> & -> & -> & ->).
    by destruct (fetchVec _ _).
Qed.

Lemma copyBack_reads_device_witness :
  let e := dimerEngine in
  let e' := copyBack e in
  (forall i, (i < nAllMonomers e)%nat ->
     let p := fetchVec (mPolymerSystemSorted_gpu (gpu e))
                (Z.to_nat (default 0 (iToiNew (groups e) !! i))) in
     getMonomerPositionInX e' i = vx p /\ getMonomerPositionInY e' i = vy p
     /\ getMonomerPositionInZ e' i = vz p
     /\ mPolymerSystem e' !! (4 * i + 3)%nat = Some (vw p))
  /\ (forall k, (4 * nAllMonomers e <= k)%nat ->
        mPolymerSystem e' !! k = mPolymerSystem e !! k)
  /\ length (mPolymerSystem e') = length (mPolymerSystem e)
  /\ gpu e' = gpu e /\ mNeighbors e' = mNeighbors e /\ groups e' = groups e
  /\ mirrorsInSync e'.
Proof.
  apply (copyBack_reads_device dimerEngine). vm_compute. lia.
Defined.

Lemma sameStaging_refl e : sameStaging e e.
Proof. by repeat split. Qed.

Lemma sameStaging_trans e1 e2 e3 :
  sameStaging e1 e2 -> sameStaging e2 e3 -> sameStaging e1 e3.
Proof.
  intros (A1 & A2 & A3 & A4 & A5 & A6 & A7 & A8) (B1 & B2 & B3 & B4 & B5 & B6 & B7 & B8).
  repeat split; congruence.
Qed.

Lemma substep_keeps_scratch_zero w np c iOffset nbOffset pitch nMonomers rSeed
    nThreads tCheck tPerform tZero d :
  tCheck ≡ₚ seq 0 nThreads -> tPerform ≡ₚ seq 0 nThreads -> tZero ≡ₚ seq 0 nThreads ->
  (nMonomers <= nThreads)%nat ->
  (forall m, (m < nMonomers)%nat -> (iOffset + m < length (mPolymerFlags_gpu d))%nat) ->
  Forall (fun v => v = 0) (mLatticeTmp_gpu d) ->
  Forall (fun v => v = 0)
    (mLatticeTmp_gpu
       (substep w np c iOffset nbOffset pitch nMonomers rSeed tCheck tPerform tZero d)).
Proof.
  intros [NA CA]%perm_seq_facts [NB CB]%perm_seq_facts [NC CC]%perm_seq_facts Hn Hlen Hzero.
  rewrite Forall_lookup in Hzero.
  apply Forall_lookup. intros i v Hv. unfold substep in Hv.
  set (dA := launch tCheck _ d) in *. set (dB := launch tPerform _ dA) in *.
  pose proof Hv as Hv0.
  apply zero_launch_tmp in Hv as [-> | Hv]; [done |].
  destruct (perform_launch_frame w c iOffset nMonomers tPerform dA) as (HsB & HtB & _).
  destruct (check_launch_frame w np c iOffset nbOffset pitch nMonomers rSeed tCheck d)
    as (HsA & _ & _ & HfA).
  fold dA in HsA, HfA. fold dB in HsB, HtB.
  rewrite HtB in Hv.
  apply check_launch_tmp in Hv as [Hv | (-> & m & _ & Hm & Hacc & Hcell)];
    [by apply (Hzero i) |].
  assert (HfAm : mPolymerFlags_gpu dA !! (iOffset + m)%nat
                 = Some (acceptedFlag w m rSeed)).
  { unfold dA. rewrite check_launch_flags by (try apply CA; try apply Hlen; lia).
    by rewrite Hacc. }
  destruct (acceptedFlag_bits w m rSeed) as (_ & _ & F1 & F3 & FD & G1 & G3 & GD).
  assert (HB : exists p, mPolymerFlags_gpu dB !! (iOffset + m)%nat = Some p
                         /\ Z.land p 3 <> 0
                         /\ flagDirection w p = drawDirection w m rSeed).
  { destruct (perform_launch_flags w c iOffset nMonomers tPerform dA (iOffset + m)%nat NB)
      as [E | (p & Hp & _ & E)]; fold dB in E.
    - exists (acceptedFlag w m rSeed). rewrite E. split; [exact HfAm |].
      split; [rewrite F3; lia | exact FD].
    - rewrite HfAm in Hp. injection Hp as <-. eexists. split; [exact E |].
      split; [rewrite G3; lia | exact GD]. }
  destruct HB as (p & Hp & Hp3 & HpD).
  apply (zero_launch_clears w c iOffset nMonomers tZero dB m 1 NC).
  - apply CC. lia.
  - exact Hm.
  - cbv zeta. rewrite Hp. exact Hp3.
  - cbv zeta. rewrite Hp. cbn [default from_option id]. rewrite HpD, HsB, HsA, Hcell. exact Hv0.
Qed.

(** *** Zero sweeps *)

Section ZeroSweeps.
Variable w : IntWidth.
Variable np : bool.
Variable r250_rand32 : nat -> Z.

Lemma zero_sweeps_result e :
  let r := runSimulationOnGPU w np r250_rand32 e 0 in
  mNeighbors r.1 = mNeighbors e /\ gpu r.1 = gpu e
  /\ ((forall nOccupied, r.2 <> Some (LatticeTmpOccupied nOccupied)) ->
      mPolymerSystem r.1 = untangle e (mPolymerSystemSorted_gpu (gpu e)))
  /\ (mirrorsInSync e -> mPolymerSystem r.1 = mPolymerSystem e)
  /\ (mLogCheck e = false -> r.2 = None).
Proof.
  intros r. unfold r, runSimulationOnGPU. change (Z.to_nat 0) with 0%nat.
  cbv zeta. cbn [Nat.iter nat_rect].
  destruct (checkLatticeTmp_frame e) as (Hs & Hn & Hg & Hl & HN & Hc & Hr).
  destruct (checkLatticeTmp e) as [e1 [err |]] eqn:He1; cbn [fst snd] in *.
  - cbn [andThen fst snd].
    split; [done |]. split; [done |]. split.
    { intros Hno. exfalso. unfold checkLatticeTmp in He1.
      destruct (negb (mLogCheck e)); [discriminate He1 |]. cbv zeta in He1.
      destruct (negb (_ =? 0)%nat); [| discriminate He1].
      injection He1 as _ <-. by eapply Hno. }
    split; [done |]. intros Hlog. by specialize (Hr Hlog).
  - cbn [andThen].
    destruct (checkSystem_frame w (copyBack e1)) as (Hs3 & Hn3 & Hg3 & _ & Hr3).
    rewrite Hs3, Hn3, Hg3.
    change (mNeighbors (copyBack e1)) with (mNeighbors e1).
    change (gpu (copyBack e1)) with (gpu e1).
    change (mPolymerSystem (copyBack e1))
      with (untangle e1 (mPolymerSystemSorted_gpu (gpu e1))).
    assert (Hu : untangle e1 (mPolymerSystemSorted_gpu (gpu e1))
                 = untangle e (mPolymerSystemSorted_gpu (gpu e))).
    { unfold untangle. by rewrite Hs, Hg, Hl, HN. }
    rewrite Hu, Hn, Hg.
    split; [done |]. split; [done |]. split; [done |]. split.
    + intros Hsync. by apply untangle_in_sync.
    + intros Hlog. rewrite Hr3; [done |].
      change (mLogCheck (copyBack e1)) with (mLogCheck e1). by rewrite Hc.
Qed.

(** C9.  [runSimulationOnGPU( 0 )] never changes the bond adjacency or the
    device, the committed lattice included.  What it does to the positions
    depends on the sorted device array: when that holds at [iToiNew[i]] the
    entry of every monomer [i] ([mirrorsInSync], the state [initialize] and
    every run leave behind), the run changes neither the position of any
    monomer read in the original index order nor the content of
    [mPolymerSystem], and with the "Check" level inactive it returns
    normally; and on a coordinate array with four entries for every monomer
    this is the only case in which a run that reaches the copy back leaves
    [mPolymerSystem] unchanged. *)
Theorem zero_sweeps_no_op e :
  let r := runSimulationOnGPU w np r250_rand32 e 0 in
  mNeighbors r.1 = mNeighbors e
  /\ gpu r.1 = gpu e
  /\ mLatticeOut_gpu (gpu r.1) = mLatticeOut_gpu (gpu e)
  /\ (mirrorsInSync e ->
      (forall i, getMonomerPositionInX r.1 i = getMonomerPositionInX e i
                 /\ getMonomerPositionInY r.1 i = getMonomerPositionInY e i
                 /\ getMonomerPositionInZ r.1 i = getMonomerPositionInZ e i)
      /\ mPolymerSystem r.1 = mPolymerSystem e
      /\ (mLogCheck e = false -> r.2 = None))
  /\ ((4 * nAllMonomers e <= length (mPolymerSystem e))%nat ->
      (forall nOccupied, r.2 <> Some (LatticeTmpOccupied nOccupied)) ->
      mPolymerSystem r.1 = mPolymerSystem e -> mirrorsInSync e).
Proof.
  intros r. destruct (zero_sweeps_result e) as (Hn & Hg & Hu & Hs & Hr). fold r in Hn, Hg, Hu, Hs, Hr.
  split; [done |]. split; [done |]. split; [by rewrite Hg |]. split.
  - intros Hsync. specialize (Hs Hsync).
    unfold getMonomerPositionInX, getMonomerPositionInY, getMonomerPositionInZ.
    by rewrite Hs.
  - intros Hlen Hno Hsame i Hi.
    rewrite (Hu Hno) in Hsame.
    destruct (untangle_entries e (mPolymerSystemSorted_gpu (gpu e)) i Hi Hlen)
      as (E0 & E1 & E2 & E3).
    cbv zeta in E0, E1, E2, E3. rewrite Hsame in E0, E1, E2, E3.
    unfold polymerSystemEntry. rewrite E0, E1, E2, E3. cbn [default from_option id].
    by destruct (fetchVec _ _).
Qed.

End ZeroSweeps.

(** The engine [initialize] leaves for the dimer is in sync, and zero
    sweeps leave it as it is. *)
Lemma zero_sweeps_no_op_witness :
  mirrorsInSync dimerEngine
  /\ mPolymerSystem (runSimulationOnGPU Int16 false (fun _ => 0) dimerEngine 0).1
     = mPolymerSystem dimerEngine
  /\ mNeighbors (runSimulationOnGPU Int16 false (fun _ => 0) dimerEngine 0).1
     = mNeighbors dimerEngine
  /\ mLatticeOut_gpu (gpu (runSimulationOnGPU Int16 false (fun _ => 0) dimerEngine 0).1)
     = mLatticeOut_gpu (gpu dimerEngine)
  /\ (runSimulationOnGPU Int16 false (fun _ => 0) dimerEngine 0).2 = None.
Proof.
  assert (H : mirrorsInSync dimerEngine).
  { intros i Hi. destruct i as [| [| i]]; [reflexivity | reflexivity |].
    exfalso. vm_compute in Hi. lia. }
  split; [exact H |].
  pose proof (zero_sweeps_no_op Int16 false (fun _ => 0) dimerEngine)
    as (H2 & _ & H3 & Hsync & _).
  destruct (Hsync H) as (_ & H1 & Hr).
  exact (conj H1 (conj H2 (conj H3 (Hr ltac:(reflexivity))))).
Defined.

(** C9, the claim as stated fails on an initialized engine whose
    coordinates were set again: [setMonomerCoordinates( 0, 3, 2, 2 )] on the
    initialized dimer returns, [initialize] still refuses the engine as
    already initialized, and [runSimulationOnGPU( 0 )] returns with the
    position of monomer 0 back at the [x = 2] the device holds. *)
Lemma zero_sweeps_after_staging_counterexample :
  let e := (setMonomerCoordinates Int16 dimerEngine 0 3 2 2).1 in
  let r := runSimulationOnGPU Int16 false (fun _ => 0) e 0 in
  (setMonomerCoordinates Int16 dimerEngine 0 3 2 2).2 = None
  /\ (initialize Int16 alternatingColoring 32 32 e).2 = Some InitializeAlreadyCalled
  /\ r.2 = None
  /\ getMonomerPositionInX e 0 = 3
  /\ getMonomerPositionInX r.1 0 = 2
  /\ ~ (forall i, getMonomerPositionInX r.1 i = getMonomerPositionInX e i).
Proof.
  cbv zeta. repeat split; try (vm_compute; reflexivity).
  intros H. specialize (H 0%nat). vm_compute in H. discriminate H.
Qed.

Section Runs.
Variable w : IntWidth.
Variable np : bool.
Variable r250_rand32 : nat -> Z.

Local Abbreviation subStep := (runSubStep w np r250_rand32) (only parsing).
Local Abbreviation run := (runSimulationOnGPU w np r250_rand32) (only parsing).

Lemma runSubStep_frame e :
  sameStaging e (subStep e)
  /\ sameShape (gpu e) (gpu (subStep e))
  /\ randomNumbers (subStep e) = S (S (randomNumbers e))
  /\ mPolymerSystem (subStep e) = mPolymerSystem e
  /\ host (subStep e) = host e /\ mLattice (subStep e) = mLattice e
  /\ (regionsInFlags e -> Forall (fun v => v = 0) (mLatticeTmp_gpu (gpu e)) ->
      Forall (fun v => v = 0) (mLatticeTmp_gpu (gpu (subStep e)))).
Proof.
  unfold runSubStep. cbv zeta.
  destruct (default (0%nat, 0%nat) _) as [offset pitch].
  cbn [groups nAllMonomers mNeighbors mBox constantMemory mForbiddenBonds mAttributeSystem
       mLogCheck set_randomNumbers set_gpu gpu randomNumbers mPolymerSystem host mLattice].
  split; [by repeat split |]. split.
  { apply substep_shape. }
  repeat (split; [done |]).
  intros Hregions Hzero.
  set (iSpecies := Z.to_nat _).
  destruct (mnElementsInGroup (groups e) !! iSpecies) as [n |] eqn:Hn;
    cbn [default from_option id].
  - apply (substep_keeps_scratch_zero w np _ _ _ _ n _ (ceilDiv n 256 * 256)); try done.
    + pose proof (ceilDiv_pad n 256 ltac:(lia)). lia.
    + intros m Hm. specialize (Hregions iSpecies n Hn). lia.
  - apply (substep_keeps_scratch_zero w np _ _ _ _ 0 _ (ceilDiv 0 256 * 256)); try done; lia.
Qed.

Lemma runKeeps_refl e : runKeeps e e.
Proof.
  split; [apply sameStaging_refl |]. split; [apply sameShape_refl |]. by repeat split.
Qed.

Lemma regionsInFlags_keep e e' :
  groups e' = groups e ->
  length (mPolymerFlags_gpu (gpu e')) = length (mPolymerFlags_gpu (gpu e)) ->
  regionsInFlags e -> regionsInFlags e'.
Proof. unfold regionsInFlags. intros -> ->. done. Qed.

Lemma runKeeps_trans e1 e2 e3 : runKeeps e1 e2 -> runKeeps e2 e3 -> runKeeps e1 e3.
Proof.
  intros (A1 & A2 & A3 & A4 & A5 & A6) (B1 & B2 & B3 & B4 & B5 & B6).
  split; [by apply (sameStaging_trans e1 e2) |].
  split; [by apply (sameShape_trans (gpu e1) (gpu e2)) |].
  split; [congruence |]. split; [congruence |]. split; [congruence |].
  intros Hr Hz. apply B6; [| by apply A6].
  destruct A1 as (Hg & _). destruct A2 as (_ & Hf & _).
  by apply (regionsInFlags_keep e1).
Qed.

Lemma runSubStep_keeps e : runKeeps e (subStep e).
Proof.
  destruct (runSubStep_frame e) as (H1 & H2 & _ & H4 & H5 & H6 & H7).
  unfold runKeeps. repeat (split; [assumption |]). assumption.
Qed.

Lemma iter_subSteps n e :
  runKeeps e (Nat.iter n subStep e)
  /\ randomNumbers (Nat.iter n subStep e) = (randomNumbers e + 2 * n)%nat.
Proof.
  induction n as [| n [IH1 IH2]]; [split; [apply runKeeps_refl | cbn; lia] |].
  change (Nat.iter (S n) subStep e) with (subStep (Nat.iter n subStep e)).
  split.
  - eapply runKeeps_trans; [exact IH1 | apply runSubStep_keeps].
  - destruct (runSubStep_frame (Nat.iter n subStep e)) as (_ & _ & -> & _).
    rewrite IH2. lia.
Qed.

Lemma iter_steps n e :
  let step := fun e => Nat.iter (length (mnElementsInGroup (groups e))) subStep e in
  runKeeps e (Nat.iter n step e)
  /\ randomNumbers (Nat.iter n step e)
     = (randomNumbers e + 2 * (n * length (mnElementsInGroup (groups e))))%nat.
Proof.
  intros step.
  induction n as [| n [IH1 IH2]]; [split; [apply runKeeps_refl | cbn; lia] |].
  change (Nat.iter (S n) step e) with (step (Nat.iter n step e)).
  set (e1 := Nat.iter n step e) in *.
  change (step e1) with (Nat.iter (length (mnElementsInGroup (groups e1))) subStep e1).
  destruct (iter_subSteps (length (mnElementsInGroup (groups e1))) e1) as [K1 K2].
  split.
  - eapply runKeeps_trans; [exact IH1 | exact K1].
  - rewrite K2, IH2. destruct IH1 as ((-> & _) & _). lia.
Qed.

(** A run of any number of Monte-Carlo steps, whatever it returns or
    throws: the bonds, the number of monomers, the layout, the box and the
    bond table are as before; on the device no array changes its length
    and the neighbour table and all property tags are as before; and two
    random numbers are drawn for each of the [steps * species] substeps. *)
Theorem runSimulationOnGPU_keeps_staging e nMonteCarloSteps :
  let r := run e nMonteCarloSteps in
  mNeighbors r.1 = mNeighbors e /\ nAllMonomers r.1 = nAllMonomers e
  /\ groups r.1 = groups e /\ mBox r.1 = mBox e
  /\ constantMemory r.1 = constantMemory e /\ mForbiddenBonds r.1 = mForbiddenBonds e
  /\ mNeighborsSorted_gpu (gpu r.1) = mNeighborsSorted_gpu (gpu e)
  /\ length (mPolymerSystemSorted_gpu (gpu r.1)) = length (mPolymerSystemSorted_gpu (gpu e))
  /\ length (mLatticeOut_gpu (gpu r.1)) = length (mLatticeOut_gpu (gpu e))
  /\ (forall j, vw (fetchVec (mPolymerSystemSorted_gpu (gpu r.1)) j)
                = vw (fetchVec (mPolymerSystemSorted_gpu (gpu e)) j))
  /\ randomNumbers r.1
     = (randomNumbers e
        + 2 * (Z.to_nat nMonteCarloSteps * length (mnElementsInGroup (groups e))))%nat.
Proof.
  intros r. unfold r, runSimulationOnGPU. cbv zeta.
  destruct (iter_steps (Z.to_nat nMonteCarloSteps) e) as [K R]. cbv zeta in K, R.
  set (e1 := Nat.iter _ _ e) in *.
  destruct K as ((G1 & G2 & G3 & G4 & G5 & G6 & G7 & G8)
                 & (S1 & S2 & S3 & S4 & S5 & S6) & _).
  assert (H : forall e2, sameStaging e1 e2 -> gpu e2 = gpu e1 ->
                randomNumbers e2 = randomNumbers e1 ->
                mNeighbors e2 = mNeighbors e /\ nAllMonomers e2 = nAllMonomers e
                /\ groups e2 = groups e /\ mBox e2 = mBox e
                /\ constantMemory e2 = constantMemory e /\ mForbiddenBonds e2 = mForbiddenBonds e
                /\ mNeighborsSorted_gpu (gpu e2) = mNeighborsSorted_gpu (gpu e)
                /\ length (mPolymerSystemSorted_gpu (gpu e2))
                   = length (mPolymerSystemSorted_gpu (gpu e))
                /\ length (mLatticeOut_gpu (gpu e2)) = length (mLatticeOut_gpu (gpu e))
                /\ (forall j, vw (fetchVec (mPolymerSystemSorted_gpu (gpu e2)) j)
                              = vw (fetchVec (mPolymerSystemSorted_gpu (gpu e)) j))
                /\ randomNumbers e2
                   = (randomNumbers e
                      + 2 * (Z.to_nat nMonteCarloSteps
                             * length (mnElementsInGroup (groups e))))%nat).
  { intros e2 (A1 & A2 & A3 & A4 & A5 & A6 & A7 & A8) Hgpu Hrand.
    rewrite Hgpu, Hrand. repeat split; congruence. }
  clearbody e1.
  unfold checkLatticeTmp. destruct (negb (mLogCheck e1)).
  - cbn [andThen returns].
    pose proof (checkSystem_frame w (copyBack e1)) as (_ & _ & Cg & _).
    apply H.
    + destruct (checkSystem w (copyBack e1)) as [e3 err] eqn:Hc.
      pose proof (checkSystem_thrashes w (copyBack e1)) as Ht. rewrite Hc in Ht.
      cbn [fst] in *. rewrite Ht. by repeat split.
    + by rewrite Cg.
    + pose proof (checkSystem_thrashes w (copyBack e1)) as Ht. by rewrite Ht.
  - cbv zeta. destruct (negb (_ =? 0)%nat).
    + cbn [andThen throws fst]. apply H; by repeat split.
    + cbn [andThen returns].
      set (e2 := set_host e1 _).
      pose proof (checkSystem_frame w (copyBack e2)) as (_ & _ & Cg & _).
      pose proof (checkSystem_thrashes w (copyBack e2)) as Ht.
      apply H.
      * rewrite Ht. by repeat split.
      * by rewrite Cg.
      * by rewrite Ht.
Qed.

End Runs.

Lemma filter_zero_nil (l : list Z) n :
  Forall (fun v => v = 0) l -> filter (fun v => v <> 0) (take n l) = [].
Proof.
  intros Hz. revert n. induction Hz as [| v l Hv Hl IH]; intros n.
  - by rewrite take_nil.
  - destruct n as [| n]; [done |]. cbn [take]. rewrite filter_cons.
    destruct (decide (v <> 0)); [done | apply IH].
Qed.

Section RunResults.
Variable w : IntWidth.
Variable np : bool.
Variable r250_rand32 : nat -> Z.

Local Abbreviation run := (runSimulationOnGPU w np r250_rand32) (only parsing).

Lemma run_after_loop e nMonteCarloSteps :
  exists e1,
    runKeeps e e1
    /\ run e nMonteCarloSteps
       = andThen (checkLatticeTmp e1) (fun e => checkSystem w (copyBack e)).
Proof.
  destruct (iter_steps w np r250_rand32 (Z.to_nat nMonteCarloSteps) e) as [K _].
  cbv zeta in K. eexists. split; [exact K | done].
Qed.

(** The scratch lattice over a whole run: when every species region lies
    inside the flag array and the scratch lattice is zero before the run,
    it is zero after the run, whatever the number of steps and the random
    numbers; so the test of the "Check" level for an empty scratch lattice
    never throws, and with that level inactive the run returns normally. *)
Theorem runSimulationOnGPU_scratch_clean e nMonteCarloSteps :
  regionsInFlags e ->
  Forall (fun v => v = 0) (mLatticeTmp_gpu (gpu e)) ->
  let r := run e nMonteCarloSteps in
  Forall (fun v => v = 0) (mLatticeTmp_gpu (gpu r.1))
  /\ (forall nOccupied, r.2 <> Some (LatticeTmpOccupied nOccupied))
  /\ (mLogCheck e = false -> r.2 = None).
Proof.
  intros Hregions Hzero r.
  destruct (run_after_loop e nMonteCarloSteps) as (e1 & K & E).
  unfold r. rewrite E. clear E r.
  destruct K as ((_ & _ & _ & _ & _ & _ & _ & Hlog) & _ & _ & _ & _ & Hz).
  specialize (Hz Hregions Hzero).
  unfold checkLatticeTmp. destruct (mLogCheck e1) eqn:Hl1; cbn [negb].
  - cbv zeta.
    set (e2 := set_host e1 _).
    assert (Hocc : length (filter (fun v => v <> 0)
                      (take (nCells e2) (default [] (mLatticeTmp (host e2))))) = 0%nat).
    { unfold e2. cbn [host set_host mLatticeTmp].
      destruct (mLatticeTmp (host e1)); cbn [fmap option_fmap option_map default from_option id].
      - by rewrite filter_zero_nil.
      - by rewrite take_nil. }
    rewrite Hocc. cbn [Nat.eqb negb andThen returns].
    destruct (checkSystem_frame w (copyBack e2)) as (_ & _ & Cg & _).
    split; [by rewrite Cg |]. split; [| intros; congruence].
    intros k Hk. apply (checkSystem_error w) in Hk as [? | [[? ?] | [? ?]]]; done.
  - cbn [andThen returns].
    destruct (checkSystem_frame w (copyBack e1)) as (_ & _ & Cg & _ & Cr).
    split; [by rewrite Cg |]. rewrite Cr by done. split; [done |]. done.
Qed.

(** The positions a run hands back: unless the run stops at the test for an
    empty scratch lattice, on a coordinate array with four entries for
    every monomer the three getters return for monomer [i] the position
    that the device holds at slot [iToiNew[i]] after the run, the tag of
    that slot is in the fourth entry, and the mirrors are in sync for the
    next run. *)
Theorem runSimulationOnGPU_returns_device_positions e nMonteCarloSteps :
  (4 * nAllMonomers e <= length (mPolymerSystem e))%nat ->
  let r := run e nMonteCarloSteps in
  (forall nOccupied, r.2 <> Some (LatticeTmpOccupied nOccupied)) ->
  (forall i, (i < nAllMonomers e)%nat ->
     let p := fetchVec (mPolymerSystemSorted_gpu (gpu r.1))
                (Z.to_nat (default 0 (iToiNew (groups e) !! i))) in
     getMonomerPositionInX r.1 i = vx p /\ getMonomerPositionInY r.1 i = vy p
     /\ getMonomerPositionInZ r.1 i = vz p
     /\ mPolymerSystem r.1 !! (4 * i + 3)%nat = Some (vw p))
  /\ mirrorsInSync r.1.
Proof.
  intros Hlen r.
  destruct (run_after_loop e nMonteCarloSteps) as (e1 & K & E).
  unfold r. rewrite E. clear E r.
  destruct K as ((Hg & Hn & _) & _ & Hsys & _).
  assert (Hcopy : forall e2, groups e2 = groups e1 -> nAllMonomers e2 = nAllMonomers e1 ->
            mPolymerSystem e2 = mPolymerSystem e1 -> gpu e2 = gpu e1 ->
            let e3 := (checkSystem w (copyBack e2)).1 in
            (forall i, (i < nAllMonomers e)%nat ->
               let p := fetchVec (mPolymerSystemSorted_gpu (gpu e3))
                          (Z.to_nat (default 0 (iToiNew (groups e) !! i))) in
               getMonomerPositionInX e3 i = vx p /\ getMonomerPositionInY e3 i = vy p
               /\ getMonomerPositionInZ e3 i = vz p
               /\ mPolymerSystem e3 !! (4 * i + 3)%nat = Some (vw p))
            /\ mirrorsInSync e3).
  { intros e2 Hg2 Hn2 Hs2 Hgpu2 e3.
    destruct (copyBack_reads_entries e2) as (Hpos & Hsync).
    { rewrite Hn2, Hs2, Hn, Hsys. done. }
    destruct (checkSystem_frame w (copyBack e2)) as (Cs & _ & Cg & _).
    pose proof (checkSystem_thrashes w (copyBack e2)) as Ht. fold e3 in Cs, Cg, Ht.
    split.
    - intros i Hi p. unfold getMonomerPositionInX, getMonomerPositionInY,
        getMonomerPositionInZ. rewrite Cs. unfold p. rewrite Cg.
      change (gpu (copyBack e2)) with (gpu e2). rewrite <- Hg, <- Hg2.
      apply Hpos. lia.
    - apply (mirrorsInSync_fields (copyBack e2)); try done; by rewrite Ht. }
  unfold checkLatticeTmp. destruct (negb (mLogCheck e1)).
  - cbn [andThen returns]. intros _. by apply Hcopy.
  - cbv zeta. destruct (negb (_ =? 0)%nat).
    + cbn [andThen throws snd]. intros Hno. exfalso. eapply Hno. reflexivity.
    + cbn [andThen returns]. intros _. by apply Hcopy.
Qed.

End RunResults.

(** ** [checkSystem] *)









Section CheckSystem.
Variable w : IntWidth.



End CheckSystem.

(** ** Further theorems at the example configurations *)

(** The flag of the first monomer of the dimer after a substep under
    seed 0. *)
Lemma substep_flag_values_witness :
  let d' := substep Int16 false dimerConstants 0 0 32 1 0
              (seq 0 256) (seq 0 256) (seq 0 256) dimerDevice in
  let flag := default 0 (mPolymerFlags_gpu d' !! (0 + 0)%nat) in
  let direction := drawDirection Int16 0 0 in
  (checkAccepts Int16 false dimerConstants dimerDevice 0 0 32 0 0%nat = false -> flag = 0)
  /\ (checkAccepts Int16 false dimerConstants dimerDevice 0 0 32 0 0%nat = true ->
      flag = 4 * direction + 1 \/ flag = 4 * direction + 3)
  /\ (flag = 0 \/ flag = 4 * direction + 1 \/ flag = 4 * direction + 3)
  /\ Z.land flag 3 <> 2
  /\ (flag <> 0 -> flagDirection Int16 flag = direction).
Proof.
  apply (substep_flag_values Int16 false dimerConstants 0 0 32 1 0 256
           (seq 0 256) (seq 0 256) (seq 0 256) dimerDevice 0).
  - reflexivity.
  - reflexivity.
  - lia.
  - lia.
  - vm_compute. lia.
Defined.

(** The first monomer of the dimer is alone in its species: its move is
    performed exactly when the check kernel accepts it. *)
Lemma perform_accepts_iff_front_unmarked_witness :
  BoxOK (dcBox dimerConstants) 3 3 3
  /\ let dB := launch (seq 0 256) (kernelSimulationScBFMPerformSpecies Int16 dimerConstants 0 1)
                 (launch (seq 0 256)
                    (kernelSimulationScBFMCheckSpecies Int16 false dimerConstants 0 0 32 1 0)
                    dimerDevice) in
     let flag := default 0 (mPolymerFlags_gpu dB !! (0 + 0)%nat) in
     let p := fetchVec (mPolymerSystemSorted_gpu dimerDevice) (0 + 0) in
     Z.land flag 3 = 3
     <-> checkAccepts Int16 false dimerConstants dimerDevice 0 0 32 0 0%nat = true
         /\ forall m', (m' < 1)%nat -> m' <> 0%nat ->
              checkAccepts Int16 false dimerConstants dimerDevice 0 0 32 0 m' = true ->
              forall cell, cell ∈ frontPlaneCells (vx p) (vy p) (vz p) (drawDirection Int16 0 0) ->
                cellIndex (dcBox dimerConstants) cell
                <> proposedCell dimerConstants
                     (fetchVec (mPolymerSystemSorted_gpu dimerDevice) (0 + m'))
                     (drawDirection Int16 m' 0).
Proof.
  assert (H : BoxOK (dcBox dimerConstants) 3 3 3).
  { constructor; vm_compute; try reflexivity; intros E; discriminate E. }
  split; [exact H |].
  apply (perform_accepts_iff_front_unmarked Int16 false dimerConstants 0 0 32 1 0
           3 3 3 256 (seq 0 256) (seq 0 256) dimerDevice 0).
  - reflexivity.
  - reflexivity.
  - lia.
  - exact H.
  - lia.
  - lia.
  - lia.
  - apply (Forall_replicate (fun v => v = 0) 512 0). reflexivity.
  - reflexivity.
  - lia.
  - vm_compute. lia.
Defined.

(** One Monte-Carlo step of the dimer with the random numbers 0, 1, 2,
    ...: the scratch lattice is empty afterwards and the run returns. *)
Lemma runSimulationOnGPU_scratch_clean_witness :
  let r := runSimulationOnGPU Int16 false (fun n => Z.of_nat n) dimerEngine 1 in
  Forall (fun v => v = 0) (mLatticeTmp_gpu (gpu dimerEngine))
  /\ Forall (fun v => v = 0) (mLatticeTmp_gpu (gpu r.1))
  /\ r.2 = None.
Proof.
  intros r.
  assert (Hzero : Forall (fun v => v = 0) (mLatticeTmp_gpu (gpu dimerEngine))).
  { apply (Forall_replicate (fun v => v = 0) 512 0). reflexivity. }
  assert (Hregions : regionsInFlags dimerEngine).
  { intros s n Hn. destruct s as [| [| s]]; vm_compute in Hn; [| | discriminate Hn];
      injection Hn as <-; vm_compute; lia. }
  pose proof (runSimulationOnGPU_scratch_clean Int16 false (fun n => Z.of_nat n)
                dimerEngine 1 Hregions Hzero) as (H1 & _ & H3).
  split; [exact Hzero |]. split; [exact H1 |]. apply H3. reflexivity.
Defined.

(** After one Monte-Carlo step of the dimer the getters return the
    position the device holds for the first monomer. *)
Lemma runSimulationOnGPU_returns_device_positions_witness :
  let r := runSimulationOnGPU Int16 false (fun n => Z.of_nat n) dimerEngine 1 in
  let p := fetchVec (mPolymerSystemSorted_gpu (gpu r.1))
             (Z.to_nat (default 0 (iToiNew (groups dimerEngine) !! 0%nat))) in
  r.2 = None
  /\ getMonomerPositionInX r.1 0 = vx p /\ getMonomerPositionInY r.1 0 = vy p
  /\ getMonomerPositionInZ r.1 0 = vz p
  /\ mPolymerSystem r.1 !! (4 * 0 + 3)%nat = Some (vw p)
  /\ mirrorsInSync r.1.
Proof.
  intros r p.
  assert (Hr : r.2 = None) by (vm_compute; reflexivity).
  split; [exact Hr |].
  assert (Hlen : (4 * nAllMonomers dimerEngine <= length (mPolymerSystem dimerEngine))%nat)
    by (vm_compute; lia).
  assert (Hno : forall nOccupied, r.2 <> Some (LatticeTmpOccupied nOccupied)).
  { intros nOccupied E. rewrite Hr in E. discriminate E. }
  pose proof (runSimulationOnGPU_returns_device_positions Int16 false (fun n => Z.of_nat n)
                dimerEngine 1 Hlen Hno) as (Hpos & Hsync).
  destruct (Hpos 0%nat ltac:(vm_compute; lia)) as (Px & Py & Pz & Pw).
  exact (conj Px (conj Py (conj Pz (conj Pw Hsync)))).
Defined.


(** The 8 x 8 x 8 box on a fresh updater with 16-bit positions. *)
Lemma setLatticeSize_power_of_two_witness :
  exists e',
    setLatticeSize Int16 (UpdaterGPUScBFM_AB_Type []) (2 ^ 3) (2 ^ 3) (2 ^ 3) = returns e'
    /\ mBox e' = mkBoxSize (2 ^ 3) (2 ^ 3) (2 ^ 3) (2 ^ 3 - 1) (2 ^ 3 - 1) (2 ^ 3 - 1) 3 (3 + 3)
    /\ (3 + 3 + 3 <= 32 -> BoxOK (hostBox e') 3 3 3).
Proof.
  apply (setLatticeSize_power_of_two Int16 (UpdaterGPUScBFM_AB_Type []) 3 3 3).
  - lia.
  - lia.
  - lia.
  - lia.
  - reflexivity.
  - reflexivity.
  - reflexivity.
  - intros E. discriminate E.
Defined.
